(** * coursera-dl: the on-demand download pipeline of [coursera/coursera_dl.py]

    A shallow embedding of the resource locator, the syllabus parser, the
    resource selector, the path namer, the download orchestrator and the
    completion estimator, followed by the properties checked against them.

    Conventions of the embedding:
    - Python values that come out of [json.loads] are kept untyped ([json]);
      indexing, iteration and [.get] raise the exception Python raises.
    - A Python [dict] whose iteration order matters is an association list
      with the insertion-order update [dict_set].
    - Effects (file system, wall clock, log) are threaded through the monad
      [M]; a raised exception keeps the effects performed before it.
    - Timestamps ([time.time()], [os.path.getmtime]) are Python floats that
      hold seconds; the model keeps them as exact integers of seconds. *)

From Stdlib Require Import ZArith List Bool Ascii String DecimalString Lia.
From stdpp Require Import base option list gmap strings.

Set Warnings "-register-all".

Open Scope Z_scope.

(** ** Exceptions and results *)

Inductive exn : Type :=
| HTTPError          (* requests.exceptions.HTTPError, from raise_for_status *)
| ValueError         (* json.loads on a malformed document *)
| KeyError
| TypeError
| IndexError
| AttributeError
| OSError
| AuthenticationFailed
| ClassNotFound
| DownloadFailure.   (* whatever the downloader raises *)

Inductive result (A : Type) : Type :=
| Ok (a : A)
| Raise (e : exn).

Arguments Ok {A} a.
Arguments Raise {A} e.

Definition is_ok {A} (r : result A) : bool :=
  match r with Ok _ => true | Raise _ => false end.

Module Res.

Definition bind {A B} (r : result A) (k : A -> result B) : result B :=
  match r with
  | Ok a => k a
  | Raise e => Raise e
  end.

Fixpoint mapM {A B} (f : A -> result B) (l : list A) : result (list B) :=
  match l with
  | [] => Ok []
  | x :: l' => bind (f x) (fun y => bind (mapM f l') (fun ys => Ok (y :: ys)))
  end.

Fixpoint filterM {A} (p : A -> result bool) (l : list A) : result (list A) :=
  match l with
  | [] => Ok []
  | x :: l' =>
      bind (p x) (fun b =>
      bind (filterM p l') (fun r => Ok (if b then x :: r else r)))
  end.

Fixpoint foldM {A S} (f : S -> A -> result S) (l : list A) (acc : S)
  : result S :=
  match l with
  | [] => Ok acc
  | x :: l' => bind (f acc x) (foldM f l')
  end.

End Res.

Notation "'try' x <- r ;; k" := (Res.bind r (fun x => k))
  (at level 10, x name, r at level 99, k at level 200,
   format "'[v' 'try'  x  <-  r  ;; '/' k ']'").

(** ** Python values *)

(** The objects [json.loads] builds: [None], booleans, numbers, strings,
    lists and dicts (keys in document order). *)
Inductive json : Type :=
| JNull
| JBool (b : bool)
| JNum (n : Z)
| JStr (s : string)
| JArr (xs : list json)
| JObj (kvs : list (string * json)).

Definition is_None (j : json) : bool :=
  match j with JNull => true | _ => false end.

(** [j == 'lit'] for a string literal. *)
Definition eq_str (j : json) (lit : string) : bool :=
  match j with JStr s => String.eqb s lit | _ => false end.

(** A dict with string keys, in insertion order. *)
Definition dict (V : Type) : Type := list (string * V).

Fixpoint dict_get {V} (d : dict V) (k : string) : option V :=
  match d with
  | [] => None
  | (k', v) :: d' => if String.eqb k' k then Some v else dict_get d' k
  end.

(** [d[k] = v]: an existing key keeps its position, a new one goes last. *)
Fixpoint dict_set {V} (d : dict V) (k : string) (v : V) : dict V :=
  match d with
  | [] => [(k, v)]
  | (k', v') :: d' =>
      if String.eqb k' k then (k', v) :: d' else (k', v') :: dict_set d' k v
  end.

(** [x[k]] with a string subscript. *)
Definition getitem (x : json) (k : string) : result json :=
  match x with
  | JObj kvs => match dict_get kvs k with
                | Some v => Ok v
                | None => Raise KeyError
                end
  | _ => Raise TypeError
  end.

(** [x.get(k)]: only dicts have the method; a key that is not a string is
    never one of the keys of a JSON object. *)
Definition py_get (x : json) (k : json) : result json :=
  match x with
  | JObj kvs => match k with
                | JStr s => Ok (default JNull (dict_get kvs s))
                | _ => Ok JNull
                end
  | _ => Raise AttributeError
  end.

(** [l[0]] *)
Definition first {A} (l : list A) : result A :=
  match l with
  | x :: _ => Ok x
  | [] => Raise IndexError
  end.

Fixpoint chars (s : string) : list json :=
  match s with
  | EmptyString => []
  | String a s' => JStr (String a EmptyString) :: chars s'
  end.

(** [for x in v]: the items a loop over [v] visits. *)
Definition py_iter (v : json) : result (list json) :=
  match v with
  | JArr xs => Ok xs
  | JObj kvs => Ok (map (fun kv => JStr (fst kv)) kvs)
  | JStr s => Ok (chars s)
  | _ => Raise TypeError
  end.

Definition is_substring (s t : string) : bool :=
  match String.index 0 s t with Some _ => true | None => false end.

(** [s in v] for a string [s]. *)
Definition py_contains (v : json) (s : string) : result bool :=
  match v with
  | JObj kvs => Ok (bool_decide (is_Some (dict_get kvs s)))
  | JArr xs => Ok (existsb (fun x => eq_str x s) xs)
  | JStr t => Ok (is_substring s t)
  | _ => Raise TypeError
  end.

(** [a < b] as the sort compares keys: strings by code point, numbers by
    value; other pairs do not compare. *)
Definition py_lt (a b : json) : result bool :=
  match a, b with
  | JStr s, JStr t => Ok (String.ltb s t)
  | JNum m, JNum n => Ok (m <? n)
  | _, _ => Raise TypeError
  end.

(** [k + '.' + ext] where [k] is the loop variable. *)
Definition concat_key (k : json) (ext : string) : result string :=
  match k with
  | JStr s => Ok (s +:+ "." +:+ ext)
  | _ => Raise TypeError
  end.

(** *** Strings *)

Fixpoint contains_char (c : ascii) (s : string) : bool :=
  match s with
  | EmptyString => false
  | String a s' => Ascii.eqb a c || contains_char c s'
  end.

(** [s.split(c)] for a one-character separator. *)
Fixpoint split (c : ascii) (s : string) : list string :=
  match s with
  | EmptyString => [EmptyString]
  | String a s' =>
      if Ascii.eqb a c then EmptyString :: split c s'
      else match split c s' with
           | h :: t => String a h :: t
           | [] => [String a EmptyString]
           end
  end.

Definition upper_ascii (a : ascii) : ascii :=
  let n := nat_of_ascii a in
  if ((97 <=? n) && (n <=? 122))%nat then ascii_of_nat (n - 32) else a.

(** [s.upper()], on the ASCII letters. *)
Fixpoint upper (s : string) : string :=
  match s with
  | EmptyString => EmptyString
  | String a s' => String (upper_ascii a) (upper s')
  end.

Definition starts_with_sep (s : string) : bool :=
  match s with String "/" _ => true | _ => false end.

Fixpoint ends_with_sep (s : string) : bool :=
  match s with
  | EmptyString => false
  | String a EmptyString => Ascii.eqb a "/"
  | String _ s' => ends_with_sep s'
  end.

(** One step of [os.path.join] (posixpath). *)
Definition join2 (path b : string) : string :=
  if starts_with_sep b then b
  else if String.eqb path "" || ends_with_sep path then path +:+ b
  else path +:+ "/" +:+ b.

Definition path_join (a : string) (ps : list string) : string :=
  fold_left join2 ps a.

(** ['%02d' % n] for the ordinals [enumerate] yields. *)
Definition fmt_02d (n : nat) : string :=
  let s := NilEmpty.string_of_uint (Nat.to_uint n) in
  if (String.length s <? 2)%nat then "0" +:+ s else s.

Definition nonempty {A} (l : list A) : bool :=
  match l with [] => false | _ :: _ => true end.

(** Truth value of a string and of an optional string argument. *)
Definition truthy (s : string) : bool := negb (String.eqb s "").

Definition supplied (o : option string) : bool :=
  match o with Some s => truthy s | None => false end.

(** ** The world the program runs in *)

(** A file-system entry: a directory or a regular file, with its
    modification time. Only the paths the program itself tests or writes are
    tracked; parent directories are not. *)
Record node : Type := Node { is_dir : bool; mtime : Z }.

(** What the run leaves behind for an observer: warnings (info and debug
    lines are not recorded) and every file-system or process action the
    orchestrator starts. *)
Inductive event : Type :=
| Warn_resolution (resolution : string) (video_id : json)
| Warn_fallback (description language : string) (video_id : json)
| Mkdir (path : string)
| Download (url : json) (path : string) (resume : bool)
| Touch (path : string)
| Playlist (sec : string)
| Hook (hook sec : string).

Record world : Type := World {
  fs : gmap string node;
  ticks : nat;               (* how many times the wall clock was read *)
  log : list event
}.

(** An action of an external process on the file system, given the current
    time; an exception keeps the changes made before it. *)
Definition fs_action : Type :=
  Z -> gmap string node -> result unit * gmap string node.

(** The collaborators the module imports or is handed, which are not part
    of [coursera_dl.py]. *)
Class Collaborators : Type := {
  (* [session.get(url)], [raise_for_status()] and [.text] *)
  session_get : string -> result string;
  json_loads : string -> result json;
  (* [define.OPENCOURSE_VIDEO_URL.format(video_id=...)] and
     [define.OPENCOURSE_CONTENT_URL.format(class_name=...)] *)
  OPENCOURSE_VIDEO_URL : json -> string;
  OPENCOURSE_CONTENT_URL : string -> string;
  (* [utils.make_coursera_absolute_url] *)
  make_coursera_absolute_url : json -> result json;
  (* [cookies.login] on a fresh session *)
  login : option string -> option string -> result unit;
  (* [re.search(pattern, text) is not None], for a valid pattern *)
  re_search : string -> string -> bool;
  (* [str(x)] for an [x] that is not a string *)
  str_other : json -> string;
  (* the value of the n-th reading of [time.time()] *)
  clock : nat -> Z;
  (* [downloader.download(url, path, resume=resume)] *)
  download : json -> string -> bool -> fs_action;
  (* lines 390-401: the walk below [sec] that writes the .m3u files *)
  write_playlists : string -> fs_action;
  (* [os.chdir(sec); subprocess.call(hook)] *)
  call_hook : string -> string -> fs_action
}.

(** ** The effect monad *)

Definition M (A : Type) : Type := world -> result A * world.

Definition ret {A} (a : A) : M A := fun w => (Ok a, w).

Definition bind {A B} (m : M A) (k : A -> M B) : M B :=
  fun w => match m w with
           | (Ok a, w') => k a w'
           | (Raise e, w') => (Raise e, w')
           end.

Definition lift {A} (r : result A) : M A := fun w => (r, w).

Definition emit (e : event) : M unit :=
  fun w => (Ok tt, World (fs w) (ticks w) (log w ++ [e])).

Notation "'do' x <- m ;; k" := (bind m (fun x => k))
  (at level 10, x name, m at level 99, k at level 200,
   format "'[v' 'do'  x  <-  m  ;; '/' k ']'").

Notation "m ;;; k" := (bind m (fun _ => k))
  (at level 100, k at level 200, right associativity).

(** [for x in l: acc = body(x, acc)], stopping at the first exception. *)
Fixpoint for_each {A S} (l : list A) (body : A -> S -> M S) (acc : S) : M S :=
  match l with
  | [] => ret acc
  | x :: l' => do acc' <- body x acc ;; for_each l' body acc'
  end.

(** [enumerate(l)], counting from [i]. *)
Fixpoint enumerate_from {A} (i : nat) (l : list A) : list (nat * A) :=
  match l with
  | [] => []
  | x :: l' => (i, x) :: enumerate_from (S i) l'
  end.

Definition enumerate {A} (l : list A) : list (nat * A) := enumerate_from 0 l.

Section Primitives.
Context `{Collaborators}.

Definition now (w : world) : Z := clock (ticks w).

(** [time.time()] *)
Definition time_time : M Z :=
  fun w => (Ok (now w), World (fs w) (S (ticks w)) (log w)).

(** [os.path.exists(p)] *)
Definition path_exists (p : string) : M bool :=
  fun w => (Ok (bool_decide (is_Some (fs w !! p))), w).

(** [os.path.getmtime(p)] *)
Definition getmtime (p : string) : M Z :=
  fun w => match fs w !! p with
           | Some n => (Ok (mtime n), w)
           | None => (Raise OSError, w)
           end.

(** Modelled from the spec: [utils.mkdir_p] is not in this file; section 5
    says directory creation is idempotent (create-if-absent). A regular file
    in the way makes it fail. *)
Definition mkdir_p (p : string) : M unit :=
  emit (Mkdir p) ;;;
  fun w => match fs w !! p with
           | Some n => ((if is_dir n then Ok tt else Raise OSError), w)
           | None => (Ok tt, World (<[p := Node true (now w)]> (fs w))
                                   (ticks w) (log w))
           end.

(** [open(p, 'w').close()]: a zero-byte file stamped with the current time;
    a directory cannot be opened for writing. *)
Definition touch (p : string) : M unit :=
  emit (Touch p) ;;;
  fun w => match fs w !! p with
           | Some (Node true _) => (Raise OSError, w)
           | _ => (Ok tt, World (<[p := Node false (now w)]> (fs w))
                                (ticks w) (log w))
           end.

Definition external (a : fs_action) : M unit :=
  fun w => let (r, fs') := a (now w) (fs w) in
           (r, World fs' (ticks w) (log w)).

Definition downloader_download (url : json) (p : string) (resume : bool)
  : M unit :=
  emit (Download url p resume) ;;; external (download url p resume).

(** [get_page]: the text of the page, or the HTTP error re-raised. *)
Definition get_page (url : string) : M string := lift (session_get url).

(** ['%s' % x] *)
Definition py_str (x : json) : string :=
  match x with JStr s => s | _ => str_other x end.

(** [re.search(pattern, x)] on a value that has to be a string. *)
Definition re_search_value (pattern : string) (x : json) : result bool :=
  match x with
  | JStr s => Ok (re_search pattern s)
  | _ => Raise TypeError
  end.

End Primitives.

(** ** The course tree *)

Definition resource : Type := json * string.            (* (url, title) *)
Definition lecture_content : Type := dict (list resource).
Definition lecture_entry : Type := json * lecture_content.      (* slug first *)
Definition section_entry : Type := json * list lecture_entry.
Definition module_entry : Type := json * list section_entry.

(** ** Resource locator: [get_on_demand_video_url] *)

(** [sources.sort(key=...)]: a stable sort on the precomputed keys. *)
Fixpoint insert_keyed (kx : json * json) (l : list (json * json))
  : result (list (json * json)) :=
  match l with
  | [] => Ok [kx]
  | ky :: l' =>
      try lt <- py_lt (fst kx) (fst ky) ;;
      if lt then Ok (kx :: ky :: l')
      else try r <- insert_keyed kx l' ;; Ok (ky :: r)
  end.

Definition sort_by (key : json -> result json) (v : json)
  : result (list json) :=
  match v with
  | JArr xs =>
      try keyed <- Res.mapM (fun x => try k <- key x ;; Ok (k, x)) xs ;;
      try sorted <- Res.foldM (fun acc kx => insert_keyed kx acc) keyed [] ;;
      Ok (map snd sorted)
  | _ => Raise AttributeError
  end.

Definition subtitle_nodes : list (string * string * string) :=
  [("subtitles", "srt", "subtitle"); ("subtitlesTxt", "txt", "transcript")].

Section Locator.
Context `{Collaborators}.

(** The body of the loop over [subtitle_nodes]; the loop carries
    [video_content] and the variable [subtitle_language], which the body
    assigns. *)
Definition gather_subtitles (dom video_id : json)
    (node : string * string * string) (vars : dict json * string)
  : M (dict json * string) :=
  let '(subtitle_node, subtitle_extension, subtitle_description) := node in
  let '(video_content, subtitle_language) := vars in
  do subtitles <- lift (py_get dom (JStr subtitle_node)) ;;
  if negb (is_None subtitles) then
    if String.eqb subtitle_language "all" then
      do langs <- lift (py_iter subtitles) ;;
      do video_content <-
        for_each langs (fun current_subtitle_language video_content =>
          do u <- lift (py_get subtitles current_subtitle_language) ;;
          do absolute <- lift (make_coursera_absolute_url u) ;;
          do key <- lift (concat_key current_subtitle_language
                                     subtitle_extension) ;;
          ret (dict_set video_content key absolute)) video_content ;;
      ret (video_content, subtitle_language)
    else
      do missing <-
        (if negb (String.eqb subtitle_language "en") then
           do present <- lift (py_contains subtitles subtitle_language) ;;
           ret (negb present)
         else ret false) ;;
      (if missing
       then emit (Warn_fallback subtitle_description subtitle_language
                                video_id)
       else ret tt) ;;;
      let subtitle_language := "en" in
      do subtitle_url <- lift (py_get subtitles (JStr subtitle_language)) ;;
      if negb (is_None subtitle_url) then
        do absolute <- lift (make_coursera_absolute_url subtitle_url) ;;
        ret (dict_set video_content
                      (subtitle_language +:+ "." +:+ subtitle_extension)
                      absolute,
             subtitle_language)
      else ret (video_content, subtitle_language)
  else ret (video_content, subtitle_language).

Definition get_on_demand_video_url (video_id : json)
    (subtitle_language resolution : string) : M (dict json) :=
  let url := OPENCOURSE_VIDEO_URL video_id in
  do page <- get_page url ;;
  let video_content : dict json := [] in
  do dom <- lift (json_loads page) ;;
  (* videos *)
  do sources <- lift (getitem dom "sources") ;;
  do sources <- lift (sort_by (fun src => getitem src "resolution") sources) ;;
  let sources := rev sources in
  do filtered_sources <-
    lift (Res.filterM
            (fun source => try r <- getitem source "resolution" ;;
                           Ok (eq_str r resolution)) sources) ;;
  do sources <-
    (if (length filtered_sources =? 0)%nat
     then emit (Warn_resolution resolution video_id) ;;; ret sources
     else ret filtered_sources) ;;
  do video_url <-
    lift (try s0 <- first sources ;;
          try fs <- getitem s0 "formatSources" ;;
          getitem fs "video/mp4") ;;
  let video_content := dict_set video_content "mp4" video_url in
  (* subtitles and transcripts *)
  do vars <- for_each subtitle_nodes (gather_subtitles dom video_id)
                      (video_content, subtitle_language) ;;
  ret (fst vars).

End Locator.

(** ** Syllabus parser: [parse_on_demand_syllabus] *)

Section Parser.
Context `{Collaborators}.

(** The body of [for lecture in json_lectures]. *)
Definition parse_lecture (subtitle_language video_resolution : string)
    (lecture : json) (lectures : list lecture_entry)
  : M (list lecture_entry) :=
  do lecture_slug <- lift (getitem lecture "slug") ;;
  do type_name <- lift (try c <- getitem lecture "content" ;;
                        getitem c "typeName") ;;
  if eq_str type_name "lecture" then
    do lecture_video_id <-
      lift (try c <- getitem lecture "content" ;;
            try d <- getitem c "definition" ;;
            getitem d "videoId") ;;
    do video_content <-
      get_on_demand_video_url lecture_video_id subtitle_language
                              video_resolution ;;
    let lecture_video_content : lecture_content :=
      fold_left (fun acc kv => dict_set acc (fst kv) [(snd kv, "")])
                video_content [] in
    if nonempty lecture_video_content
    then ret (lectures ++ [(lecture_slug, lecture_video_content)])
    else ret lectures
  else ret lectures.

(** The body of [for section in json_sections]. *)
Definition parse_section (subtitle_language video_resolution : string)
    (section : json) (sections : list section_entry)
  : M (list section_entry) :=
  do section_slug <- lift (getitem section "slug") ;;
  do json_lectures <- lift (try e <- getitem section "elements" ;;
                            py_iter e) ;;
  do lectures <-
    for_each json_lectures
             (parse_lecture subtitle_language video_resolution) [] ;;
  if nonempty lectures
  then ret (sections ++ [(section_slug, lectures)])
  else ret sections.

(** The body of [for module in json_modules]. *)
Definition parse_module (subtitle_language video_resolution : string)
    (module : json) (modules : list module_entry)
  : M (list module_entry) :=
  do module_slug <- lift (getitem module "slug") ;;
  do json_sections <- lift (try e <- getitem module "elements" ;;
                            py_iter e) ;;
  do sections <-
    for_each json_sections
             (parse_section subtitle_language video_resolution) [] ;;
  if nonempty sections
  then ret (modules ++ [(module_slug, sections)])
  else ret modules.

Definition parse_on_demand_syllabus (page : string) (reverse : bool)
    (intact_fnames : bool) (subtitle_language video_resolution : string)
  : M (list module_entry) :=
  do dom <- lift (json_loads page) ;;
  do json_modules <-
    lift (try cm <- getitem dom "courseMaterial" ;;
          try e <- getitem cm "elements" ;;
          py_iter e) ;;
  do modules <-
    for_each json_modules
             (parse_module subtitle_language video_resolution) [] ;;
  ret (if nonempty modules && reverse
       then rev modules else modules).

End Parser.

(** ** Completion estimator: [is_course_complete] and [total_seconds] *)

(** [datetime.timedelta], normalised. *)
Record timedelta : Type := Timedelta {
  days : Z;
  seconds : Z;
  microseconds : Z
}.

(** [datetime.timedelta(days=n)] *)
Definition timedelta_of_days (n : Z) : timedelta := Timedelta n 0 0.

Definition total_seconds (td : timedelta) : Z :=
  (microseconds td + (seconds td + days td * 24 * 3600) * 10 ^ 6) `div` 10 ^ 6.

Section Estimator.
Context `{Collaborators}.

Definition is_course_complete (last_update : Z) : M bool :=
  let rv := false in
  if 0 <=? last_update then
    do t <- time_time ;;
    let delta := t - last_update in
    let max_delta := total_seconds (timedelta_of_days 30) in
    if max_delta <? delta then ret true else ret rv
  else ret rv.

End Estimator.

(** ** Path namer: [format_section], [format_resource],
       [format_combine_number_resource] *)

Section Namer.
Context `{Collaborators}.

Definition format_section (num : nat) (section : json) (class_name : string)
    (verbose_dirs : bool) : string :=
  let sec := fmt_02d num +:+ "_" +:+ py_str section in
  if verbose_dirs then upper class_name +:+ "_" +:+ sec else sec.

Definition format_resource (num : nat) (name : json) (title fmt : string)
  : string :=
  let title := if truthy title then "_" +:+ title else title in
  fmt_02d num +:+ "_" +:+ py_str name +:+ title +:+ "." +:+ fmt.

Definition format_combine_number_resource (secnum lecnum : nat)
    (lecname : json) (title fmt : string) : string :=
  let title := if truthy title then "_" +:+ title else title in
  fmt_02d secnum +:+ "_" +:+ fmt_02d lecnum +:+ "_" +:+ py_str lecname
    +:+ title +:+ "." +:+ fmt.

End Namer.

(** ** Resource selector: [find_resources_to_get] *)

(** Lines 292-294: the format a key is filtered by. *)
Definition key_extension (fmt : string) : string :=
  if contains_char "." fmt then nth 1 (split "." fmt) fmt else fmt.

Section Selector.
Context `{Collaborators}.

(** Line 301: the resource is skipped because of the resource filter. *)
Definition filtered_out (resource_filter : option string) (title : string)
  : bool :=
  match resource_filter with
  | Some pattern =>
      truthy pattern && truthy title && negb (re_search pattern title)
  | None => false
  end.

Definition find_resources_to_get (lecture : lecture_content)
    (file_formats : list string) (resource_filter : option string)
    (ignored_formats : option (list string))
  : list (string * json * string) :=
  let ignored_formats := default [] ignored_formats in
  fold_left
    (fun resources_to_get item =>
       let '(fmt0, resources) := item in
       let fmt := key_extension fmt0 in
       if bool_decide (fmt ∈ ignored_formats) then resources_to_get
       else if bool_decide (fmt ∈ file_formats)
               || bool_decide ("all" ∈ file_formats)
       then fold_left
              (fun resources_to_get (r : resource) =>
                 if filtered_out resource_filter (snd r)
                 then resources_to_get
                 else resources_to_get ++ [(fmt0, fst r, snd r)])
              resources resources_to_get
       else resources_to_get)
    lecture [].

End Selector.

(** ** Download orchestrator: [download_lectures] *)

(** The keyword arguments of [download_lectures]. *)
Record options : Type := Options {
  file_formats : list string;
  overwrite : bool;
  skip_download : bool;
  section_filter : option string;
  lecture_filter : option string;
  resource_filter : option string;
  path : string;
  verbose_dirs : bool;
  preview : bool;
  combined_section_lectures_nums : bool;
  hooks : list string;
  playlist : bool;
  intact_fnames : bool;
  ignored_formats : option (list string);
  resume : bool
}.

Section Orchestrator.
Context `{Collaborators}.
Variable o : options.

(** [filter and not re.search(filter, name)] *)
Definition fails_filter (filter : option string) (name : json) : result bool :=
  match filter with
  | Some pattern =>
      if truthy pattern
      then try found <- re_search_value pattern name ;; Ok (negb found)
      else Ok false
  | None => Ok false
  end.

(** Line 374: [overwrite or not os.path.exists(lecfn) or resume]. *)
Definition must_write (lecfn : string) : M bool :=
  if overwrite o then ret true
  else do present <- path_exists lecfn ;;
       if negb present then ret true else ret (resume o).

(** Lines 365-372: the file a selected resource is written to. *)
Definition lecfn_of (sec : string) (secnum lecnum : nat) (lecname : json)
    (title fmt : string) : string :=
  if combined_section_lectures_nums o
  then path_join sec [format_combine_number_resource
                        (secnum + 1) (lecnum + 1) lecname title fmt]
  else path_join sec [format_resource (lecnum + 1) lecname title fmt].

(** Lines 363-385: the body of [for fmt, url, title in resources_to_get]. *)
Definition write_resource (sec : string) (secnum lecnum : nat)
    (lecname : json) (target : string * json * string) (last_update : Z)
  : M Z :=
  let '(fmt, url, title) := target in
  let lecfn := lecfn_of sec secnum lecnum lecname title fmt in
  do go <- must_write lecfn ;;
  if go then
    (if negb (skip_download o)
     then downloader_download url lecfn (resume o)
     else touch lecfn) ;;;
    time_time
  else
    do m <- getmtime lecfn ;;
    ret (Z.max last_update m).

(** Lines 347-385: the body of [for (lecnum, (lecname, lecture)) in ...]. *)
Definition download_lecture (sec : string) (secnum : nat)
    (item : nat * lecture_entry) (last_update : Z) : M Z :=
  let '(lecnum, (lecname, lecture)) := item in
  do skip <- lift (fails_filter (lecture_filter o) lecname) ;;
  if skip then ret last_update
  else
    do present <- path_exists sec ;;
    (if negb present then mkdir_p sec else ret tt) ;;;
    let resources_to_get :=
      find_resources_to_get lecture (file_formats o) (resource_filter o)
                            (ignored_formats o) in
    for_each resources_to_get (write_resource sec secnum lecnum lecname)
             last_update.

Definition section_dir (class_name : string) (secnum : nat) (section : json)
  : string :=
  path_join (path o)
            [class_name;
             format_section (secnum + 1) section class_name (verbose_dirs o)].

(** Lines 339-407: the body of [for (secnum, (section, lectures)) in ...]. *)
Definition download_section (class_name : string)
    (item : nat * section_entry) (last_update : Z) : M Z :=
  let '(secnum, (section, lectures)) := item in
  do skip <- lift (fails_filter (section_filter o) section) ;;
  if skip then ret last_update
  else
    let sec := section_dir class_name secnum section in
    do last_update <-
      for_each (enumerate lectures) (download_lecture sec secnum)
               last_update ;;
    (if playlist o
     then emit (Playlist sec) ;;; external (write_playlists sec)
     else ret tt) ;;;
    (if nonempty (hooks o)
     then for_each (hooks o)
            (fun hook _ => emit (Hook hook sec) ;;;
                           external (call_hook hook sec)) tt
     else ret tt) ;;;
    ret last_update.

(** The loop of [download_lectures], which computes [last_update]. *)
Definition latest_activity (class_name : string)
    (sections : list section_entry) : M Z :=
  for_each (enumerate sections) (download_section class_name) (-1).

Definition download_lectures (class_name : string)
    (sections : list section_entry) : M bool :=
  do last_update <- latest_activity class_name sections ;;
  is_course_complete last_update.

End Orchestrator.

(** ** Driver: [download_on_demand_class] and [download_class] *)

(** The fields of the parsed command line that the driver reads. *)
Record args : Type := Args {
  args_username : option string;
  args_password : option string;
  args_path : string;
  args_subtitle_language : string;
  args_file_formats : list string;
  args_ignore_formats : option string;
  args_section_filter : option string;
  args_lecture_filter : option string;
  args_resource_filter : option string;
  args_video_resolution : string;
  args_resume : bool;
  args_overwrite : bool;
  args_verbose_dirs : bool;
  args_reverse : bool;
  args_combined_section_lectures_nums : bool;
  args_intact_fnames : bool;
  args_hooks : list string;
  args_playlist : bool;
  args_skip_download : bool;
  args_preview : bool
}.

Section Driver.
Context `{Collaborators}.

Definition get_on_demand_syllabus (class_name : string) : M string :=
  get_page (OPENCOURSE_CONTENT_URL class_name).

(** Lines 756-758. *)
Definition ignored_formats_of (a : args) : list string :=
  match args_ignore_formats a with
  | Some s => if truthy s then split "," s else []
  | None => []
  end.

(** The arguments lines 775-794 hand to [download_lectures]. *)
Definition options_of (a : args) (class_name : string) : options :=
  {| file_formats := args_file_formats a;
     overwrite := args_overwrite a;
     skip_download := args_skip_download a;
     section_filter := args_section_filter a;
     lecture_filter := args_lecture_filter a;
     resource_filter := args_resource_filter a;
     path := path_join (args_path a) [class_name];
     verbose_dirs := args_verbose_dirs a;
     preview := args_preview a;
     combined_section_lectures_nums := args_combined_section_lectures_nums a;
     hooks := args_hooks a;
     playlist := args_playlist a;
     intact_fnames := args_intact_fnames a;
     ignored_formats := Some (ignored_formats_of a);
     resume := args_resume a |}.

(** Lines 770-797: the loop over the parsed modules. *)
Definition download_modules (a : args) (class_name : string)
    (modules : list module_entry) : M bool :=
  for_each (enumerate modules)
    (fun (item : nat * module_entry) completed =>
       let '(idx, module) := item in
       let module_name := fmt_02d (idx + 1) +:+ "_" +:+ py_str (fst module) in
       let sections := snd module in
       do result <- download_lectures (options_of a class_name)
                                      module_name sections ;;
       ret (completed && result))
    true.

Definition download_on_demand_class (a : args) (class_name : string)
  : M bool :=
  lift (login (args_username a) (args_password a)) ;;;
  do page <- get_on_demand_syllabus class_name ;;
  do modules <-
    parse_on_demand_syllabus page (args_reverse a) (args_intact_fnames a)
      (args_subtitle_language a) (args_video_resolution a) ;;
  download_modules a class_name modules.

Definition download_class (a : args) (class_name : string) : M bool :=
  download_on_demand_class a class_name.

End Driver.

(** ** A concrete platform, for running the model *)

Module Demo.

Definition absolute (u : json) : result json :=
  match u with
  | JStr s => Ok (JStr (if starts_with_sep s
                        then "https://www.coursera.org" +:+ s else s))
  | _ => Raise AttributeError
  end.

(** A downloader that writes the file and stamps it with the current time. *)
Definition fetch (url : json) (p : string) (resume : bool) : fs_action :=
  fun t files => (Ok tt, <[p := Node false t]> files).

Definition idle : fs_action := fun _ files => (Ok tt, files).

(** A platform that serves the documents of [pages] (a missing page is a
    404, a page bound to [None] is not JSON), matches filters as plain
    substrings and reads the time [time_at n] at the n-th clock reading. *)
Definition platform (pages : dict (option json)) (time_at : nat -> Z)
  : Collaborators :=
  {| session_get url :=
       match dict_get pages url with
       | Some _ => Ok url
       | None => Raise HTTPError
       end;
     json_loads page :=
       match dict_get pages page with
       | Some (Some doc) => Ok doc
       | _ => Raise ValueError
       end;
     OPENCOURSE_VIDEO_URL video_id :=
       "video/" +:+ match video_id with JStr s => s | _ => "" end;
     OPENCOURSE_CONTENT_URL class_name := "course/" +:+ class_name;
     make_coursera_absolute_url := absolute;
     login _ _ := Ok tt;
     re_search pattern text := is_substring pattern text;
     str_other _ := "";
     clock := time_at;
     download := fetch;
     write_playlists _ := idle;
     call_hook _ _ := idle |}.

Definition video (resolution url : string) (subtitles : list (string * json))
  : json :=
  JObj [("sources",
         JArr [JObj [("resolution", JStr resolution);
                     ("formatSources", JObj [("video/mp4", JStr url)])]]);
        ("subtitles", JObj subtitles)].

Definition item (slug type_name video_id : string) : json :=
  JObj [("slug", JStr slug);
        ("content",
         JObj [("typeName", JStr type_name);
               ("definition", JObj [("videoId", JStr video_id)])])].

Definition group (slug : string) (elements : list json) : json :=
  JObj [("slug", JStr slug); ("elements", JArr elements)].

Definition course (modules : list json) : json :=
  JObj [("courseMaterial", JObj [("elements", JArr modules)])].

Definition start : world := World ∅ 0 [].

Definition default_args : args :=
  {| args_username := None;
     args_password := None;
     args_path := "";
     args_subtitle_language := "all";
     args_file_formats := ["all"];
     args_ignore_formats := None;
     args_section_filter := None;
     args_lecture_filter := None;
     args_resource_filter := None;
     args_video_resolution := "540p";
     args_resume := false;
     args_overwrite := false;
     args_verbose_dirs := false;
     args_reverse := false;
     args_combined_section_lectures_nums := false;
     args_intact_fnames := false;
     args_hooks := [];
     args_playlist := false;
     args_skip_download := false;
     args_preview := false |}.

End Demo.


(** ** Vocabulary of the properties *)

Section Vocabulary.
Context `{Collaborators}.

(** What one key of the lecture contributes. *)
Definition selected_of (file_formats : list string)
    (resource_filter : option string) (ignored : list string)
    (item : string * list resource) : list (string * json * string) :=
  let ext := key_extension (fst item) in
  if bool_decide (ext ∈ ignored) then []
  else if bool_decide (ext ∈ file_formats)
          || bool_decide ("all" ∈ file_formats)
  then flat_map (fun r : resource =>
                   if filtered_out resource_filter (snd r) then []
                   else [(fst item, fst r, snd r)]) (snd item)
  else [].

(** The file names the default scheme (line 372) gives to the resources the
    selector returned for the lecture with index [lecnum]. *)
Definition default_names (lecnum : nat) (lecname : json)
    (targets : list (string * json * string)) : list string :=
  map (fun target : string * json * string =>
         let '(fmt, _, title) := target in
         format_resource (lecnum + 1) lecname title fmt)
      targets.

(** Every resource sequence of the lecture is one pair with an empty title,
    and there is at least one. *)
Definition lecture_shape (l : lecture_entry) : Prop :=
  snd l <> [] /\
  forall k rs, (k, rs) ∈ snd l -> exists url : json, rs = [(url, "")].

Definition section_shape (s : section_entry) : Prop :=
  snd s <> [] /\ Forall lecture_shape (snd s).

Definition module_shape (m : module_entry) : Prop :=
  snd m <> [] /\ Forall section_shape (snd m).

(** No lecture without a resource, no section without a lecture, no module
    without a section. *)
Definition pruned (tree : list module_entry) : Prop :=
  forall m, m ∈ tree ->
    snd m <> [] /\
    forall s, s ∈ snd m ->
      snd s <> [] /\
      forall l, l ∈ snd s ->
        snd l <> [] /\ forall k rs, (k, rs) ∈ snd l -> rs <> [].

(** [x['elements']] as a list, empty when the document has no such list. *)
Definition elements (x : json) : list json :=
  match (try e <- getitem x "elements" ;; py_iter e) with
  | Ok l => l
  | Raise _ => []
  end.




(** Every event a computation adds to the log satisfies [P], whether it
    returns or raises. *)
Definition emits {A} (P : event -> Prop) (m : M A) : Prop :=
  forall w r w', m w = (r, w') ->
                 exists evs, log w' = log w ++ evs /\ Forall P evs.

(** The name passes the filter: line 340 or 348 does not skip it. *)
Definition survives (filter : option string) (name : json) : Prop :=
  fails_filter filter name = Ok false.

(** The event is the creation of [sec], or no directory creation at all. *)
Definition creates_only (sec : string) (e : event) : Prop :=
  forall p, e = Mkdir p -> p = sec.

(** The section has a lecture that passes the lecture filter. *)
Definition has_surviving_lecture (o : options) (lectures : list lecture_entry)
  : Prop :=
  exists lecture, lecture ∈ lectures /\
                  survives (lecture_filter o) (fst lecture).

(** A directory creation belongs to a section of the list that passes the
    section filter and has a lecture passing the lecture filter. *)
Definition creation_justified (o : options) (class_name : string)
    (sections : list section_entry) (e : event) : Prop :=
  forall p, e = Mkdir p ->
    exists secnum section lectures,
      (secnum, (section, lectures)) ∈ enumerate sections /\
      p = section_dir o class_name secnum section /\
      survives (section_filter o) section /\
      has_surviving_lecture o lectures.

(** Started in [w], the computation logs [e] before anything else, whether
    it then returns or raises. *)
Definition opens {A} (e : event) (m : M A) (w : world) : Prop :=
  forall r w', m w = (r, w') -> exists evs, log w' = log w ++ e :: evs.

Definition is_write (e : event) : bool :=
  match e with
  | Download _ _ _ | Touch _ => true
  | _ => false
  end.

(** The estimator as a function of the evaluation time. *)
Definition estimate (evaluation_time last_update : Z) : bool :=
  (0 <=? last_update) && (30 * 24 * 3600 <? evaluation_time - last_update).







End Vocabulary.

(** ** Concrete inputs *)

Module Cases.

(** A platform with no pages and a clock stopped at 0. *)
Definition offline : Collaborators := Demo.platform [] (fun _ => 0).

Definition pdf_lecture : lecture_content :=
  [("pdf", [(JStr "http://x/a.pdf", "")])].

Definition intro_lecture : lecture_content :=
  [("mp4", [(JStr "http://x/a.mp4", "")]);
   ("en.srt", [(JStr "http://x/a.srt", "")])].

(** Accept every format, filter nothing, write placeholders below "out". *)
Definition placeholder_options : options :=
  {| file_formats := ["all"];
     overwrite := false;
     skip_download := true;
     section_filter := None;
     lecture_filter := None;
     resource_filter := None;
     path := "out";
     verbose_dirs := false;
     preview := false;
     combined_section_lectures_nums := false;
     hooks := [];
     playlist := false;
     intact_fnames := false;
     ignored_formats := None;
     resume := false |}.

(** A course of two modules; the first lecture has French and English
    subtitles, the quiz is not a lecture. *)
Definition two_modules : dict (option json) :=
  [("course/c",
    Some (Demo.course
            [Demo.group "m1"
               [Demo.group "week1"
                  [Demo.item "intro" "lecture" "v1";
                   Demo.item "quiz" "exam" "v9"]];
             Demo.group "m2"
               [Demo.group "week2" [Demo.item "two" "lecture" "v2"]]]));
   ("video/v1",
    Some (Demo.video "540p" "http://x/v.mp4"
            [("fr", JStr "/fr.srt"); ("en", JStr "/en.srt")]));
   ("video/v2", Some (Demo.video "360p" "http://x/2.mp4" []))].

Definition online : Collaborators :=
  Demo.platform two_modules (fun n => 1000 + Z.of_nat n).

(** A video with English and German subtitles. *)
Definition english_german : dict (option json) :=
  [("video/v3",
    Some (Demo.video "540p" "http://x/3.mp4"
            [("en", JStr "http://x/u1"); ("de", JStr "http://x/u2")]))].

Definition bilingual : Collaborators :=
  Demo.platform english_german (fun _ => 0).

(** A course whose first lecture has a metadata page that is not JSON. *)
Definition one_bad_page : dict (option json) :=
  [("course/c",
    Some (Demo.course
            [Demo.group "m1"
               [Demo.group "week1"
                  [Demo.item "bad" "lecture" "v0";
                   Demo.item "intro" "lecture" "v1"]]]));
   ("video/v0", None);
   ("video/v1", Some (Demo.video "540p" "http://x/v.mp4" []))].

Definition broken : Collaborators :=
  Demo.platform one_bad_page (fun n => 1000 + Z.of_nat n).

(** One section with one lecture that has a video only. *)
Definition week01 : list section_entry :=
  [(JStr "week01", [(JStr "intro", [("mp4", [(JStr "http://x/a.mp4", "")])])])].

(** Only pdf files are wanted. *)
Definition pdf_only : options :=
  {| file_formats := ["pdf"];
     overwrite := false;
     skip_download := false;
     section_filter := None;
     lecture_filter := None;
     resource_filter := None;
     path := "out";
     verbose_dirs := false;
     preview := false;
     combined_section_lectures_nums := false;
     hooks := [];
     playlist := false;
     intact_fnames := false;
     ignored_formats := None;
     resume := false |}.

(** The run is made a hundred days after the epoch. *)
Definition hundred_days : Z := 100 * 24 * 3600.

Definition later : Collaborators :=
  Demo.platform two_modules (fun _ => hundred_days).

(** The video of the first module was downloaded at time 0. *)
Definition downloaded : world :=
  World (<["c/01_m1/01_week1" := Node true 0]>
           (<["c/01_m1/01_week1/01_intro.mp4" := Node false 0]> ∅))
        0 [].

(** Videos only, and only the sections whose name contains "week1". *)
Definition week1_videos : args :=
  {| args_username := None;
     args_password := None;
     args_path := "";
     args_subtitle_language := "all";
     args_file_formats := ["mp4"];
     args_ignore_formats := None;
     args_section_filter := Some "week1";
     args_lecture_filter := None;
     args_resource_filter := None;
     args_video_resolution := "540p";
     args_resume := false;
     args_overwrite := false;
     args_verbose_dirs := false;
     args_reverse := false;
     args_combined_section_lectures_nums := false;
     args_intact_fnames := false;
     args_hooks := [];
     args_playlist := false;
     args_skip_download := false;
     args_preview := false |}.

End Cases.

From Stdlib Require DecimalNat.
From Stdlib Require Import Sorted.

(** ** Further code: the course loop of [main] *)

(** Lines 829-834: the exceptions the loop of [main] catches. *)
Definition handled (e : exn) : bool :=
  match e with
  | HTTPError | ClassNotFound | AuthenticationFailed => true
  | _ => false
  end.

Section Main.
Context `{Collaborators}.

(** Lines 825-834: the body of [for class_name in args.class_names], with
    its [try] and the three [except] clauses, which only log. *)
Definition try_class (a : args) (class_name : string)
    (completed_classes : list string) : M (list string) :=
  fun w =>
    match download_class a class_name w with
    | (Ok completed, w') =>
        (Ok (if completed then completed_classes ++ [class_name]
             else completed_classes), w')
    | (Raise e, w') =>
        if handled e then (Ok completed_classes, w') else (Raise e, w')
    end.

(** Lines 814 and 824-834 of [main]: the loop over the class names; it
    returns [completed_classes]. *)
Definition main_loop (a : args) (class_names : list string)
  : M (list string) :=
  for_each class_names (try_class a) [].

End Main.

(** ** Further vocabulary *)

(** [int(s)] for a string of decimal digits. *)
Definition int_of (s : string) : option nat :=
  option_map Nat.of_uint (NilEmpty.uint_of_string s).

Fixpoint all_digits (s : string) : bool :=
  match s with
  | EmptyString => true
  | String a s' =>
      (let n := nat_of_ascii a in (48 <=? n) && (n <=? 57))%nat
      && all_digits s'
  end.

(** The order [sources.sort] uses on items paired with their keys: [a] does
    not come after [b]. *)
Definition not_after (a b : json * json) : Prop :=
  py_lt (fst b) (fst a) = Ok false.

(** [src['resolution']] and [src['formatSources']['video/mp4']]. *)
Definition resolution_of (src : json) : result json :=
  getitem src "resolution".

Definition video_url_of (src : json) : result json :=
  try fs <- getitem src "formatSources" ;; getitem fs "video/mp4".

(** [src['resolution'] == resolution] *)
Definition has_resolution (resolution : string) (src : json) : Prop :=
  exists r, resolution_of src = Ok r /\ eq_str r resolution = true.

(** No source of the list has a resolution that sorts after the one of
    [src]. *)
Definition highest (srcs : list json) (src : json) : Prop :=
  forall s k k', s ∈ srcs -> resolution_of src = Ok k ->
                 resolution_of s = Ok k' -> py_lt k k' <> Ok true.

Definition is_warning (e : event) : bool :=
  match e with
  | Warn_resolution _ _ | Warn_fallback _ _ _ => true
  | _ => false
  end.

(** The computation leaves the file system and the clock alone and logs
    nothing but events satisfying [P], whether it returns or raises. *)
Definition quiet {A} (P : event -> Prop) (m : M A) : Prop :=
  forall w r w', m w = (r, w') ->
    fs w' = fs w /\ ticks w' = ticks w /\
    exists evs, log w' = log w ++ evs /\ Forall P evs.

Section LocatorVocabulary.
Context `{Collaborators}.

(** Lines 134-135: the body of [for current_subtitle_language in
    subtitles]. *)
Definition add_language (subtitles : json) (subtitle_extension : string)
    (current_subtitle_language : json) (video_content : dict json)
  : M (dict json) :=
  do u <- lift (py_get subtitles current_subtitle_language) ;;
  do absolute <- lift (make_coursera_absolute_url u) ;;
  do key <- lift (concat_key current_subtitle_language subtitle_extension) ;;
  ret (dict_set video_content key absolute).

End LocatorVocabulary.

(** Lines 220-222: the resources of a lecture, from what the locator
    returned. *)
Definition lecture_content_of (video_content : dict json) : lecture_content :=
  fold_left (fun acc kv => dict_set acc (fst kv) [(snd kv, "")])
            video_content [].

(** [lecture['content']['typeName']] *)
Definition type_name_of (lecture : json) : result json :=
  try c <- getitem lecture "content" ;; getitem c "typeName".

Section TargetVocabulary.
Context `{Collaborators}.

(** Lines 357-372: the files of the targets of one lecture, in the order
    they are written. *)
Definition lecture_files (o : options) (sec : string) (secnum lecnum : nat)
    (lecture : lecture_entry) : list string :=
  map (fun target : string * json * string =>
         let '(fmt, _, title) := target in
         lecfn_of o sec secnum lecnum (fst lecture) title fmt)
      (find_resources_to_get (snd lecture) (file_formats o)
         (resource_filter o) (ignored_formats o)).

End TargetVocabulary.

(** What the parser attaches to a lecture: distinct keys, one untitled
    resource each, the video among them. *)
Definition attached (l : lecture_entry) : Prop :=
  NoDup (map fst (snd l)) /\
  (forall k rs, (k, rs) ∈ snd l -> exists url : json, rs = [(url, "")]) /\
  exists url : json, dict_get (snd l) "mp4" = Some [(url, "")].

(** The value a computation returned, or [d] when it raised. *)
Definition value_or {A} (d : A) (r : result A) : A :=
  match r with Ok a => a | Raise _ => d end.

Module MoreCases.

(** The first lecture of [Cases.two_modules], parsed with selector "en". *)
Definition parsed_intro : result (list lecture_entry) * world :=
  @parse_lecture Cases.online "en" "540p" (Demo.item "intro" "lecture" "v1")
    [] Demo.start.

(** The first module of [Cases.two_modules] as [download_on_demand_class]
    hands it to [download_lectures], videos only. *)
Definition week1_options : options :=
  options_of Cases.week1_videos "c".

(** The same options with [resume] set. *)
Definition options_of_resume (o : options) : options :=
  {| file_formats := file_formats o;
     overwrite := overwrite o;
     skip_download := skip_download o;
     section_filter := section_filter o;
     lecture_filter := lecture_filter o;
     resource_filter := resource_filter o;
     path := path o;
     verbose_dirs := verbose_dirs o;
     preview := preview o;
     combined_section_lectures_nums := combined_section_lectures_nums o;
     hooks := hooks o;
     playlist := playlist o;
     intact_fnames := intact_fnames o;
     ignored_formats := ignored_formats o;
     resume := true |}.

Definition week1 : list section_entry :=
  [(JStr "week1", [(JStr "intro", [("mp4", [(JStr "http://x/v.mp4", "")])])])].





(** The metadata of a video that has no subtitle entry of either kind. *)
Definition bare_video : json :=
  JObj [("sources",
         JArr [JObj [("resolution", JStr "540p");
                     ("formatSources",
                      JObj [("video/mp4", JStr "http://x/v.mp4")])]])].

(** A platform that serves that video only. *)
Definition silent : Collaborators :=
  Demo.platform [("video/v1", Some bare_video)] (fun _ => 0%Z).

End MoreCases.

Section RunVocabulary.
Context `{Collaborators}.

(** The files of the targets of a lecture the lecture filter lets through. *)
Definition lecture_targets (o : options) (sec : string) (secnum : nat)
    (item : nat * lecture_entry) : list string :=
  match fails_filter (lecture_filter o) (fst (snd item)) with
  | Ok false => lecture_files o sec secnum (fst item) (snd item)
  | _ => []
  end.

(** The files of the targets of a section the section filter lets
    through. *)
Definition section_targets (o : options) (class_name : string)
    (item : nat * section_entry) : list string :=
  match fails_filter (section_filter o) (fst (snd item)) with
  | Ok false =>
      flat_map (lecture_targets o
                  (section_dir o class_name (fst item) (fst (snd item)))
                  (fst item))
               (enumerate (snd (snd item)))
  | _ => []
  end.

(** The files of all the targets of a call of [download_lectures], in the
    order the loops reach them. *)
Definition run_targets (o : options) (class_name : string)
    (sections : list section_entry) : list string :=
  flat_map (section_targets o class_name) (enumerate sections).

(** No filter raises on a slug of the sections. *)
Definition filters_apply (o : options) (sections : list section_entry)
  : Prop :=
  forall section, section ∈ sections ->
    is_ok (fails_filter (section_filter o) (fst section)) = true /\
    forall lecture, lecture ∈ snd section ->
      is_ok (fails_filter (lecture_filter o) (fst lecture)) = true.

(** The directory of every section that has something to look at exists. *)
Definition directories_present (o : options) (class_name : string)
    (sections : list section_entry) (w : world) : Prop :=
  forall secnum section lectures,
    (secnum, (section, lectures)) ∈ enumerate sections ->
    survives (section_filter o) section ->
    has_surviving_lecture o lectures ->
    is_Some (fs w !! section_dir o class_name secnum section).

End RunVocabulary.

(** [os.path.getmtime] of each file, 0 standing for a missing one. *)
Definition mtimes (w : world) (files : list string) : list Z :=
  map (fun p => match fs w !! p with Some n => mtime n | None => 0 end) files.

(** A write the options and the target files allow: a download only without
    skip_download, with the resume flag of the options, a placeholder only
    with skip_download, and in both cases on one of the files. *)
Definition write_allowed (o : options) (files : list string) (e : event)
  : Prop :=
  match e with
  | Download _ p r =>
      skip_download o = false /\ r = resume o /\ p ∈ files
  | Touch p => skip_download o = true /\ p ∈ files
  | _ => True
  end.

(** Every resource of the lecture with its key, keys in iteration order. *)
Definition all_resources (lecture : lecture_content)
  : list (string * json * string) :=
  flat_map (fun item : string * list resource =>
              map (fun r : resource => (fst item, fst r, snd r)) (snd item))
           lecture.

(** The files a run wrote or started to write, from its events. *)
Definition written (evs : list event) : list string :=
  flat_map (fun e => match e with
                     | Download _ p _ | Touch p => [p]
                     | _ => []
                     end) evs.

(** When the computation returns, the files it wrote, in order, are
    [files]. *)
Definition writes_exactly {A} (files : list string) (m : M A) : Prop :=
  forall w a w', m w = (Ok a, w') ->
                 exists evs, log w' = log w ++ evs /\ written evs = files.

(** ** Playlists and hooks *)


Section ClosingVocabulary.
Context `{Collaborators}.


End ClosingVocabulary.

(** * Properties *)

(** ** Facts about the monad and its loops *)

Lemma bind_ok {A B} (m : M A) (k : A -> M B) w b w' :
  bind m k w = (Ok b, w') ->
  exists a w1, m w = (Ok a, w1) /\ k a w1 = (Ok b, w').
Proof.
  unfold bind. destruct (m w) as [[a|e] w1]; intros Hk.
  - exists a, w1. split; [reflexivity | exact Hk].
  - discriminate Hk.
Qed.

Lemma bind_step {A B} (m : M A) (k : A -> M B) w a w1 :
  m w = (Ok a, w1) -> bind m k w = k a w1.
Proof. intros Hm. unfold bind. rewrite Hm. reflexivity. Qed.


Lemma lift_ok {A} (r : result A) w a w' :
  lift r w = (Ok a, w') -> r = Ok a /\ w' = w.
Proof. unfold lift. intros [= -> ->]. split; reflexivity. Qed.

Lemma res_bind_ok {A B} (r : result A) (k : A -> result B) b :
  Res.bind r k = Ok b -> exists a, r = Ok a /\ k a = Ok b.
Proof. destruct r as [a|e]; simpl; [eauto | discriminate]. Qed.

(** A loop that returns has kept every invariant its body keeps. *)
Lemma for_each_invariant {A S} (P : S -> Prop) (body : A -> S -> M S) l :
  (forall x acc w acc' w',
      x ∈ l -> P acc -> body x acc w = (Ok acc', w') -> P acc') ->
  forall acc w r w',
    P acc -> for_each l body acc w = (Ok r, w') -> P r.
Proof.
  induction l as [|x l IH]; intros Hbody acc w r w' Hacc Hrun.
  - simpl in Hrun. injection Hrun as <- _. exact Hacc.
  - simpl in Hrun. apply bind_ok in Hrun as (acc1 & w1 & Hx & Hrest).
    eapply IH; [ | | exact Hrest].
    + intros y a v a' v' Hy. apply Hbody. right. exact Hy.
    + eapply Hbody; [left | exact Hacc | exact Hx].
Qed.


(** ** Completion estimator *)

Lemma thirty_days : total_seconds (timedelta_of_days 30) = 30 * 24 * 3600.
Proof. reflexivity. Qed.

(** C3. For every evaluation time (the clock value [now w] that
    [time.time()] returns) and every latest-activity value, the estimator
    returns without raising, and it answers "complete" exactly when the
    value is non-negative and strictly more than 30 days older than the
    evaluation time; on the sentinel -1 it answers "incomplete". *)
Theorem is_course_complete_iff `{Collaborators} (last_update : Z) (w : world) :
  (exists rv w',
      is_course_complete last_update w = (Ok rv, w') /\
      (rv = true <->
       0 <= last_update /\ now w - last_update > 30 * 24 * 3600)) /\
  fst (is_course_complete (-1) w) = Ok false.
Proof.
  split; [ | reflexivity].
  unfold is_course_complete. rewrite thirty_days.
  destruct (0 <=? last_update) eqn:Hsign.
  - apply Z.leb_le in Hsign.
    rewrite (bind_step _ _ w (now w) (World (fs w) (S (ticks w)) (log w)))
      by reflexivity.
    destruct (30 * 24 * 3600 <? now w - last_update) eqn:Hold.
    + apply Z.ltb_lt in Hold. eexists _, _. split; [reflexivity | ].
      split; [intros _; lia | reflexivity].
    + apply Z.ltb_ge in Hold. eexists _, _. split; [reflexivity | ].
      split; [discriminate | lia].
  - apply Z.leb_gt in Hsign. eexists _, _. split; [reflexivity | ].
    split; [discriminate | lia].
Qed.

(** ** Resource selector *)

Section SelectorFacts.
Context `{Collaborators}.

Lemma inner_loop_flat (rf : option string) (fmt0 : string)
    (resources : list resource) (acc : list (string * json * string)) :
  fold_left
    (fun resources_to_get (r : resource) =>
       if filtered_out rf (snd r) then resources_to_get
       else resources_to_get ++ [(fmt0, fst r, snd r)])
    resources acc
  = acc ++ flat_map (fun r : resource =>
                       if filtered_out rf (snd r) then []
                       else [(fmt0, fst r, snd r)]) resources.
Proof.
  revert acc. induction resources as [|r rs IH]; intros acc; simpl.
  - symmetry. apply app_nil_r.
  - rewrite IH. destruct (filtered_out rf (snd r)); simpl.
    + reflexivity.
    + rewrite <- app_assoc. reflexivity.
Qed.

Lemma outer_loop_flat (F : list string) (rf : option string)
    (ignored : list string) (lecture : lecture_content)
    (acc : list (string * json * string)) :
  fold_left
    (fun resources_to_get (item : string * list resource) =>
       let '(fmt0, resources) := item in
       let fmt := key_extension fmt0 in
       if bool_decide (fmt ∈ ignored) then resources_to_get
       else if bool_decide (fmt ∈ F) || bool_decide ("all" ∈ F)
       then fold_left
              (fun resources_to_get (r : resource) =>
                 if filtered_out rf (snd r) then resources_to_get
                 else resources_to_get ++ [(fmt0, fst r, snd r)])
              resources resources_to_get
       else resources_to_get)
    lecture acc
  = acc ++ flat_map (selected_of F rf ignored) lecture.
Proof.
  revert acc. induction lecture as [|[fmt0 resources] rest IH]; intros acc.
  - symmetry. apply app_nil_r.
  - cbn [fold_left flat_map]. rewrite IH. unfold selected_of at 2.
    cbn [fst snd].
    destruct (bool_decide (key_extension fmt0 ∈ ignored)).
    + reflexivity.
    + destruct (bool_decide (key_extension fmt0 ∈ F)
                || bool_decide ("all" ∈ F)).
      * rewrite inner_loop_flat, <- app_assoc. reflexivity.
      * reflexivity.
Qed.

(** The selector visits the keys in order and appends what each one
    contributes. *)
Lemma find_resources_to_get_flat lecture F rf ign :
  find_resources_to_get lecture F rf ign
  = flat_map (selected_of F rf (default [] ign)) lecture.
Proof.
  unfold find_resources_to_get. rewrite outer_loop_flat. reflexivity.
Qed.

Lemma filtered_out_true rf title :
  filtered_out rf title = true <->
  exists pattern, rf = Some pattern /\ pattern <> "" /\ title <> "" /\
                  re_search pattern title = false.
Proof.
  unfold filtered_out, truthy. split.
  - destruct rf as [pattern|]; [ | discriminate].
    intros Hf. apply andb_prop in Hf as [Hf Hmatch].
    apply andb_prop in Hf as [Hp Ht].
    exists pattern. repeat split.
    + intros ->. discriminate Hp.
    + intros ->. discriminate Ht.
    + destruct (re_search pattern title); [discriminate | reflexivity].
  - intros (pattern & -> & Hp & Ht & Hmatch). rewrite Hmatch.
    apply String.eqb_neq in Hp, Ht. rewrite Hp, Ht. reflexivity.
Qed.

End SelectorFacts.

(** C1, as amended. A resource appears in the selector's output exactly when
    it belongs to a key of the lecture whose extension (the second
    dot-separated piece of the key, or the key itself when it has no dot) is
    not ignored and is accepted, where accepted means that the extension is
    in the accepted formats or that "all" is one of the accepted formats; and
    the resource is not dropped by the title filter, which happens only when
    a non-empty filter is supplied, the title is non-empty and the title does
    not match. *)
Theorem find_resources_to_get_iff `{Collaborators}
    (lecture : lecture_content) (F : list string) (rf : option string)
    (ign : option (list string)) (fmt0 : string) (url : json)
    (title : string) :
  (fmt0, url, title) ∈ find_resources_to_get lecture F rf ign <->
  exists resources,
    (fmt0, resources) ∈ lecture /\ (url, title) ∈ resources /\
    (key_extension fmt0 ∈ F \/ "all" ∈ F) /\
    ~ key_extension fmt0 ∈ default [] ign /\
    ~ (exists pattern, rf = Some pattern /\ pattern <> "" /\ title <> "" /\
                       re_search pattern title = false).
Proof.
  rewrite find_resources_to_get_flat, list_elem_of_In, in_flat_map.
  setoid_rewrite <- filtered_out_true.
  split.
  - intros ([k resources] & Hitem & Hsel). unfold selected_of in Hsel.
    simpl in Hsel.
    destruct (bool_decide (key_extension k ∈ default [] ign)) eqn:Hign;
      [destruct Hsel | ].
    destruct (bool_decide (key_extension k ∈ F) || bool_decide ("all" ∈ F))
      eqn:Hacc; [ | destruct Hsel].
    apply in_flat_map in Hsel as ([u t] & Hr & Hkeep). simpl in Hkeep.
    destruct (filtered_out rf t) eqn:Hdrop; [destruct Hkeep | ].
    destruct Hkeep as [[= <- <- <-] | []].
    exists resources. repeat split.
    + apply list_elem_of_In. exact Hitem.
    + apply list_elem_of_In. exact Hr.
    + apply orb_prop in Hacc as [Hacc | Hacc];
        apply bool_decide_eq_true in Hacc; [left | right]; exact Hacc.
    + apply bool_decide_eq_false in Hign. exact Hign.
    + rewrite Hdrop. discriminate.
  - intros (resources & Hitem & Hr & Hacc & Hign & Hkeep).
    exists (fmt0, resources). split; [apply list_elem_of_In; exact Hitem | ].
    unfold selected_of. simpl.
    rewrite (bool_decide_eq_false_2 _ Hign).
    replace (bool_decide (key_extension fmt0 ∈ F) || bool_decide ("all" ∈ F))
      with true.
    + apply in_flat_map. exists (url, title).
      split; [apply list_elem_of_In; exact Hr | ]. simpl.
      destruct (filtered_out rf title); [exfalso; auto | left; reflexivity].
    + symmetry. apply orb_true_iff.
      destruct Hacc as [Hacc | Hacc]; [left | right];
        apply bool_decide_eq_true; exact Hacc.
Qed.

(** C1, the claim as stated fails: with accepted formats "mp4 all" the
    selector returns a pdf resource although "pdf" is not an accepted format
    and the accepted formats are not the set [{"all"}]. *)
Lemma find_resources_to_get_all_among_others :
  (("pdf", JStr "http://x/a.pdf", "")
     ∈ @find_resources_to_get Cases.offline Cases.pdf_lecture ["mp4"; "all"]
         None None) /\
  ~ (key_extension "pdf" ∈ ["mp4"; "all"] \/
     (forall f : string, f ∈ ["mp4"; "all"] <-> f = "all")).
Proof.
  split.
  - vm_compute. left.
  - intros [Hin | Hall].
    + vm_compute in Hin. apply elem_of_cons in Hin as [Hin | Hin];
        [discriminate Hin | ].
      apply elem_of_cons in Hin as [Hin | Hin]; [discriminate Hin | ].
      inversion Hin.
    + assert (Hmp4 : "mp4" = "all") by (apply Hall; left).
      discriminate Hmp4.
Qed.

(** ** Path namer on the selector's output *)

(** C6, as amended. On the mapping with keys "mp4" and "en.srt", accepted
    formats "all", nothing ignored and no title filter, the selector returns
    both resources under their keys; for the third lecture, "intro", the
    default scheme names them 03_intro.mp4 and 03_intro.en.srt, the key being
    the file suffix; and these are the files the orchestrator writes for that
    lecture. *)
Theorem intro_lecture_names `{Collaborators} :
  find_resources_to_get Cases.intro_lecture ["all"] None None
  = [("mp4", JStr "http://x/a.mp4", ""); ("en.srt", JStr "http://x/a.srt", "")]
  /\ default_names 2 (JStr "intro")
       (find_resources_to_get Cases.intro_lecture ["all"] None None)
     = ["03_intro.mp4"; "03_intro.en.srt"]
  /\ log (snd (download_lecture Cases.placeholder_options "out/01_week1" 0
                 (2%nat, (JStr "intro", Cases.intro_lecture)) (-1)
                 Demo.start))
     = [Mkdir "out/01_week1";
        Touch "out/01_week1/03_intro.mp4";
        Touch "out/01_week1/03_intro.en.srt"].
Proof. repeat split; reflexivity. Qed.

(** C6, the claim as stated fails: the subtitle file is not named
    03_intro.srt. *)
Lemma intro_lecture_names_as_stated :
  @default_names Cases.offline 2 (JStr "intro")
    (@find_resources_to_get Cases.offline Cases.intro_lecture ["all"]
       None None)
  <> ["03_intro.mp4"; "03_intro.srt"].
Proof. vm_compute. discriminate. Qed.

(** ** Syllabus parser: the shape of the tree *)

(** Inversion of a run that returned. *)
Ltac returned H :=
  repeat match type of H with
    | bind _ _ _ = (Ok _, _) =>
        let a := fresh "a" in
        let v := fresh "v" in
        let Hm := fresh "Hm" in
        apply bind_ok in H as (a & v & Hm & H)
    | ret _ _ = (Ok _, _) => unfold ret in H; injection H as <- <-
    end.

Ltac lifted :=
  repeat match goal with
    | Hl : lift _ _ = (Ok _, _) |- _ => apply lift_ok in Hl as [Hl ?]
    end.

Section ParserFacts.
Context `{Collaborators}.

Lemma dict_set_elem {V} (d : dict V) k v k' v' :
  (k', v') ∈ dict_set d k v -> (k', v') = (k, v) \/ (k', v') ∈ d.
Proof.
  induction d as [|[k0 v0] d IH]; simpl; intros Hin.
  - apply list_elem_of_singleton in Hin. left. exact Hin.
  - destruct (String.eqb k0 k) eqn:Hk.
    + apply String.eqb_eq in Hk as ->.
      apply elem_of_cons in Hin as [Hin | Hin].
      * left. exact Hin.
      * right. right. exact Hin.
    + apply elem_of_cons in Hin as [Hin | Hin].
      * right. rewrite Hin. left.
      * destruct (IH Hin) as [Heq | Hd]; [left | right; right]; assumption.
Qed.

(** Lines 220-222: every value of [lecture_video_content] is [[(value, '')]]. *)
Lemma lecture_video_content_values (video_content : dict json)
    (acc : lecture_content) :
  (forall k rs, (k, rs) ∈ acc -> exists url : json, rs = [(url, "")]) ->
  forall k rs,
    (k, rs) ∈ fold_left (fun acc kv => dict_set acc (fst kv) [(snd kv, "")])
                        video_content acc ->
    exists url : json, rs = [(url, "")].
Proof.
  revert acc. induction video_content as [|[k0 v0] vc IH]; intros acc Hacc.
  - exact Hacc.
  - simpl. apply IH. intros k rs Hin.
    apply dict_set_elem in Hin as [[= -> ->] | Hin]; [eauto | eauto].
Qed.

Lemma nonempty_true {A} (l : list A) : nonempty l = true -> l <> [].
Proof. destruct l; [discriminate | discriminate]. Qed.

Lemma parse_lecture_shape sl vr lecture lectures w lectures' w' :
  Forall lecture_shape lectures ->
  parse_lecture sl vr lecture lectures w = (Ok lectures', w') ->
  Forall lecture_shape lectures'.
Proof.
  intros Hacc Hrun. unfold parse_lecture in Hrun. returned Hrun.
  destruct (eq_str a0 "lecture"); [ | returned Hrun; exact Hacc].
  returned Hrun.
  match type of Hrun with
  | (if ?b then _ else _) _ = _ => destruct b eqn:Hne
  end; returned Hrun; [ | exact Hacc].
  apply Forall_app. split; [exact Hacc | ].
  apply Forall_cons. split; [ | apply Forall_nil; exact I].
  split; simpl.
  - apply nonempty_true. exact Hne.
  - apply lecture_video_content_values. intros k rs Hin. inversion Hin.
Qed.

Lemma parse_section_shape sl vr section sections w sections' w' :
  Forall section_shape sections ->
  parse_section sl vr section sections w = (Ok sections', w') ->
  Forall section_shape sections'.
Proof.
  intros Hacc Hrun. unfold parse_section in Hrun. returned Hrun.
  assert (Hlectures : Forall lecture_shape a1).
  { eapply (for_each_invariant (Forall lecture_shape)); [ | | exact Hm1].
    - intros x acc u acc' u' _. apply parse_lecture_shape.
    - apply Forall_nil. exact I. }
  destruct (nonempty a1) eqn:Hne; returned Hrun; [ | exact Hacc].
  apply Forall_app. split; [exact Hacc | ].
  apply Forall_cons. split; [ | apply Forall_nil; exact I].
  split; [apply nonempty_true; exact Hne | exact Hlectures].
Qed.

Lemma parse_module_shape sl vr module modules w modules' w' :
  Forall module_shape modules ->
  parse_module sl vr module modules w = (Ok modules', w') ->
  Forall module_shape modules'.
Proof.
  intros Hacc Hrun. unfold parse_module in Hrun. returned Hrun.
  assert (Hsections : Forall section_shape a1).
  { eapply (for_each_invariant (Forall section_shape)); [ | | exact Hm1].
    - intros x acc u acc' u' _. apply parse_section_shape.
    - apply Forall_nil. exact I. }
  destruct (nonempty a1) eqn:Hne; returned Hrun; [ | exact Hacc].
  apply Forall_app. split; [exact Hacc | ].
  apply Forall_cons. split; [ | apply Forall_nil; exact I].
  split; [apply nonempty_true; exact Hne | exact Hsections].
Qed.

Lemma parse_on_demand_syllabus_shape page reverse intact sl vr w tree w' :
  parse_on_demand_syllabus page reverse intact sl vr w = (Ok tree, w') ->
  Forall module_shape tree.
Proof.
  intros Hrun. unfold parse_on_demand_syllabus in Hrun. returned Hrun.
  assert (Hmodules : Forall module_shape a1).
  { eapply (for_each_invariant (Forall module_shape)); [ | | exact Hm1].
    - intros x acc u acc' u' _. apply parse_module_shape.
    - apply Forall_nil. exact I. }
  destruct (nonempty a1 && reverse); [ | exact Hmodules].
  apply Forall_rev. exact Hmodules.
Qed.

End ParserFacts.

(** C7. Whenever the parser returns a tree, the tree holds no empty lecture,
    section or module: every module has a section, every section a lecture,
    every lecture a resource key, and every key a resource. *)
Theorem parse_on_demand_syllabus_pruned `{Collaborators}
    (page : string) (reverse intact_fnames : bool)
    (subtitle_language video_resolution : string) (w : world)
    (tree : list module_entry) (w' : world) :
  parse_on_demand_syllabus page reverse intact_fnames subtitle_language
    video_resolution w = (Ok tree, w') ->
  pruned tree.
Proof.
  intros Hrun. apply parse_on_demand_syllabus_shape in Hrun.
  intros m Hm. apply (proj1 (Forall_forall _ _) Hrun) in Hm as [Hm_ne Hm].
  split; [exact Hm_ne | ]. intros s Hs.
  apply (proj1 (Forall_forall _ _) Hm) in Hs as [Hs_ne Hs].
  split; [exact Hs_ne | ]. intros l Hl.
  apply (proj1 (Forall_forall _ _) Hs) in Hl as [Hl_ne Hl].
  split; [exact Hl_ne | ]. intros k rs Hk.
  destruct (Hl k rs Hk) as [url ->]. discriminate.
Qed.

Lemma parse_on_demand_syllabus_pruned_witness :
  exists tree w',
    @parse_on_demand_syllabus Cases.online "course/c" false false "all" "540p"
      Demo.start = (Ok tree, w') /\
    tree <> [] /\ pruned tree.
Proof.
  eexists _, _. split; [vm_compute; reflexivity | ].
  split; [discriminate | ].
  eapply (@parse_on_demand_syllabus_pruned Cases.online "course/c" false
            false "all" "540p" Demo.start).
  vm_compute. reflexivity.
Defined.

Section UntitledResources.
Context `{Collaborators}.

Lemma filtered_out_untitled rf : filtered_out rf "" = false.
Proof.
  destruct rf as [pattern|]; [ | reflexivity].
  simpl. destruct (truthy pattern); reflexivity.
Qed.

Lemma flat_map_agree {A B} (f g : A -> list B) (l : list A) :
  (forall x, x ∈ l -> f x = g x) -> flat_map f l = flat_map g l.
Proof.
  induction l as [|x l IH]; intros Hfg; simpl; [reflexivity | ].
  rewrite (Hfg x) by left. rewrite IH; [reflexivity | ].
  intros y Hy. apply Hfg. right. exact Hy.
Qed.

(** On untitled resources the title filter has no say. *)
Lemma find_resources_to_get_untitled (lecture : lecture_content) F rf ign :
  (forall k rs, (k, rs) ∈ lecture -> exists url : json, rs = [(url, "")]) ->
  find_resources_to_get lecture F rf ign
  = find_resources_to_get lecture F None ign.
Proof.
  intros Hshape. rewrite !find_resources_to_get_flat.
  apply flat_map_agree. intros [k rs] Hin.
  destruct (Hshape k rs Hin) as [url ->].
  unfold selected_of. simpl. rewrite filtered_out_untitled. reflexivity.
Qed.

End UntitledResources.

(** C10. In every tree the parser returns, each resource sequence of each
    lecture is a single (url, title) pair with the empty title; hence the
    selector returns for such a lecture what it returns without a title
    filter, whatever filter is configured. *)
Theorem parsed_resources_untitled `{Collaborators}
    (page : string) (reverse intact_fnames : bool)
    (subtitle_language video_resolution : string) (w : world)
    (tree : list module_entry) (w' : world) :
  parse_on_demand_syllabus page reverse intact_fnames subtitle_language
    video_resolution w = (Ok tree, w') ->
  forall m s l, m ∈ tree -> s ∈ snd m -> l ∈ snd s ->
    (forall k rs, (k, rs) ∈ snd l -> exists url : json, rs = [(url, "")]) /\
    (forall F rf ign,
        find_resources_to_get (snd l) F rf ign
        = find_resources_to_get (snd l) F None ign).
Proof.
  intros Hrun m s l Hm Hs Hl. apply parse_on_demand_syllabus_shape in Hrun.
  apply (proj1 (Forall_forall _ _) Hrun) in Hm as [_ Hm].
  apply (proj1 (Forall_forall _ _) Hm) in Hs as [_ Hs].
  apply (proj1 (Forall_forall _ _) Hs) in Hl as [_ Hl].
  split; [exact Hl | ].
  intros F rf ign. apply find_resources_to_get_untitled. exact Hl.
Qed.

Lemma parsed_resources_untitled_witness :
  exists tree w',
    @parse_on_demand_syllabus Cases.online "course/c" true false "fr" "540p"
      Demo.start = (Ok tree, w') /\
    forall m s l, m ∈ tree -> s ∈ snd m -> l ∈ snd s ->
      (forall k rs, (k, rs) ∈ snd l -> exists url : json, rs = [(url, "")]) /\
      (forall F rf ign,
          @find_resources_to_get Cases.online (snd l) F rf ign
          = @find_resources_to_get Cases.online (snd l) F None ign).
Proof.
  eexists _, _. split; [vm_compute; reflexivity | ].
  eapply (@parsed_resources_untitled Cases.online "course/c" true false
            "fr" "540p" Demo.start).
  vm_compute. reflexivity.
Defined.

(** ** Resource locator: the subtitle language *)

Section LocatorFacts.
Context `{Collaborators}.

Lemma dict_set_key {V} (d : dict V) k v k' :
  k' ∈ map fst (dict_set d k v) -> k' = k \/ k' ∈ map fst d.
Proof.
  intros Hin. apply list_elem_of_In, in_map_iff in Hin as ([k0 v0] & <- & Hin).
  apply list_elem_of_In, dict_set_elem in Hin as [[= -> ->] | Hin].
  - left. reflexivity.
  - right. apply list_elem_of_In, in_map_iff. exists (k0, v0).
    split; [reflexivity | apply list_elem_of_In; exact Hin].
Qed.

(** With a selector other than "all", one round of the subtitle loop adds
    at most the English key of its kind and leaves "en" as the selector. *)
Lemma gather_subtitles_english dom video_id node video_content
    subtitle_language w video_content' subtitle_language' w' :
  node ∈ subtitle_nodes ->
  subtitle_language <> "all" ->
  gather_subtitles dom video_id node (video_content, subtitle_language) w
  = (Ok (video_content', subtitle_language'), w') ->
  subtitle_language' <> "all" /\
  forall k, k ∈ map fst video_content' ->
            k ∈ ["en.srt"; "en.txt"] \/ k ∈ map fst video_content.
Proof.
  intros Hnode Hsel Hrun.
  assert (Hext : exists n e d, node = (n, e, d) /\ ("en" +:+ "." +:+ e) ∈ ["en.srt"; "en.txt"]).
  { apply elem_of_cons in Hnode as [-> | Hnode].
    - eexists _, _, _. split; [reflexivity | left].
    - apply list_elem_of_singleton in Hnode as ->.
      eexists _, _, _. split; [reflexivity | right; left]. }
  destruct Hext as (n & e & d & -> & Hext).
  unfold gather_subtitles in Hrun. returned Hrun.
  apply String.eqb_neq in Hsel. rewrite Hsel in Hrun.
  destruct (negb (is_None a));
    [ | returned Hrun; split; [apply String.eqb_neq; exact Hsel | auto]].
  returned Hrun.
  destruct (negb (is_None a2)).
  - returned Hrun. split; [discriminate | ].
    intros k Hk. apply dict_set_key in Hk as [-> | Hk]; [left | right];
      assumption.
  - returned Hrun. split; [discriminate | auto].
Qed.

(** With a selector other than "all", the locator returns no key besides
    "mp4", "en.srt" and "en.txt", whichever language was asked for. *)
Lemma get_on_demand_video_url_english video_id subtitle_language resolution
    w video_content w' :
  subtitle_language <> "all" ->
  get_on_demand_video_url video_id subtitle_language resolution w
  = (Ok video_content, w') ->
  forall k, k ∈ map fst video_content -> k ∈ ["mp4"; "en.srt"; "en.txt"].
Proof.
  intros Hsel Hrun. unfold get_on_demand_video_url in Hrun. returned Hrun.
  pose (P := fun vars : dict json * string =>
               snd vars <> "all" /\
               forall k, k ∈ map fst (fst vars) ->
                         k ∈ ["mp4"; "en.srt"; "en.txt"]).
  match goal with
  | Hloop : for_each subtitle_nodes _ _ _ = (Ok _, _) |- _ =>
      apply (for_each_invariant P) in Hloop; [exact (proj2 Hloop) | | ]
  end.
  - intros node [vc0 sl0] u [vc1 sl1] u' Hnode [Hsl0 Hvc0] Hbody.
    destruct (gather_subtitles_english _ _ _ _ _ _ _ _ _ Hnode Hsl0 Hbody)
      as [Hsl1 Hvc1].
    split; [exact Hsl1 | ]. simpl. intros k Hk.
    destruct (Hvc1 k Hk) as [Hen | Hold].
    + right. exact Hen.
    + apply Hvc0. exact Hold.
  - split; [exact Hsel | ]. simpl. intros k Hk.
    apply list_elem_of_singleton in Hk as ->. left.
Qed.

End LocatorFacts.

(** C5, the code at the failing input: French is asked for and the video has
    French and English subtitles, yet the locator returns the English
    subtitle under "en.srt", no "fr.srt", and logs nothing. *)
Theorem requested_language_dropped :
  @get_on_demand_video_url Cases.online (JStr "v1") "fr" "540p" Demo.start
  = (Ok [("mp4", JStr "http://x/v.mp4");
         ("en.srt", JStr "https://www.coursera.org/en.srt")],
     Demo.start).
Proof. vm_compute. reflexivity. Qed.

(** When the language asked for is absent the locator does fall back to
    English, with a warning. *)
Example fallback_to_english :
  @get_on_demand_video_url Cases.bilingual (JStr "v3") "fr" "540p" Demo.start
  = (Ok [("mp4", JStr "http://x/3.mp4"); ("en.srt", JStr "http://x/u1")],
     World ∅ 0 [Warn_fallback "subtitle" "fr" (JStr "v3")]).
Proof. vm_compute. reflexivity. Qed.

(** ** Resolution failures *)

Section Oblivious.
Context `{Collaborators}.









End Oblivious.

Section Propagation.
Context `{Collaborators}.






End Propagation.




(** ** Download orchestrator: one target *)

Lemma must_write_value `{Collaborators} (o : options) (lecfn : string)
    (w : world) :
  must_write o lecfn w
  = (Ok (overwrite o || negb (bool_decide (is_Some (fs w !! lecfn)))
         || resume o), w).
Proof.
  unfold must_write. destruct (overwrite o); [reflexivity | ].
  unfold bind, path_exists. simpl.
  destruct (negb (bool_decide (is_Some (fs w !! lecfn)))); reflexivity.
Qed.

(** C2. For a target of a lecture, with [lecfn] its file: when the file is
    absent, or overwrite is set, or resume is set, the orchestrator performs
    the write (it hands (url, lecfn) to the downloader, or creates the
    placeholder when skip_download is set) and, once the write has returned,
    reads the clock and makes that time the latest activity; in every other
    case the world is left as it was, nothing is written, and the latest
    activity becomes the maximum of its old value and the modification time
    of the existing file. *)
Theorem write_resource_policy `{Collaborators} (o : options) (sec : string)
    (secnum lecnum : nat) (lecname url : json) (fmt title : string)
    (last_update : Z) (w : world) :
  let lecfn := lecfn_of o sec secnum lecnum lecname title fmt in
  let write :=
    if skip_download o then touch lecfn
    else downloader_download url lecfn (resume o) in
  if overwrite o || negb (bool_decide (is_Some (fs w !! lecfn))) || resume o
  then
    log (snd (write w))
    = log w ++ [if skip_download o then Touch lecfn
                else Download url lecfn (resume o)] /\
    write_resource o sec secnum lecnum lecname (fmt, url, title) last_update w
    = match write w with
      | (Ok _, w1) => (Ok (now w), World (fs w1) (S (ticks w)) (log w1))
      | (Raise e, w1) => (Raise e, w1)
      end
  else
    exists n, fs w !! lecfn = Some n /\
      write_resource o sec secnum lecnum lecname (fmt, url, title)
        last_update w
      = (Ok (Z.max last_update (mtime n)), w).
Proof.
  intros lecfn write. unfold write_resource. fold lecfn.
  assert (Hwrite : log (snd (write w))
                   = log w ++ [if skip_download o then Touch lecfn
                               else Download url lecfn (resume o)]
                   /\ bind write (fun _ => time_time) w
                      = match write w with
                        | (Ok _, w1) =>
                            (Ok (now w), World (fs w1) (S (ticks w)) (log w1))
                        | (Raise e, w1) => (Raise e, w1)
                        end).
  { subst write. destruct (skip_download o).
    - unfold touch, bind, emit, time_time, now. simpl.
      destruct (fs w !! lecfn) as [[[|] t]|]; simpl; split; reflexivity.
    - unfold downloader_download, external, bind, emit, time_time, now. simpl.
      destruct (download url lecfn (resume o) (clock (ticks w)) (fs w))
        as [[[]|e] files]; simpl; split; reflexivity. }
  destruct Hwrite as [Hlog Hrun].
  rewrite (bind_step _ _ _ _ _ (must_write_value o lecfn w)).
  destruct (overwrite o || negb (bool_decide (is_Some (fs w !! lecfn)))
            || resume o) eqn:Hgo.
  - split; [exact Hlog | ].
    subst write. destruct (skip_download o); exact Hrun.
  - apply orb_false_elim in Hgo as [Hgo _].
    apply orb_false_elim in Hgo as [_ Hgo].
    apply negb_false_iff, bool_decide_eq_true in Hgo as [n Hfile].
    exists n. split; [exact Hfile | ].
    unfold bind, getmtime, ret. rewrite Hfile. reflexivity.
Qed.


(** ** Download orchestrator: what reaches the log *)

Section LogFacts.
Context `{Collaborators}.

Lemma emits_ret {A} P (a : A) : emits P (ret a).
Proof.
  intros w r w' [= <- <-]. exists []. split; [symmetry; apply app_nil_r | ].
  apply Forall_nil. exact I.
Qed.

Lemma emits_lift {A} P (x : result A) : emits P (lift x).
Proof.
  intros w r w' [= <- <-]. exists []. split; [symmetry; apply app_nil_r | ].
  apply Forall_nil. exact I.
Qed.

Lemma emits_emit (P : event -> Prop) e : P e -> emits P (emit e).
Proof.
  intros He w r w' [= <- <-]. exists [e]. split; [reflexivity | ].
  apply Forall_cons. split; [exact He | apply Forall_nil; exact I].
Qed.

Lemma emits_external P a : emits P (external a).
Proof.
  intros w r w'. unfold external. destruct (a (now w) (fs w)) as [x files].
  intros [= <- <-]. exists []. split; [symmetry; apply app_nil_r | ].
  apply Forall_nil. exact I.
Qed.

Lemma emits_bind {A B} P (m : M A) (k : A -> M B) :
  emits P m -> (forall a, emits P (k a)) -> emits P (bind m k).
Proof.
  intros Hm Hk w r w' Hrun. unfold bind in Hrun.
  destruct (m w) as [[a|e] w1] eqn:Hfirst.
  - destruct (Hm _ _ _ Hfirst) as (evs1 & Hlog1 & Hevs1).
    destruct (Hk a _ _ _ Hrun) as (evs2 & Hlog2 & Hevs2).
    exists (evs1 ++ evs2). rewrite Hlog2, Hlog1, app_assoc.
    split; [reflexivity | apply Forall_app; split; assumption].
  - injection Hrun as <- <-. exact (Hm _ _ _ Hfirst).
Qed.

Lemma emits_for_each {A S} P (body : A -> S -> M S) (l : list A) :
  (forall x acc, x ∈ l -> emits P (body x acc)) ->
  forall acc, emits P (for_each l body acc).
Proof.
  induction l as [|x l IH]; intros Hbody acc; simpl.
  - apply emits_ret.
  - apply emits_bind.
    + apply Hbody. left.
    + intros acc'. apply IH. intros y a Hy. apply Hbody. right. exact Hy.
Qed.

Lemma emits_weaken {A} (P Q : event -> Prop) (m : M A) :
  (forall e, P e -> Q e) -> emits P m -> emits Q m.
Proof.
  intros HPQ Hm w r w' Hrun. destruct (Hm _ _ _ Hrun) as (evs & Hlog & Hevs).
  exists evs. split; [exact Hlog | ]. eapply Forall_impl; eassumption.
Qed.

Lemma emits_time P : emits P time_time.
Proof.
  intros w r w' [= <- <-]. exists []. split; [symmetry; apply app_nil_r | ].
  apply Forall_nil. exact I.
Qed.

(** Writing a target creates no directory. *)
Lemma write_resource_emits o sec secnum lecnum lecname target last_update P :
  (forall e, is_write e = true -> P e) ->
  emits P (write_resource o sec secnum lecnum lecname target last_update).
Proof.
  intros HP. destruct target as [[fmt url] title]. unfold write_resource.
  apply emits_bind.
  - unfold must_write. destruct (overwrite o); [apply emits_ret | ].
    apply emits_bind.
    + intros w r w' [= <- <-]. exists [].
      split; [symmetry; apply app_nil_r | apply Forall_nil; exact I].
    + intros present. destruct (negb present); apply emits_ret.
  - intros [|].
    + apply emits_bind; [ | intros _; apply emits_time].
      destruct (negb (skip_download o)).
      * unfold downloader_download. apply emits_bind.
        -- apply emits_emit, HP. reflexivity.
        -- intros _. apply emits_external.
      * unfold touch. apply emits_bind.
        -- apply emits_emit, HP. reflexivity.
        -- intros _ w r w' Hrun. exists [].
           split; [ | apply Forall_nil; exact I].
           rewrite app_nil_r.
           destruct (fs w !! _) as [[[|] t]|]; injection Hrun as <- <-;
             reflexivity.
    + apply emits_bind; [ | intros m; apply emits_ret].
      intros w r w' Hrun. unfold getmtime in Hrun. exists [].
      split; [ | apply Forall_nil; exact I]. rewrite app_nil_r.
      destruct (fs w !! _); injection Hrun as <- <-; reflexivity.
Qed.

Lemma mkdir_p_emits sec : emits (creates_only sec) (mkdir_p sec).
Proof.
  unfold mkdir_p. apply emits_bind.
  - apply emits_emit. intros p [= <-]. reflexivity.
  - intros _ w r w' Hrun. exists [].
    split; [ | apply Forall_nil; exact I]. rewrite app_nil_r.
    destruct (fs w !! sec) as [n|]; injection Hrun as <- <-; reflexivity.
Qed.

Lemma emits_bind_lift {A B} P (x : result A) (k : A -> M B) :
  (forall a, x = Ok a -> emits P (k a)) -> emits P (bind (lift x) k).
Proof.
  intros Hk w r w' Hrun. unfold bind, lift in Hrun. destruct x as [a|e].
  - exact (Hk a eq_refl _ _ _ Hrun).
  - injection Hrun as <- <-. exists [].
    split; [symmetry; apply app_nil_r | apply Forall_nil; exact I].
Qed.

Lemma emits_path_exists P p : emits P (path_exists p).
Proof.
  intros w r w' [= <- <-]. exists [].
  split; [symmetry; apply app_nil_r | apply Forall_nil; exact I].
Qed.

(** A lecture adds no directory but [sec], and none at all when the lecture
    filter skips it. *)
Lemma download_lecture_emits o sec secnum lecnum lecname lecture last_update :
  emits (fun e => forall p, e = Mkdir p ->
                   p = sec /\ survives (lecture_filter o) lecname)
        (download_lecture o sec secnum (lecnum, (lecname, lecture))
                          last_update).
Proof.
  unfold download_lecture. apply emits_bind_lift. intros [|] Hfilter.
  - apply emits_ret.
  - apply emits_bind; [apply emits_path_exists | ]. intros present.
    apply emits_bind.
    + destruct (negb present); [ | apply emits_ret].
      eapply emits_weaken; [ | apply mkdir_p_emits].
      intros e He p Hp. split; [apply He; exact Hp | exact Hfilter].
    + intros _. apply emits_for_each. intros target acc _.
      apply write_resource_emits. intros [] Hw p Hp; discriminate.
Qed.

Lemma enumerate_from_elem {A} (l : list A) k i x :
  (i, x) ∈ enumerate_from k l -> x ∈ l.
Proof.
  revert k. induction l as [|y l IH]; intros k Hin; simpl in Hin.
  - inversion Hin.
  - apply elem_of_cons in Hin as [[= -> ->] | Hin].
    + left.
    + right. eapply IH. exact Hin.
Qed.

(** A section adds no directory but its own, and only when it passes the
    section filter and one of its lectures passes the lecture filter. *)
Lemma download_section_emits o class_name sections secnum section lectures
    last_update :
  (secnum, (section, lectures)) ∈ enumerate sections ->
  emits (creation_justified o class_name sections)
        (download_section o class_name (secnum, (section, lectures))
                          last_update).
Proof.
  intros Hin. unfold download_section. apply emits_bind_lift.
  intros [|] Hfilter; [apply emits_ret | ].
  apply emits_bind.
  - apply emits_for_each. intros [lecnum [lecname lecture]] acc Hlecture.
    eapply emits_weaken; [ | apply download_lecture_emits].
    intros e He p Hp. destruct (He p Hp) as [-> Hsurvives].
    exists secnum, section, lectures.
    split; [exact Hin | ]. split; [reflexivity | ].
    split; [exact Hfilter | ].
    exists (lecname, lecture).
    split; [eapply enumerate_from_elem; exact Hlecture | exact Hsurvives].
  - intros lu. apply emits_bind.
    + destruct (playlist o); [ | apply emits_ret].
      apply emits_bind; [ | intros _; apply emits_external].
      apply emits_emit. intros p Hp. discriminate Hp.
    + intros _. apply emits_bind; [ | intros _; apply emits_ret].
      destruct (nonempty (hooks o)); [ | apply emits_ret].
      apply emits_for_each. intros hook [] _.
      apply emits_bind; [ | intros _; apply emits_external].
      apply emits_emit. intros p Hp. discriminate Hp.
Qed.

Lemma latest_activity_emits o class_name sections :
  emits (creation_justified o class_name sections)
        (latest_activity o class_name sections).
Proof.
  unfold latest_activity. apply emits_for_each.
  intros [secnum [section lectures]] acc Hin.
  apply download_section_emits. exact Hin.
Qed.

Lemma is_course_complete_emits P last_update :
  emits P (is_course_complete last_update).
Proof.
  unfold is_course_complete. destruct (0 <=? last_update); [ | apply emits_ret].
  apply emits_bind; [apply emits_time | ]. intros t.
  destruct (_ <? _); apply emits_ret.
Qed.

End LogFacts.

(** ** Download orchestrator: section directories *)

Section DirectoryFacts.
Context `{Collaborators}.

Lemma opens_bind_l {A B} e (m : M A) (k : A -> M B) w :
  opens e m w -> (forall a, emits (fun _ => True) (k a)) ->
  opens e (bind m k) w.
Proof.
  intros Hm Hk r w' Hrun. unfold bind in Hrun.
  destruct (m w) as [[a|x] w1] eqn:Hfirst.
  - destruct (Hm _ _ Hfirst) as (evs1 & Hlog1).
    destruct (Hk a _ _ _ Hrun) as (evs2 & Hlog2 & _).
    exists (evs1 ++ evs2). rewrite Hlog2, Hlog1, <- app_assoc. reflexivity.
  - injection Hrun as <- <-. exact (Hm _ _ Hfirst).
Qed.

Lemma opens_bind_r {A B} e (m : M A) (k : A -> M B) w a :
  m w = (Ok a, w) -> opens e (k a) w -> opens e (bind m k) w.
Proof.
  intros Hm Hk r w' Hrun. rewrite (bind_step _ _ _ _ _ Hm) in Hrun.
  exact (Hk _ _ Hrun).
Qed.

Lemma mkdir_p_opens sec w : opens (Mkdir sec) (mkdir_p sec) w.
Proof.
  intros r w' Hrun. unfold mkdir_p, bind, emit in Hrun. simpl in Hrun.
  exists []. destruct (fs w !! sec) as [n|]; injection Hrun as <- <-;
    reflexivity.
Qed.

Lemma download_lecture_any o sec secnum item last_update :
  emits (fun _ => True) (download_lecture o sec secnum item last_update).
Proof.
  destruct item as [lecnum [lecname lecture]].
  eapply emits_weaken; [ | apply download_lecture_emits]. intros e _. exact I.
Qed.

(** A lecture the filter skips leaves the world and the latest activity as
    they are. *)
Lemma download_lecture_skipped o sec secnum lecnum lecture last_update w :
  fails_filter (lecture_filter o) (fst lecture) = Ok true ->
  download_lecture o sec secnum (lecnum, lecture) last_update w
  = (Ok last_update, w).
Proof.
  intros Hfilter. destruct lecture as [lecname lecture]. simpl in Hfilter.
  unfold download_lecture. unfold bind, lift. rewrite Hfilter. reflexivity.
Qed.

(** The first lecture that passes the filter creates the directory when it
    is not there, before it selects or writes anything. *)
Lemma download_lecture_opens o sec secnum lecnum lecture last_update w :
  survives (lecture_filter o) (fst lecture) ->
  fs w !! sec = None ->
  opens (Mkdir sec) (download_lecture o sec secnum (lecnum, lecture)
                                      last_update) w.
Proof.
  intros Hfilter Hsec. destruct lecture as [lecname lecture].
  simpl in Hfilter. unfold download_lecture.
  eapply opens_bind_r; [unfold lift; rewrite Hfilter; reflexivity | ].
  eapply opens_bind_r; [reflexivity | ].
  rewrite bool_decide_eq_false_2 by (rewrite Hsec; intros [? ?]; discriminate).
  apply opens_bind_l; [apply mkdir_p_opens | ].
  intros _. apply emits_for_each. intros target acc _.
  apply write_resource_emits. intros e _. exact I.
Qed.

Lemma enumerate_from_app {A} (l1 l2 : list A) k :
  enumerate_from k (l1 ++ l2)
  = enumerate_from k l1 ++ enumerate_from (k + length l1) l2.
Proof.
  revert k. induction l1 as [|x l1 IH]; intros k; simpl.
  - rewrite Nat.add_0_r. reflexivity.
  - rewrite IH, Nat.add_succ_r. reflexivity.
Qed.

Lemma lectures_loop_opens o sec secnum skipped lecture rest last_update w k :
  Forall (fun l : lecture_entry =>
            fails_filter (lecture_filter o) (fst l) = Ok true) skipped ->
  survives (lecture_filter o) (fst lecture) ->
  fs w !! sec = None ->
  opens (Mkdir sec)
        (for_each (enumerate_from k (skipped ++ lecture :: rest))
                  (download_lecture o sec secnum) last_update) w.
Proof.
  intros Hskipped Hfilter Hsec. revert k.
  induction Hskipped as [|l skipped Hl _ IH]; intros k; simpl.
  - apply opens_bind_l.
    + apply download_lecture_opens; assumption.
    + intros acc. apply emits_for_each. intros item a _.
      apply download_lecture_any.
  - eapply opens_bind_r; [apply download_lecture_skipped; exact Hl | ].
    apply IH.
Qed.

Lemma after_lectures_any o sec (last_update : Z) :
  emits (fun _ => True)
    ((if playlist o
      then emit (Playlist sec) ;;; external (write_playlists sec)
      else ret tt) ;;;
     (if nonempty (hooks o)
      then for_each (hooks o)
             (fun hook _ => emit (Hook hook sec) ;;;
                            external (call_hook hook sec)) tt
      else ret tt) ;;;
     ret last_update).
Proof.
  apply emits_bind.
  - destruct (playlist o); [ | apply emits_ret].
    apply emits_bind; [ | intros _; apply emits_external].
    apply emits_emit. exact I.
  - intros _. apply emits_bind; [ | intros _; apply emits_ret].
    destruct (nonempty (hooks o)); [ | apply emits_ret].
    apply emits_for_each. intros hook [] _.
    apply emits_bind; [ | intros _; apply emits_external].
    apply emits_emit. exact I.
Qed.

End DirectoryFacts.

(** C8, as amended. (1) In every run of the orchestrator, each directory it
    creates is the directory of a section that passes the section filter
    and has a lecture passing the lecture filter. (2) A section that fails
    the section filter is skipped with no effect at all. (3) In a section
    that passes, the directory is created, when it does not exist yet, on
    reaching the first lecture that passes the lecture filter, as the first
    action of the section and before any resource is selected or written,
    so also when no write follows. *)
Theorem section_directory_creation `{Collaborators} (o : options)
    (class_name : string) :
  (forall sections w r w' evs p,
      latest_activity o class_name sections w = (r, w') ->
      log w' = log w ++ evs -> Mkdir p ∈ evs ->
      exists secnum section lectures,
        (secnum, (section, lectures)) ∈ enumerate sections /\
        p = section_dir o class_name secnum section /\
        survives (section_filter o) section /\
        has_surviving_lecture o lectures) /\
  (forall secnum section lectures last_update w,
      fails_filter (section_filter o) section = Ok true ->
      download_section o class_name (secnum, (section, lectures))
        last_update w = (Ok last_update, w)) /\
  (forall secnum section skipped lecture rest last_update w r w',
      survives (section_filter o) section ->
      Forall (fun l : lecture_entry =>
                fails_filter (lecture_filter o) (fst l) = Ok true) skipped ->
      survives (lecture_filter o) (fst lecture) ->
      fs w !! section_dir o class_name secnum section = None ->
      download_section o class_name
        (secnum, (section, skipped ++ lecture :: rest)) last_update w
      = (r, w') ->
      exists evs,
        log w' = log w ++ Mkdir (section_dir o class_name secnum section)
                          :: evs).
Proof.
  split; [ | split].
  - intros sections w r w' evs p Hrun Hlog Hin.
    destruct (latest_activity_emits o class_name sections _ _ _ Hrun)
      as (evs' & Hlog' & Hevs).
    rewrite Hlog in Hlog'. apply app_inv_head in Hlog' as ->.
    apply (proj1 (Forall_forall _ _) Hevs) in Hin.
    exact (Hin p eq_refl).
  - intros secnum section lectures last_update w Hfilter.
    unfold download_section, bind, lift. rewrite Hfilter. reflexivity.
  - intros secnum section skipped lecture rest last_update w r w'
      Hsection Hskipped Hlecture Hsec Hrun.
    revert r w' Hrun. change (opens (Mkdir (section_dir o class_name secnum section))
      (download_section o class_name
         (secnum, (section, skipped ++ lecture :: rest)) last_update) w).
    unfold download_section.
    eapply opens_bind_r; [unfold lift; rewrite Hsection; reflexivity | ].
    apply opens_bind_l.
    + apply lectures_loop_opens; assumption.
    + intros lu. apply after_lectures_any.
Qed.

Lemma section_directory_creation_witness :
  exists evs,
    log (snd (@download_section Cases.offline Cases.pdf_only "c"
                (0%nat, (JStr "week01",
                         [] ++ (JStr "intro", Cases.intro_lecture) :: []))
                (-1) Demo.start))
    = log Demo.start ++ Mkdir "out/c/01_week01" :: evs.
Proof.
  eapply (proj2 (proj2 (@section_directory_creation Cases.offline
                          Cases.pdf_only "c"))
            0%nat (JStr "week01") [] (JStr "intro", Cases.intro_lecture) []
            (-1) Demo.start).
  - reflexivity.
  - apply Forall_nil. exact I.
  - reflexivity.
  - reflexivity.
  - apply surjective_pairing.
Defined.

(** C8, the claim as stated fails: the section passes the filter and its
    lecture has a video, but only pdf files are wanted, so nothing is
    written; the directory of the section is created all the same. *)
Lemma directory_created_without_write :
  log (snd (@latest_activity Cases.offline Cases.pdf_only "c" Cases.week01
              Demo.start))
  = [Mkdir "out/c/01_week01"] /\
  fs (snd (@latest_activity Cases.offline Cases.pdf_only "c" Cases.week01
             Demo.start)) !! "out/c/01_week01"
  = Some (Node true 0) /\
  ~ (Mkdir "out/c/01_week01"
       ∈ log (snd (@latest_activity Cases.offline Cases.pdf_only "c"
                     Cases.week01 Demo.start)) ->
     exists e,
       e ∈ log (snd (@latest_activity Cases.offline Cases.pdf_only "c"
                       Cases.week01 Demo.start)) /\
       is_write e = true).
Proof.
  split; [vm_compute; reflexivity | ].
  split; [vm_compute; reflexivity | ].
  intros Hclaim.
  assert (Hlog : log (snd (@latest_activity Cases.offline Cases.pdf_only "c"
                             Cases.week01 Demo.start))
                 = [Mkdir "out/c/01_week01"]) by (vm_compute; reflexivity).
  rewrite Hlog in Hclaim. destruct Hclaim as (e & He & Hw); [left | ].
  apply list_elem_of_singleton in He as ->. discriminate Hw.
Qed.

(** ** Completion of a run *)

Section CompletionFacts.
Context `{Collaborators}.

(** The estimator reads the clock once when the latest activity is not
    negative, and not at all otherwise. *)
Lemma is_course_complete_value last_update w :
  is_course_complete last_update w
  = (Ok (estimate (now w) last_update),
     if 0 <=? last_update then World (fs w) (S (ticks w)) (log w) else w).
Proof.
  unfold is_course_complete, estimate. rewrite thirty_days.
  destruct (0 <=? last_update); [ | reflexivity].
  unfold bind, time_time. simpl.
  destruct (30 * 24 * 3600 <? now w - last_update); reflexivity.
Qed.




End CompletionFacts.



(** * Further properties *)

(** ** Strings *)

Lemma append_String a s t : String a s +:+ t = String a (s +:+ t).
Proof. reflexivity. Qed.

Lemma append_empty_l s : "" +:+ s = s.
Proof. reflexivity. Qed.

Lemma append_assoc s t u : (s +:+ t) +:+ u = s +:+ t +:+ u.
Proof.
  induction s as [|a s IH]; [reflexivity | ].
  rewrite !append_String, IH. reflexivity.
Qed.

Lemma length_append s t :
  String.length (s +:+ t) = (String.length s + String.length t)%nat.
Proof.
  induction s as [|a s IH]; [reflexivity | ].
  rewrite append_String. simpl. rewrite IH. reflexivity.
Qed.

Lemma append_inv_head s t u : s +:+ t = s +:+ u -> t = u.
Proof.
  induction s as [|a s IH]; [intros Heq; exact Heq | ].
  rewrite !append_String. intros [= Heq]. exact (IH Heq).
Qed.

Lemma append_inv_tail s t u : s +:+ u = t +:+ u -> s = t.
Proof.
  revert t. induction s as [|a s IH]; intros [|b t] Heq.
  - reflexivity.
  - apply (f_equal String.length) in Heq.
    rewrite append_empty_l, length_append in Heq. simpl in Heq. lia.
  - apply (f_equal String.length) in Heq.
    rewrite append_empty_l, length_append in Heq. simpl in Heq. lia.
  - rewrite !append_String in Heq. injection Heq as -> Heq.
    rewrite (IH t Heq). reflexivity.
Qed.

(** A run of digits ends at the first underscore. *)
Lemma digits_then_underscore a b s t :
  all_digits a = true -> all_digits b = true ->
  a +:+ "_" +:+ s = b +:+ "_" +:+ t -> a = b /\ s = t.
Proof.
  revert b. induction a as [|x a IH]; intros [|y b] Ha Hb Heq.
  - rewrite !append_empty_l in Heq. apply append_inv_head in Heq as ->.
    split; reflexivity.
  - rewrite append_empty_l, append_String in Heq. injection Heq as <- _.
    discriminate Hb.
  - rewrite append_empty_l, append_String in Heq. injection Heq as -> _.
    discriminate Ha.
  - rewrite !append_String in Heq. injection Heq as -> Heq.
    simpl in Ha, Hb. apply andb_prop in Ha as [_ Ha], Hb as [_ Hb].
    destruct (IH b Ha Hb Heq) as [-> ->]. split; reflexivity.
Qed.

Lemma string_of_uint_digits d :
  all_digits (NilEmpty.string_of_uint d) = true.
Proof. induction d; simpl; auto. Qed.

Lemma fmt_02d_digits n : all_digits (fmt_02d n) = true.
Proof.
  unfold fmt_02d. destruct (_ <? _)%nat.
  - rewrite append_String, append_empty_l. simpl.
    apply string_of_uint_digits.
  - apply string_of_uint_digits.
Qed.

(** The two-digit ordinal can be read back: [int('%02d' % n) == n]. *)
Lemma fmt_02d_read_back (n : nat) : int_of (fmt_02d n) = Some n.
Proof.
  unfold int_of, fmt_02d.
  assert (Hplain : option_map Nat.of_uint
                     (NilEmpty.uint_of_string
                        (NilEmpty.string_of_uint (Nat.to_uint n)))
                   = Some n).
  { rewrite NilEmpty.usu. simpl. rewrite DecimalNat.Unsigned.of_to.
    reflexivity. }
  destruct (_ <? _)%nat; [ | exact Hplain].
  rewrite append_String, append_empty_l.
  change (NilEmpty.uint_of_string (String "0" ?s))
    with (match NilEmpty.uint_of_string s with
          | Some d => Some (Decimal.D0 d)
          | None => None
          end).
  destruct (NilEmpty.uint_of_string _) as [d|]; [ | discriminate Hplain].
  simpl in Hplain |- *. injection Hplain as <-. reflexivity.
Qed.

Lemma fmt_02d_inj n m : fmt_02d n = fmt_02d m -> n = m.
Proof.
  intros Heq. apply (f_equal int_of) in Heq.
  rewrite !fmt_02d_read_back in Heq. injection Heq as ->. reflexivity.
Qed.

Lemma fmt_02d_first n : exists c r, fmt_02d n = String c r /\ c <> "/"%char.
Proof.
  pose proof (fmt_02d_digits n) as Hd.
  destruct (fmt_02d n) as [|c r] eqn:Hfmt.
  - exfalso. unfold fmt_02d in Hfmt.
    destruct (String.length _ <? 2)%nat eqn:Hlen.
    + rewrite append_String in Hfmt. discriminate Hfmt.
    + rewrite Hfmt in Hlen. discriminate Hlen.
  - exists c, r. split; [reflexivity | ]. intros ->. discriminate Hd.
Qed.

Lemma join2_inj p x y :
  starts_with_sep x = false -> starts_with_sep y = false ->
  join2 p x = join2 p y -> x = y.
Proof.
  unfold join2. intros -> ->.
  destruct (String.eqb p "" || ends_with_sep p); intros Heq.
  - exact (append_inv_head _ _ _ Heq).
  - apply append_inv_head in Heq. exact (append_inv_head _ _ _ Heq).
Qed.

Lemma ordinal_not_sep n r : starts_with_sep (fmt_02d n +:+ r) = false.
Proof.
  destruct (fmt_02d_first n) as (c & q & -> & Hc).
  rewrite append_String. simpl.
  destruct c as [[] [] [] [] [] [] [] []]; try reflexivity.
  exfalso. apply Hc. reflexivity.
Qed.

Section NamerFacts.
Context `{Collaborators}.

Lemma format_section_ordinal n1 n2 s1 s2 class_name verbose :
  format_section n1 s1 class_name verbose
  = format_section n2 s2 class_name verbose ->
  n1 = n2 /\ py_str s1 = py_str s2.
Proof.
  unfold format_section. intros Heq.
  assert (Hplain : fmt_02d n1 +:+ "_" +:+ py_str s1
                   = fmt_02d n2 +:+ "_" +:+ py_str s2).
  { destruct verbose; [ | exact Heq].
    apply append_inv_head in Heq. exact (append_inv_head _ _ _ Heq). }
  apply digits_then_underscore in Hplain as [Hn Hs];
    try apply fmt_02d_digits.
  split; [apply fmt_02d_inj; exact Hn | exact Hs].
Qed.

Lemma format_section_sep n1 n2 s1 s2 class_name verbose :
  starts_with_sep (format_section n1 s1 class_name verbose)
  = starts_with_sep (format_section n2 s2 class_name verbose).
Proof.
  unfold format_section. destruct verbose.
  - destruct (upper class_name) as [|c r]; [reflexivity | ].
    rewrite !append_String. reflexivity.
  - rewrite !ordinal_not_sep. reflexivity.
Qed.

End NamerFacts.

(** X1. Within one module, two sections get the same directory only if they
    have the same ordinal (and the same slug text): the sections of a run
    never share a directory. *)
Theorem section_dir_distinct `{Collaborators} (o : options)
    (class_name : string) (secnum1 secnum2 : nat) (section1 section2 : json) :
  section_dir o class_name secnum1 section1
  = section_dir o class_name secnum2 section2 ->
  secnum1 = secnum2 /\ py_str section1 = py_str section2.
Proof.
  unfold section_dir, path_join. cbn [fold_left]. intros Heq.
  assert (Hname : format_section (secnum1 + 1) section1 class_name
                    (verbose_dirs o)
                  = format_section (secnum2 + 1) section2 class_name
                      (verbose_dirs o)).
  { pose proof (format_section_sep (secnum1 + 1) (secnum2 + 1) section1
                  section2 class_name (verbose_dirs o)) as Hsep.
    destruct (starts_with_sep
                (format_section (secnum2 + 1) section2 class_name
                   (verbose_dirs o))) eqn:Hsep2.
    - unfold join2 at 1 3 in Heq. rewrite Hsep, Hsep2 in Heq. exact Heq.
    - eapply join2_inj; eassumption. }
  apply format_section_ordinal in Hname as [Hn Hs].
  split; [lia | exact Hs].
Qed.

Lemma section_dir_distinct_witness :
  (0 = 0)%nat /\
  @py_str Cases.offline (JStr "week01") = @py_str Cases.offline (JStr "week01").
Proof.
  apply (@section_dir_distinct Cases.offline Cases.pdf_only "c" 0 0
           (JStr "week01") (JStr "week01")).
  reflexivity.
Defined.

Section FileNames.
Context `{Collaborators}.

(** The title as it enters the file name (lines 267-268 and 273-274). *)
Lemma title_suffix_inj t1 t2 :
  (if truthy t1 then "_" +:+ t1 else t1)
  = (if truthy t2 then "_" +:+ t2 else t2) ->
  t1 = t2.
Proof.
  unfold truthy.
  destruct (String.eqb_spec t1 "") as [-> | H1],
           (String.eqb_spec t2 "") as [-> | H2]; simpl; intros Heq.
  - reflexivity.
  - discriminate Heq.
  - discriminate Heq.
  - exact (append_inv_head _ _ _ Heq).
Qed.

Lemma lecfn_of_name o sec secnum lecnum lecname title fmt :
  exists prefix,
    (forall t f, starts_with_sep
                   (prefix +:+ (if truthy t then "_" +:+ t else t)
                           +:+ "." +:+ f) = false) /\
    lecfn_of o sec secnum lecnum lecname title fmt
    = join2 sec (prefix +:+ (if truthy title then "_" +:+ title else title)
                        +:+ "." +:+ fmt) /\
    forall title' fmt',
      lecfn_of o sec secnum lecnum lecname title' fmt'
      = join2 sec (prefix +:+ (if truthy title' then "_" +:+ title'
                               else title')
                          +:+ "." +:+ fmt').
Proof.
  unfold lecfn_of, path_join, format_combine_number_resource, format_resource.
  cbn [fold_left].
  destruct (combined_section_lectures_nums o).
  - exists (fmt_02d (secnum + 1) +:+ "_" +:+ fmt_02d (lecnum + 1) +:+ "_"
            +:+ py_str lecname).
    repeat split; intros; rewrite ?append_assoc; try reflexivity.
    apply ordinal_not_sep.
  - exists (fmt_02d (lecnum + 1) +:+ "_" +:+ py_str lecname).
    repeat split; intros; rewrite ?append_assoc; try reflexivity.
    apply ordinal_not_sep.
Qed.

End FileNames.

(** X2. Under both naming schemes, two resources of one lecture that have the
    same title get the same file only if they have the same format key, and
    two with the same format key only if they have the same title. *)
Theorem lecfn_of_distinct `{Collaborators} (o : options) (sec : string)
    (secnum lecnum : nat) (lecname : json) (title1 title2 fmt1 fmt2 : string) :
  lecfn_of o sec secnum lecnum lecname title1 fmt1
  = lecfn_of o sec secnum lecnum lecname title2 fmt2 ->
  (title1 = title2 -> fmt1 = fmt2) /\ (fmt1 = fmt2 -> title1 = title2).
Proof.
  destruct (lecfn_of_name o sec secnum lecnum lecname title1 fmt1)
    as (prefix & Hsep & _ & Hname).
  rewrite !Hname. intros Heq.
  apply join2_inj in Heq; [ | apply Hsep | apply Hsep].
  apply append_inv_head in Heq. split.
  - intros ->. apply append_inv_head in Heq.
    exact (append_inv_head _ _ _ Heq).
  - intros ->. rewrite <- !append_assoc in Heq.
    apply append_inv_tail in Heq. apply append_inv_tail in Heq.
    apply title_suffix_inj. exact Heq.
Qed.

Lemma lecfn_of_distinct_witness :
  ("" = "" -> "mp4" = "mp4") /\ ("mp4" = "mp4" -> "" = "").
Proof.
  apply (@lecfn_of_distinct Cases.offline Cases.pdf_only "out/c/01_week01"
           0 0 (JStr "intro") "" "" "mp4" "mp4").
  reflexivity.
Defined.

(** X3. Under both naming schemes, the files of two lectures of one section
    coincide only if the lectures have the same ordinal: one lecture never
    overwrites a file of another lecture of its section. *)
Theorem lecfn_of_lecture `{Collaborators} (o : options) (sec : string)
    (secnum lecnum1 lecnum2 : nat) (lecname1 lecname2 : json)
    (title1 title2 fmt1 fmt2 : string) :
  lecfn_of o sec secnum lecnum1 lecname1 title1 fmt1
  = lecfn_of o sec secnum lecnum2 lecname2 title2 fmt2 ->
  lecnum1 = lecnum2.
Proof.
  unfold lecfn_of, path_join, format_combine_number_resource, format_resource.
  cbn [fold_left]. intros Heq.
  destruct (combined_section_lectures_nums o).
  - apply join2_inj in Heq; try apply ordinal_not_sep.
    apply append_inv_head in Heq. apply append_inv_head in Heq.
    apply digits_then_underscore in Heq as [Hn _]; try apply fmt_02d_digits.
    apply fmt_02d_inj in Hn. lia.
  - apply join2_inj in Heq; try apply ordinal_not_sep.
    apply digits_then_underscore in Heq as [Hn _]; try apply fmt_02d_digits.
    apply fmt_02d_inj in Hn. lia.
Qed.

Lemma lecfn_of_lecture_witness : (2 = 2)%nat.
Proof.
  apply (@lecfn_of_lecture Cases.offline Cases.placeholder_options
           "out/01_week1" 0 2 2 (JStr "intro") (JStr "intro") "" ""
           "mp4" "mp4").
  reflexivity.
Defined.

(** ** Seconds of a time span *)

(** X4. On a normalised time span (microseconds within one second),
    [total_seconds] is the number of whole seconds, days counted as 86400
    seconds each; the microseconds are dropped. *)
Theorem total_seconds_whole (td : timedelta) :
  0 <= microseconds td < 10 ^ 6 ->
  total_seconds td = seconds td + days td * 86400.
Proof.
  intros Hus. unfold total_seconds.
  rewrite Z.div_add by lia. rewrite Z.div_small by lia. lia.
Qed.

Lemma total_seconds_whole_witness :
  total_seconds (Timedelta 1 30 999999) = 30 + 1 * 86400.
Proof. apply total_seconds_whole. simpl. lia. Defined.

(** ** The extension of a format key *)

Lemma split_no_sep c s : contains_char c s = false -> split c s = [s].
Proof.
  induction s as [|a s IH]; simpl; [reflexivity | ].
  intros Hno. apply orb_false_elim in Hno as [Ha Hs].
  rewrite Ha, (IH Hs). reflexivity.
Qed.

Lemma split_at_first c s t :
  contains_char c s = false ->
  split c (s +:+ String c t) = s :: split c t.
Proof.
  induction s as [|a s IH]; intros Hno.
  - rewrite append_empty_l. simpl. rewrite Ascii.eqb_refl. reflexivity.
  - simpl in Hno. apply orb_false_elim in Hno as [Ha Hs].
    rewrite append_String. simpl. rewrite Ha, (IH Hs). reflexivity.
Qed.

Lemma contains_char_append c s t :
  contains_char c (s +:+ t) = contains_char c s || contains_char c t.
Proof.
  induction s as [|a s IH]; [reflexivity | ].
  rewrite append_String. simpl. rewrite IH, orb_assoc. reflexivity.
Qed.

(** X5. A key without a dot is filtered by itself, and a language-tagged key
    [lang.ext] whose language and extension have no dot is filtered by
    [ext]: the extension the selector compares with the accepted and ignored
    formats is the one the locator attached. *)
Theorem key_extension_tagged (lang ext : string) :
  contains_char "." lang = false ->
  contains_char "." ext = false ->
  key_extension ext = ext /\ key_extension (lang +:+ "." +:+ ext) = ext.
Proof.
  intros Hlang Hext. unfold key_extension. split.
  - rewrite Hext. reflexivity.
  - rewrite contains_char_append. simpl.
    rewrite orb_true_r.
    change ("." +:+ ext) with (String "." ext).
    rewrite (split_at_first _ _ _ Hlang), (split_no_sep _ _ Hext).
    reflexivity.
Qed.

Lemma key_extension_tagged_witness :
  key_extension "srt" = "srt" /\ key_extension ("pt-BR" +:+ "." +:+ "srt") = "srt".
Proof. apply key_extension_tagged; reflexivity. Defined.

(** ** Resource locator: the choice of the video *)

Lemma mapM_ok {A B} (f : A -> result B) (l : list A) (r : list B) :
  Res.mapM f l = Ok r -> Forall2 (fun x y => f x = Ok y) l r.
Proof.
  revert r. induction l as [|x l IH]; simpl; intros r Hr.
  - injection Hr as <-. constructor.
  - apply res_bind_ok in Hr as (y & Hy & Hr).
    apply res_bind_ok in Hr as (ys & Hys & Hr). injection Hr as <-.
    constructor; [exact Hy | apply IH; exact Hys].
Qed.

Lemma filterM_ok {A} (p : A -> result bool) (l r : list A) :
  Res.filterM p l = Ok r ->
  (forall x, x ∈ r <-> x ∈ l /\ p x = Ok true) /\
  (r = [] -> forall x, x ∈ l -> p x = Ok false).
Proof.
  revert r. induction l as [|y l IH]; simpl; intros r Hr.
  - injection Hr as <-. split.
    + intros x. split; [intros Hx; inversion Hx | intros [Hx _]; inversion Hx].
    + intros _ x Hx. inversion Hx.
  - apply res_bind_ok in Hr as (b & Hb & Hr).
    apply res_bind_ok in Hr as (r' & Hr' & Hr). injection Hr as <-.
    destruct (IH r' Hr') as [Hin Hnil]. split.
    + intros x. destruct b.
      * rewrite !elem_of_cons, Hin. split.
        -- intros [-> | [Hx Hp]]; [split; [left; reflexivity | exact Hb] | ].
           split; [right; exact Hx | exact Hp].
        -- intros [[-> | Hx] Hp]; [left; reflexivity | right; split; assumption].
      * rewrite Hin, elem_of_cons. split.
        -- intros [Hx Hp]. split; [right; exact Hx | exact Hp].
        -- intros [[-> | Hx] Hp]; [congruence | split; assumption].
    + destruct b; [discriminate | ]. intros Hr x Hx.
      apply elem_of_cons in Hx as [-> | Hx]; [exact Hb | exact (Hnil Hr x Hx)].
Qed.

Lemma string_ltb_leb s t : String.ltb s t = negb (String.leb t s).
Proof.
  unfold String.ltb, String.leb. rewrite (String.compare_antisym s t).
  destruct (String.compare t s); reflexivity.
Qed.

Lemma py_lt_asym a b : py_lt a b = Ok true -> py_lt b a = Ok false.
Proof.
  destruct a, b; simpl; try discriminate; intros [= Hlt]; f_equal.
  - apply Z.ltb_lt in Hlt. apply Z.ltb_ge. lia.
  - rewrite string_ltb_leb in Hlt |- *. apply negb_true_iff in Hlt.
    apply negb_false_iff.
    destruct (String.leb_total s s0) as [Hle | Hle]; congruence.
Qed.

Lemma py_lt_chain x y z :
  py_lt x y = Ok true -> py_lt z y = Ok false -> py_lt z x = Ok false.
Proof.
  destruct x, y, z; simpl; try discriminate; intros [= Hxy] [= Hzy]; f_equal.
  - apply Z.ltb_lt in Hxy. apply Z.ltb_ge in Hzy. apply Z.ltb_ge. lia.
  - rewrite string_ltb_leb in Hxy, Hzy |- *.
    apply negb_true_iff in Hxy. apply negb_false_iff in Hzy.
    apply negb_false_iff.
    destruct (String.leb_total s s1) as [Hle | Hle]; [exact Hle | ].
    exfalso.
    assert (Hyx : String.le s0 s).
    { transitivity s1; unfold String.le; [rewrite Hzy | rewrite Hle];
        exact I. }
    unfold String.le in Hyx. rewrite Hxy in Hyx. exact Hyx.
Qed.

Lemma py_lt_irrefl a : py_lt a a <> Ok true.
Proof.
  destruct a; simpl; try discriminate.
  - rewrite Z.ltb_irrefl. discriminate.
  - rewrite string_ltb_leb.
    destruct (String.leb_total s s) as [-> | ->]; discriminate.
Qed.

Lemma insert_keyed_sorted kx l l' :
  insert_keyed kx l = Ok l' ->
  StronglySorted not_after l ->
  StronglySorted not_after l' /\ l' ≡ₚ kx :: l.
Proof.
  revert l'. induction l as [|ky l IH]; simpl; intros l' Hins Hsorted.
  - injection Hins as <-. split; [ | reflexivity].
    constructor; [constructor | constructor].
  - apply res_bind_ok in Hins as (lt & Hlt & Hins).
    apply StronglySorted_inv in Hsorted as [Hsorted Hky].
    destruct lt.
    + injection Hins as <-. split; [ | reflexivity].
      constructor; [constructor; assumption | ].
      constructor; [exact (py_lt_asym _ _ Hlt) | ].
      eapply Forall_impl; [exact Hky | ].
      intros z Hz. unfold not_after in *.
      exact (py_lt_chain _ _ _ Hlt Hz).
    + apply res_bind_ok in Hins as (r & Hr & Hins). injection Hins as <-.
      destruct (IH r Hr Hsorted) as [Hr_sorted Hperm]. split.
      * constructor; [exact Hr_sorted | ].
        rewrite Hperm. constructor; [exact Hlt | exact Hky].
      * rewrite Hperm. apply perm_swap.
Qed.

Lemma insertion_sorted keyed acc sorted :
  Res.foldM (fun acc kx => insert_keyed kx acc) keyed acc = Ok sorted ->
  StronglySorted not_after acc ->
  StronglySorted not_after sorted /\ sorted ≡ₚ keyed ++ acc.
Proof.
  revert acc. induction keyed as [|kx keyed IH]; simpl; intros acc Hfold Hacc.
  - injection Hfold as <-. split; [exact Hacc | reflexivity].
  - apply res_bind_ok in Hfold as (acc' & Hins & Hfold).
    destruct (insert_keyed_sorted _ _ _ Hins Hacc) as [Hacc' Hperm].
    destruct (IH acc' Hfold Hacc') as [Hsorted Hperm'].
    split; [exact Hsorted | ].
    rewrite Hperm', Hperm. symmetry. apply Permutation_middle.
Qed.

Lemma sorted_last (l : list (json * json)) h :
  StronglySorted not_after (l ++ [h]) -> Forall (fun a => not_after a h) l.
Proof.
  induction l as [|a l IH]; simpl; intros Hsorted; [constructor | ].
  apply StronglySorted_inv in Hsorted as [Hsorted Ha].
  constructor; [ | exact (IH Hsorted)].
  apply Forall_app in Ha as [_ Ha]. apply Forall_cons in Ha as [Ha _].
  exact Ha.
Qed.

(** What [sources.sort(key=...)] followed by [sources.reverse()] leaves at
    the front: an item of the list that no item of the list exceeds. *)
Lemma sorted_reversed_first key v sorted first_source :
  sort_by key v = Ok sorted ->
  first (rev sorted) = Ok first_source ->
  exists xs k,
    v = JArr xs /\ first_source ∈ xs /\ key first_source = Ok k /\
    forall x k', x ∈ xs -> key x = Ok k' -> py_lt k k' <> Ok true.
Proof.
  unfold sort_by. destruct v as [| | | |xs|]; try discriminate.
  intros Hsort Hfirst.
  apply res_bind_ok in Hsort as (keyed & Hkeyed & Hsort).
  apply res_bind_ok in Hsort as (ksorted & Hfold & Hsort).
  injection Hsort as <-.
  destruct (insertion_sorted _ _ _ Hfold) as [Hsorted Hperm];
    [constructor | ].
  rewrite app_nil_r in Hperm.
  apply mapM_ok in Hkeyed.
  assert (Hkeys : forall kx, kx ∈ keyed -> snd kx ∈ xs /\ key (snd kx) = Ok (fst kx)).
  { clear -Hkeyed. induction Hkeyed as [|x kx xs keyed Hx _ IH].
    - intros kx Hin. inversion Hin.
    - intros kx' Hin. apply elem_of_cons in Hin as [-> | Hin].
      + apply res_bind_ok in Hx as (k & Hk & Hx). injection Hx as <-.
        split; [left | exact Hk].
      + destruct (IH kx' Hin) as [Hin' Hk]. split; [right; exact Hin' | exact Hk]. }
  assert (Hcover : forall x, x ∈ xs -> exists kx, kx ∈ keyed /\ snd kx = x).
  { clear -Hkeyed. induction Hkeyed as [|x kx xs keyed Hx _ IH].
    - intros x Hin. inversion Hin.
    - intros x' Hin. apply elem_of_cons in Hin as [-> | Hin].
      + apply res_bind_ok in Hx as (k & Hk & Hx). injection Hx as <-.
        exists (k, x). split; [left | reflexivity].
      + destruct (IH x' Hin) as (kx' & Hin' & Heq).
        exists kx'. split; [right; exact Hin' | exact Heq]. }
  rewrite <- map_rev in Hfirst.
  destruct (rev ksorted) as [|h t] eqn:Hrev; [discriminate Hfirst | ].
  simpl in Hfirst. injection Hfirst as <-.
  assert (Hksorted : ksorted = rev t ++ [h]).
  { rewrite <- (rev_involutive ksorted), Hrev. reflexivity. }
  rewrite Hksorted in Hsorted. apply sorted_last in Hsorted.
  assert (Hh : h ∈ keyed).
  { rewrite <- Hperm, Hksorted. apply elem_of_app. right. left. }
  destruct (Hkeys h Hh) as [Hin Hk].
  exists xs, (fst h). repeat split; [exact Hin | exact Hk | ].
  intros x k' Hx Hk' Hlt.
  destruct (Hcover x Hx) as (kx & Hkx & <-).
  destruct (Hkeys kx Hkx) as [_ Hk'']. rewrite Hk' in Hk''.
  injection Hk'' as ->.
  rewrite <- Hperm, Hksorted in Hkx.
  apply elem_of_app in Hkx as [Hkx | Hkx].
  - assert (Hle : not_after kx h)
      by exact (proj1 (Forall_forall _ _) Hsorted kx Hkx).
    unfold not_after in Hle. congruence.
  - apply list_elem_of_singleton in Hkx as ->.
    exact (py_lt_irrefl _ Hlt).
Qed.

Section VideoChoice.
Context `{Collaborators}.

Lemma dict_get_set_eq {V} (d : dict V) k v :
  dict_get (dict_set d k v) k = Some v.
Proof.
  induction d as [|[k0 v0] d IH]; simpl.
  - rewrite String.eqb_refl. reflexivity.
  - destruct (String.eqb k0 k) eqn:Hk; simpl; rewrite Hk; [reflexivity | exact IH].
Qed.

Lemma dict_get_set_ne {V} (d : dict V) k v k' :
  k <> k' -> dict_get (dict_set d k v) k' = dict_get d k'.
Proof.
  intros Hne. induction d as [|[k0 v0] d IH]; simpl.
  - apply String.eqb_neq in Hne. rewrite Hne. reflexivity.
  - destruct (String.eqb k0 k) eqn:Hk; simpl.
    + apply String.eqb_eq in Hk as ->.
      apply String.eqb_neq in Hne. rewrite Hne. reflexivity.
    + rewrite IH. reflexivity.
Qed.

Lemma dotted_not_mp4 s e : s +:+ "." +:+ e <> "mp4".
Proof.
  intros Heq. apply (f_equal (contains_char ".")) in Heq.
  rewrite contains_char_append in Heq. simpl in Heq.
  rewrite orb_true_r in Heq. discriminate Heq.
Qed.

(** The subtitle loop never touches the "mp4" entry. *)
Lemma gather_subtitles_keeps_video dom video_id node vars w vars' w' url :
  dict_get (fst vars) "mp4" = Some url ->
  gather_subtitles dom video_id node vars w = (Ok vars', w') ->
  dict_get (fst vars') "mp4" = Some url.
Proof.
  destruct node as [[n e] d], vars as [vc sl]. simpl. intros Hvc Hrun.
  unfold gather_subtitles in Hrun.
  apply bind_ok in Hrun as (subtitles & v1 & _ & Hrun).
  destruct (negb (is_None subtitles)); [ | returned Hrun; exact Hvc].
  destruct (String.eqb sl "all").
  - apply bind_ok in Hrun as (langs & v2 & _ & Hrun).
    apply bind_ok in Hrun as (vc' & v3 & Hloop & Hrun).
    returned Hrun. simpl.
    apply (for_each_invariant
             (fun vc : dict json => dict_get vc "mp4" = Some url))
      in Hloop; [exact Hloop | | exact Hvc].
    intros lang acc u acc' u' _ Hacc Hbody. returned Hbody. lifted.
    match goal with
    | Hkey : concat_key lang e = Ok ?key |- _ =>
        destruct lang; try discriminate Hkey; injection Hkey as <-
    end.
    rewrite dict_get_set_ne by apply dotted_not_mp4. exact Hacc.
  - apply bind_ok in Hrun as (missing & v2 & _ & Hrun).
    apply bind_ok in Hrun as (? & v3 & _ & Hrun).
    apply bind_ok in Hrun as (subtitle_url & v4 & _ & Hrun).
    destruct (negb (is_None subtitle_url)); returned Hrun; simpl;
      [ | exact Hvc].
    rewrite dict_get_set_ne by apply dotted_not_mp4. exact Hvc.
Qed.

(** Whatever the subtitles, the result has the video under "mp4". *)
Lemma get_on_demand_video_url_video video_id sl vr w video_content w' :
  get_on_demand_video_url video_id sl vr w = (Ok video_content, w') ->
  exists url, dict_get video_content "mp4" = Some url.
Proof.
  intros Hrun. unfold get_on_demand_video_url, get_page in Hrun.
  apply bind_ok in Hrun as (page & v1 & _ & Hrun).
  apply bind_ok in Hrun as (dom & v2 & _ & Hrun).
  apply bind_ok in Hrun as (sources & v3 & _ & Hrun).
  apply bind_ok in Hrun as (sorted & v4 & _ & Hrun).
  apply bind_ok in Hrun as (filtered & v5 & _ & Hrun).
  apply bind_ok in Hrun as (chosen & v6 & _ & Hrun).
  apply bind_ok in Hrun as (video_url & v7 & _ & Hrun).
  apply bind_ok in Hrun as (vars & v8 & Hloop & Hrun).
  returned Hrun. exists video_url.
  apply (for_each_invariant
           (fun vars : dict json * string =>
              dict_get (fst vars) "mp4" = Some video_url))
    in Hloop; [exact Hloop | | reflexivity].
  intros node acc u acc' u' _ Hacc Hbody.
  eapply gather_subtitles_keeps_video; eassumption.
Qed.

End VideoChoice.

(** X6. When the locator returns, its result has the key "mp4", bound to the
    video URL of one of the sources of the metadata document. If some source
    has the requested resolution, the chosen source has it; if none has, the
    chosen source is one that no source exceeds in the order the sort uses
    (strings by code point, so "720p" is above "1080p"). *)
Theorem video_choice `{Collaborators} (video_id : json)
    (subtitle_language resolution : string) (w : world)
    (video_content : dict json) (w' : world) :
  get_on_demand_video_url video_id subtitle_language resolution w
  = (Ok video_content, w') ->
  exists page dom srcs src url,
    session_get (OPENCOURSE_VIDEO_URL video_id) = Ok page /\
    json_loads page = Ok dom /\
    getitem dom "sources" = Ok (JArr srcs) /\
    src ∈ srcs /\
    video_url_of src = Ok url /\
    dict_get video_content "mp4" = Some url /\
    ((exists s, s ∈ srcs /\ has_resolution resolution s) ->
     has_resolution resolution src) /\
    ((forall s, s ∈ srcs -> ~ has_resolution resolution s) ->
     highest srcs src).
Proof.
  intros Hrun. unfold get_on_demand_video_url, get_page in Hrun.
  apply bind_ok in Hrun as (page & v1 & Hpage & Hrun).
  apply bind_ok in Hrun as (dom & v2 & Hdom & Hrun).
  apply bind_ok in Hrun as (sources & v3 & Hsources & Hrun).
  apply bind_ok in Hrun as (sorted & v4 & Hsorted & Hrun).
  apply bind_ok in Hrun as (filtered & v5 & Hfiltered & Hrun).
  apply bind_ok in Hrun as (chosen & v6 & Hchosen & Hrun).
  apply bind_ok in Hrun as (video_url & v7 & Hurl & Hrun).
  apply bind_ok in Hrun as (vars & v8 & Hloop & Hrun).
  returned Hrun. lifted.
  apply res_bind_ok in Hurl as (src & Hfirst & Hurl).
  assert (Hmp4 : dict_get (fst vars) "mp4" = Some video_url).
  { apply (for_each_invariant
             (fun vars : dict json * string =>
                dict_get (fst vars) "mp4" = Some video_url))
      in Hloop; [exact Hloop | | reflexivity].
    intros node acc u acc' u' _ Hacc Hbody.
    eapply gather_subtitles_keeps_video; eassumption. }
  destruct (filterM_ok _ _ _ Hfiltered) as [Hin Hnone].
  assert (Hperm : exists xs, sources = JArr xs /\ sorted ≡ₚ xs).
  { unfold sort_by in Hsorted. destruct sources; try discriminate.
    apply res_bind_ok in Hsorted as (keyed & Hkeyed & Hsorted).
    apply res_bind_ok in Hsorted as (ksorted & Hfold & Hsorted).
    injection Hsorted as <-.
    destruct (insertion_sorted _ _ _ Hfold) as [_ Hperm]; [constructor | ].
    rewrite app_nil_r in Hperm. eexists. split; [reflexivity | ].
    rewrite Hperm. apply mapM_ok in Hkeyed. clear -Hkeyed.
    induction Hkeyed as [|x kx xs keyed Hx _ IH]; [reflexivity | ].
    apply res_bind_ok in Hx as (k & _ & Hx). injection Hx as <-.
    simpl. rewrite IH. reflexivity. }
  destruct Hperm as (xs & -> & Hperm).
  assert (Hmatch : forall s, s ∈ rev sorted ->
             (try r <- getitem s "resolution" ;; Ok (eq_str r resolution))
             = Ok true -> has_resolution resolution s).
  { intros s _ Hs. apply res_bind_ok in Hs as (r & Hr & Hs).
    injection Hs as Hs. exists r. split; assumption. }
  assert (Hxs : forall s, s ∈ rev sorted <-> s ∈ xs).
  { intros s. rewrite <- Hperm. split; intros Hs.
    - apply list_elem_of_In, (proj2 (in_rev _ _)), list_elem_of_In. exact Hs.
    - apply list_elem_of_In, (proj1 (in_rev _ _)), list_elem_of_In. exact Hs. }
  destruct (length filtered =? 0)%nat eqn:Hlen.
  - (* no source has the requested resolution *)
    returned Hchosen.
    apply Nat.eqb_eq in Hlen. destruct filtered; [ | discriminate Hlen].
    specialize (Hnone eq_refl).
    destruct (sorted_reversed_first _ _ _ _ Hsorted Hfirst)
      as (xs' & k & [= <-] & Hsrc & Hk & Hmax).
    exists page, dom, xs, src, video_url.
    repeat split; try assumption.
    + intros (s & Hs & r & Hr & Heq). exfalso.
      apply Hxs in Hs. specialize (Hnone s Hs).
      unfold resolution_of in Hr. rewrite Hr in Hnone. simpl in Hnone.
      congruence.
    + intros _ s k1 k2 Hs Hk1 Hk2. unfold resolution_of in Hk1, Hk2.
      rewrite Hk in Hk1. injection Hk1 as <-. exact (Hmax s k2 Hs Hk2).
  - (* some source has it *)
    returned Hchosen.
    destruct filtered as [|s0 filtered]; [discriminate Hlen | ].
    simpl in Hfirst. injection Hfirst as <-.
    assert (Hs0 : s0 ∈ rev sorted /\
                  (try r <- getitem s0 "resolution" ;;
                   Ok (eq_str r resolution)) = Ok true)
      by (apply Hin; left).
    destruct Hs0 as [Hs0 Hres].
    exists page, dom, xs, s0, video_url.
    repeat split; try assumption.
    + apply Hxs. exact Hs0.
    + intros _. exact (Hmatch s0 Hs0 Hres).
    + intros Hno. exfalso. apply (Hno s0); [apply Hxs; exact Hs0 | ].
      exact (Hmatch s0 Hs0 Hres).
Qed.

Lemma video_choice_witness :
  exists page dom srcs src url,
    @session_get Cases.online (@OPENCOURSE_VIDEO_URL Cases.online (JStr "v2"))
    = Ok page /\
    @json_loads Cases.online page = Ok dom /\
    getitem dom "sources" = Ok (JArr srcs) /\
    src ∈ srcs /\
    video_url_of src = Ok url /\
    dict_get [("mp4", JStr "http://x/2.mp4")] "mp4" = Some url /\
    ((exists s, s ∈ srcs /\ has_resolution "540p" s) ->
     has_resolution "540p" src) /\
    ((forall s, s ∈ srcs -> ~ has_resolution "540p" s) -> highest srcs src).
Proof.
  eapply (@video_choice Cases.online (JStr "v2") "fr" "540p" Demo.start
            [("mp4", JStr "http://x/2.mp4")]).
  vm_compute. reflexivity.
Defined.

(** ** Resource resolution and parsing: effects *)

Section Quiet.
Context `{Collaborators}.

Lemma quiet_ret {A} P (a : A) : quiet P (ret a).
Proof.
  intros w r w' [= <- <-]. repeat split. exists [].
  split; [symmetry; apply app_nil_r | constructor].
Qed.

Lemma quiet_lift {A} P (x : result A) : quiet P (lift x).
Proof.
  intros w r w' [= <- <-]. repeat split. exists [].
  split; [symmetry; apply app_nil_r | constructor].
Qed.

Lemma quiet_emit (P : event -> Prop) e : P e -> quiet P (emit e).
Proof.
  intros He w r w' [= <- <-]. repeat split. exists [e].
  split; [reflexivity | constructor; [exact He | constructor]].
Qed.

Lemma quiet_bind {A B} P (m : M A) (k : A -> M B) :
  quiet P m -> (forall a, quiet P (k a)) -> quiet P (bind m k).
Proof.
  intros Hm Hk w r w' Hrun. unfold bind in Hrun.
  destruct (m w) as [[a|e] w1] eqn:Hfirst.
  - destruct (Hm _ _ _ Hfirst) as (Hfs1 & Ht1 & evs1 & Hlog1 & Hevs1).
    destruct (Hk a _ _ _ Hrun) as (Hfs2 & Ht2 & evs2 & Hlog2 & Hevs2).
    split; [congruence | ]. split; [congruence | ].
    exists (evs1 ++ evs2). rewrite Hlog2, Hlog1, app_assoc.
    split; [reflexivity | apply Forall_app; split; assumption].
  - injection Hrun as <- <-. exact (Hm _ _ _ Hfirst).
Qed.

Lemma quiet_for_each {A S} P (body : A -> S -> M S) (l : list A) :
  (forall x acc, quiet P (body x acc)) ->
  forall acc, quiet P (for_each l body acc).
Proof.
  intros Hbody. induction l as [|x l IH]; intros acc; simpl.
  - apply quiet_ret.
  - apply quiet_bind; [apply Hbody | exact IH].
Qed.

Lemma quiet_weaken {A} (P Q : event -> Prop) (m : M A) :
  (forall e, P e -> Q e) -> quiet P m -> quiet Q m.
Proof.
  intros HPQ Hm w r w' Hrun.
  destruct (Hm _ _ _ Hrun) as (Hfs & Ht & evs & Hlog & Hevs).
  repeat split; try assumption. exists evs.
  split; [exact Hlog | eapply Forall_impl; eassumption].
Qed.

Ltac quiet_step :=
  first
    [ apply quiet_ret
    | apply quiet_lift
    | apply quiet_bind; [ | intros ? ]
    | apply quiet_for_each; intros ? ?
    | match goal with
      | |- quiet _ (if ?b then _ else _) => destruct b
      end ].

(** The subtitle loop logs nothing but fallback warnings for this video. *)
Lemma gather_subtitles_quiet dom video_id node vars :
  quiet (fun e => exists d l, e = Warn_fallback d l video_id)
        (gather_subtitles dom video_id node vars).
Proof.
  destruct node as [[n e] d], vars as [vc sl]. unfold gather_subtitles.
  repeat first [ apply quiet_emit; eauto | quiet_step ].
Qed.

Lemma get_on_demand_video_url_quiet video_id sl vr :
  quiet (fun e => is_warning e = true)
        (get_on_demand_video_url video_id sl vr).
Proof.
  unfold get_on_demand_video_url, get_page.
  repeat first
    [ apply quiet_emit; reflexivity
    | eapply quiet_weaken; [ | apply gather_subtitles_quiet];
      intros ? (? & ? & ->); reflexivity
    | quiet_step ].
Qed.

Lemma parse_lecture_quiet sl vr lecture lectures :
  quiet (fun e => is_warning e = true) (parse_lecture sl vr lecture lectures).
Proof.
  unfold parse_lecture.
  repeat first [ apply get_on_demand_video_url_quiet | quiet_step ].
Qed.

Lemma parse_section_quiet sl vr section sections :
  quiet (fun e => is_warning e = true) (parse_section sl vr section sections).
Proof.
  unfold parse_section.
  repeat first [ apply parse_lecture_quiet | quiet_step ].
Qed.

Lemma parse_module_quiet sl vr module modules :
  quiet (fun e => is_warning e = true) (parse_module sl vr module modules).
Proof.
  unfold parse_module.
  repeat first [ apply parse_section_quiet | quiet_step ].
Qed.

End Quiet.



(** X8. When the locator returns, the warning about the requested resolution
    is among the events it logged exactly when no source of the metadata
    document has that resolution. *)
Theorem resolution_warning `{Collaborators} (video_id : json)
    (subtitle_language resolution : string) (w : world)
    (video_content : dict json) (w' : world)
    (page : string) (dom : json) (srcs : list json) :
  get_on_demand_video_url video_id subtitle_language resolution w
  = (Ok video_content, w') ->
  session_get (OPENCOURSE_VIDEO_URL video_id) = Ok page ->
  json_loads page = Ok dom ->
  getitem dom "sources" = Ok (JArr srcs) ->
  exists evs,
    log w' = log w ++ evs /\
    (Warn_resolution resolution video_id ∈ evs <->
     forall s, s ∈ srcs -> ~ has_resolution resolution s).
Proof.
  intros Hrun Hpage' Hdom' Hsources'.
  unfold get_on_demand_video_url, get_page in Hrun.
  apply bind_ok in Hrun as (page0 & v1 & Hpage & Hrun).
  apply bind_ok in Hrun as (dom0 & v2 & Hdom & Hrun).
  apply bind_ok in Hrun as (sources & v3 & Hsources & Hrun).
  apply bind_ok in Hrun as (sorted & v4 & Hsorted & Hrun).
  apply bind_ok in Hrun as (filtered & v5 & Hfiltered & Hrun).
  apply bind_ok in Hrun as (chosen & v6 & Hchosen & Hrun).
  apply bind_ok in Hrun as (video_url & v7 & Hurl & Hrun).
  apply bind_ok in Hrun as (vars & v8 & Hloop & Hrun).
  returned Hrun. lifted. subst.
  rewrite Hpage' in Hpage. injection Hpage as <-.
  rewrite Hdom' in Hdom. injection Hdom as <-.
  rewrite Hsources' in Hsources. injection Hsources as <-.
  assert (Hquiet : exists evs,
             log v8 = log v6 ++ evs /\
             Forall (fun e => exists d l, e = Warn_fallback d l video_id) evs).
  { eapply (quiet_for_each _ (gather_subtitles dom video_id) subtitle_nodes);
      [ | exact Hloop].
    intros node vars0. apply gather_subtitles_quiet. }
  destruct Hquiet as (evs & Hlog & Hevs).
  assert (Hnot : ~ Warn_resolution resolution video_id ∈ evs).
  { intros Hin. apply (proj1 (Forall_forall _ _) Hevs) in Hin
      as (d & l & Heq). discriminate Heq. }
  assert (Hperm : forall s, s ∈ rev sorted <-> s ∈ srcs).
  { unfold sort_by in Hsorted.
    apply res_bind_ok in Hsorted as (keyed & Hkeyed & Hsorted).
    apply res_bind_ok in Hsorted as (ksorted & Hfold & Hsorted).
    injection Hsorted as <-.
    destruct (insertion_sorted _ _ _ Hfold) as [_ Hperm]; [constructor | ].
    rewrite app_nil_r in Hperm.
    assert (Hsnd : map snd keyed = srcs).
    { apply mapM_ok in Hkeyed. clear -Hkeyed.
      induction Hkeyed as [|x kx xs keyed Hx _ IH]; [reflexivity | ].
      apply res_bind_ok in Hx as (k & _ & Hx). injection Hx as <-.
      simpl. rewrite IH. reflexivity. }
    intros s. rewrite <- Hsnd, <- Hperm. split; intros Hs.
    - apply list_elem_of_In, (proj2 (in_rev _ _)), list_elem_of_In. exact Hs.
    - apply list_elem_of_In, (proj1 (in_rev _ _)), list_elem_of_In. exact Hs. }
  destruct (filterM_ok _ _ _ Hfiltered) as [Hin Hnone].
  destruct (length filtered =? 0)%nat eqn:Hlen.
  - apply Nat.eqb_eq in Hlen. destruct filtered; [ | discriminate Hlen].
    unfold bind, emit, ret in Hchosen. simpl in Hchosen.
    injection Hchosen as <- <-. simpl in Hlog.
    exists (Warn_resolution resolution video_id :: evs).
    split; [rewrite Hlog, <- app_assoc; reflexivity | ].
    split; [ | intros _; left].
    intros _ s Hs (r & Hr & Heq).
    apply Hperm in Hs. specialize (Hnone eq_refl s Hs).
    unfold resolution_of in Hr. rewrite Hr in Hnone. simpl in Hnone.
    congruence.
  - unfold ret in Hchosen. injection Hchosen as <- <-.
    exists evs. split; [exact Hlog | ].
    split; [intros Hwarn; exfalso; exact (Hnot Hwarn) | ].
    intros Hno. exfalso.
    destruct filtered as [|s0 filtered]; [discriminate Hlen | ].
    destruct (proj1 (Hin s0)) as [Hs0 Hres]; [left | ].
    apply (Hno s0); [apply Hperm; exact Hs0 | ].
    apply res_bind_ok in Hres as (r & Hr & Hres). injection Hres as Hres.
    exists r. split; assumption.
Qed.

Lemma resolution_warning_witness :
  exists evs,
    log (snd (@get_on_demand_video_url Cases.online (JStr "v2") "fr" "540p"
                Demo.start))
    = log Demo.start ++ evs /\
    (Warn_resolution "540p" (JStr "v2") ∈ evs <->
     forall s,
       s ∈ [JObj [("resolution", JStr "360p");
                  ("formatSources",
                   JObj [("video/mp4", JStr "http://x/2.mp4")])]] ->
       ~ has_resolution "540p" s).
Proof.
  apply (@resolution_warning Cases.online (JStr "v2") "fr" "540p" Demo.start
           [("mp4", JStr "http://x/2.mp4")]
           (snd (@get_on_demand_video_url Cases.online (JStr "v2") "fr"
                   "540p" Demo.start))
           "video/v2" (Demo.video "360p" "http://x/2.mp4" [])).
  - vm_compute. reflexivity.
  - reflexivity.
  - reflexivity.
  - reflexivity.
Defined.

(** ** Resource locator: every language *)

Lemma append_inv_tail_len s t u v :
  String.length u = String.length v -> s +:+ u = t +:+ v -> s = t /\ u = v.
Proof.
  intros Hlen. revert t. induction s as [|a s IH]; intros [|b t] Heq.
  - rewrite !append_empty_l in Heq. split; [reflexivity | exact Heq].
  - apply (f_equal String.length) in Heq.
    rewrite append_empty_l, length_append in Heq. simpl in Heq. lia.
  - apply (f_equal String.length) in Heq.
    rewrite append_empty_l, length_append in Heq. simpl in Heq. lia.
  - rewrite !append_String in Heq. injection Heq as -> Heq.
    destruct (IH t Heq) as [-> ->]. split; reflexivity.
Qed.

Lemma dict_get_elem {V} (d : dict V) k v :
  NoDup (map fst d) -> (k, v) ∈ d -> dict_get d k = Some v.
Proof.
  induction d as [|[k0 v0] d IH]; simpl; intros Hnodup Hin.
  - inversion Hin.
  - apply NoDup_cons in Hnodup as [Hk0 Hnodup].
    apply elem_of_cons in Hin as [[= -> ->] | Hin].
    + rewrite String.eqb_refl. reflexivity.
    + destruct (String.eqb_spec k0 k) as [-> | Hne].
      * exfalso. apply Hk0. apply list_elem_of_In, in_map_iff.
        exists (k, v). split; [reflexivity | apply list_elem_of_In; exact Hin].
      * exact (IH Hnodup Hin).
Qed.

Section AllLanguages.
Context `{Collaborators}.

Lemma add_languages subs e (l : list (string * json)) acc w acc' w' :
  for_each (map (fun kv => JStr (fst kv)) l) (add_language (JObj subs) e)
           acc w = (Ok acc', w') ->
  (forall k, (forall lang, lang ∈ map fst l -> k <> lang +:+ "." +:+ e) ->
             dict_get acc' k = dict_get acc k) /\
  (NoDup (map fst l) ->
   forall lang, lang ∈ map fst l ->
     exists absolute,
       make_coursera_absolute_url (default JNull (dict_get subs lang))
       = Ok absolute /\
       dict_get acc' (lang +:+ "." +:+ e) = Some absolute).
Proof.
  revert acc w. induction l as [|[lang0 u0] l IH]; intros acc w Hrun.
  - simpl in Hrun. returned Hrun.
    split; [reflexivity | intros _ lang Hin; inversion Hin].
  - cbn [map for_each fst] in Hrun.
    apply bind_ok in Hrun as (acc1 & w1 & Hbody & Hrun).
    destruct (IH _ _ Hrun) as [Hkeep Hset].
    unfold add_language in Hbody. returned Hbody. lifted.
    match goal with
    | Hu : py_get _ _ = Ok _, Ha : make_coursera_absolute_url _ = Ok ?a,
      Hk : concat_key _ _ = Ok _ |- _ =>
        simpl in Hu, Hk; injection Hu as <-; injection Hk as <-;
        rename Ha into Habs
    end.
    split.
    + intros k Hk. rewrite Hkeep.
      * apply dict_get_set_ne. intros Heq.
        apply (Hk lang0); [left | symmetry; exact Heq].
      * intros lang Hlang. apply Hk. right. exact Hlang.
    + intros Hnodup lang Hlang. cbn [map fst] in Hnodup.
      apply NoDup_cons in Hnodup as [Hfresh Hnodup].
      apply elem_of_cons in Hlang as [-> | Hlang].
      * eexists. split; [exact Habs | ].
        rewrite Hkeep; [apply dict_get_set_eq | ].
        intros lang Hlang Heq. cbn [fst] in Heq.
        apply append_inv_tail in Heq as <-. exact (Hfresh Hlang).
      * exact (Hset Hnodup lang Hlang).
Qed.

(** With the selector "all", a round of the subtitle loop leaves every key
    that does not end in its extension as it was. *)
Lemma gather_all_keeps dom video_id n e d vc w vc' sl' w' :
  gather_subtitles dom video_id (n, e, d) (vc, "all") w
  = (Ok (vc', sl'), w') ->
  sl' = "all" /\
  forall k, (forall lang, k <> lang +:+ "." +:+ e) ->
            dict_get vc' k = dict_get vc k.
Proof.
  intros Hrun. unfold gather_subtitles in Hrun.
  apply bind_ok in Hrun as (subtitles & v1 & _ & Hrun).
  destruct (negb (is_None subtitles));
    [ | returned Hrun; split; reflexivity].
  cbn [String.eqb Ascii.eqb Bool.eqb] in Hrun.
  apply bind_ok in Hrun as (langs & v2 & Hiter & Hrun).
  apply bind_ok in Hrun as (vc1 & v3 & Hloop & Hrun).
  returned Hrun. split; [reflexivity | ]. intros k Hk.
  apply lift_ok in Hiter as [Hiter _].
  destruct subtitles as [| | | | |subs]; simpl in Hiter;
    try discriminate Hiter; injection Hiter as <-.
  - destruct s as [|a s]; simpl in Hloop; [returned Hloop; reflexivity | ].
    apply bind_ok in Hloop as (? & ? & Hbody & _). returned Hbody. lifted.
    discriminate.
  - destruct xs as [|x xs]; simpl in Hloop; [returned Hloop; reflexivity | ].
    apply bind_ok in Hloop as (? & ? & Hbody & _). returned Hbody. lifted.
    discriminate.
  - destruct (add_languages _ _ _ _ _ _ _ Hloop) as [Hkeep _].
    apply Hkeep. intros lang _. apply Hk.
Qed.

End AllLanguages.

Section AllLanguagesMain.
Context `{Collaborators}.

Lemma gather_all_adds dom video_id n e d vc w vc' sl' w' subs :
  gather_subtitles dom video_id (n, e, d) (vc, "all") w
  = (Ok (vc', sl'), w') ->
  py_get dom (JStr n) = Ok (JObj subs) ->
  NoDup (map fst subs) ->
  forall lang url, (lang, url) ∈ subs ->
    exists absolute,
      make_coursera_absolute_url url = Ok absolute /\
      dict_get vc' (lang +:+ "." +:+ e) = Some absolute.
Proof.
  intros Hrun Hsubs Hnodup lang url Hin. unfold gather_subtitles in Hrun.
  apply bind_ok in Hrun as (subtitles & v1 & Hget & Hrun).
  apply lift_ok in Hget as [Hget _]. rewrite Hsubs in Hget.
  injection Hget as <-. cbn [is_None negb String.eqb Ascii.eqb Bool.eqb] in Hrun.
  apply bind_ok in Hrun as (langs & v2 & Hiter & Hrun).
  apply bind_ok in Hrun as (vc1 & v3 & Hloop & Hrun).
  returned Hrun. apply lift_ok in Hiter as [Hiter _].
  simpl in Hiter. injection Hiter as <-.
  destruct (add_languages _ _ _ _ _ _ _ Hloop) as [_ Hset].
  destruct (Hset Hnodup lang) as (absolute & Habs & Hkey).
  - apply list_elem_of_In, in_map_iff. exists (lang, url).
    split; [reflexivity | apply list_elem_of_In; exact Hin].
  - rewrite (dict_get_elem _ _ _ Hnodup Hin) in Habs.
    exists absolute. split; [exact Habs | exact Hkey].
Qed.

End AllLanguagesMain.

(** X9. With the selector "all", when the locator returns, every language of
    the subtitles (and of the transcripts) of the metadata document has its
    entry: the key is the language, a dot and the extension of the kind, and
    the value is the URL made absolute. *)
Theorem all_languages `{Collaborators} (video_id : json)
    (resolution : string) (w : world) (video_content : dict json)
    (w' : world) (page : string) (dom : json)
    (node ext description : string) (subs : list (string * json))
    (lang : string) (url : json) :
  get_on_demand_video_url video_id "all" resolution w
  = (Ok video_content, w') ->
  session_get (OPENCOURSE_VIDEO_URL video_id) = Ok page ->
  json_loads page = Ok dom ->
  (node, ext, description) ∈ subtitle_nodes ->
  py_get dom (JStr node) = Ok (JObj subs) ->
  NoDup (map fst subs) ->
  (lang, url) ∈ subs ->
  exists absolute,
    make_coursera_absolute_url url = Ok absolute /\
    dict_get video_content (lang +:+ "." +:+ ext) = Some absolute.
Proof.
  intros Hrun Hpage' Hdom' Hnode Hsubs Hnodup Hin.
  unfold get_on_demand_video_url, get_page in Hrun.
  apply bind_ok in Hrun as (page0 & v1 & Hpage & Hrun).
  apply bind_ok in Hrun as (dom0 & v2 & Hdom & Hrun).
  apply bind_ok in Hrun as (sources & v3 & _ & Hrun).
  apply bind_ok in Hrun as (sorted & v4 & _ & Hrun).
  apply bind_ok in Hrun as (filtered & v5 & _ & Hrun).
  apply bind_ok in Hrun as (chosen & v6 & _ & Hrun).
  apply bind_ok in Hrun as (video_url & v7 & _ & Hrun).
  apply bind_ok in Hrun as (vars & v8 & Hloop & Hrun).
  returned Hrun. lifted.
  rewrite Hpage' in Hpage. injection Hpage as <-.
  rewrite Hdom' in Hdom. injection Hdom as <-.
  unfold subtitle_nodes in Hloop. cbn [for_each] in Hloop.
  apply bind_ok in Hloop as ([vc1 sl1] & u1 & Hsrt & Hloop).
  apply bind_ok in Hloop as ([vc2 sl2] & u2 & Htxt & Hloop).
  returned Hloop. simpl.
  destruct (gather_all_keeps _ _ _ _ _ _ _ _ _ _ Hsrt) as [-> _].
  destruct (gather_all_keeps _ _ _ _ _ _ _ _ _ _ Htxt) as [_ Hkeep].
  apply elem_of_cons in Hnode as [[= -> -> ->] | Hnode].
  - destruct (gather_all_adds _ _ _ _ _ _ _ _ _ _ _ Hsrt Hsubs Hnodup
                lang url Hin) as (absolute & Habs & Hkey).
    exists absolute. split; [exact Habs | ].
    rewrite Hkeep; [exact Hkey | ].
    intros lang' Heq. rewrite <- !append_assoc in Heq.
    apply append_inv_tail_len in Heq as [_ Heq]; [discriminate | reflexivity].
  - apply list_elem_of_singleton in Hnode. injection Hnode as -> -> ->.
    exact (gather_all_adds _ _ _ _ _ _ _ _ _ _ _ Htxt Hsubs Hnodup
             lang url Hin).
Qed.

Lemma all_languages_witness :
  exists absolute,
    @make_coursera_absolute_url Cases.online (JStr "/fr.srt") = Ok absolute /\
    dict_get
      [("mp4", JStr "http://x/v.mp4");
       ("fr.srt", JStr "https://www.coursera.org/fr.srt");
       ("en.srt", JStr "https://www.coursera.org/en.srt")]
      ("fr" +:+ "." +:+ "srt")
    = Some absolute.
Proof.
  eapply (@all_languages Cases.online (JStr "v1") "540p" Demo.start _ _
            "video/v1"
            (Demo.video "540p" "http://x/v.mp4"
               [("fr", JStr "/fr.srt"); ("en", JStr "/en.srt")])
            "subtitles" "srt" "subtitle"
            [("fr", JStr "/fr.srt"); ("en", JStr "/en.srt")]
            "fr" (JStr "/fr.srt")).
  - vm_compute. reflexivity.
  - reflexivity.
  - reflexivity.
  - left.
  - reflexivity.
  - apply NoDup_cons. split; [ | apply NoDup_singleton].
    intros Hin. apply list_elem_of_singleton in Hin. discriminate Hin.
  - left.
Defined.

(** ** Syllabus parser: what is retained *)

Section Retained.
Context `{Collaborators}.

Lemma dict_get_in {V} (d : dict V) k v : dict_get d k = Some v -> (k, v) ∈ d.
Proof.
  induction d as [|[k0 v0] d IH]; simpl; [discriminate | ].
  destruct (String.eqb_spec k0 k) as [-> | Hne].
  - intros [= ->]. left.
  - intros Hget. right. exact (IH Hget).
Qed.

Lemma lecture_content_has (video_content : dict json) (acc : lecture_content)
    k :
  (exists v, (k, v) ∈ video_content) \/ (exists u, dict_get acc k = Some [(u, "")]) ->
  exists u : json,
    dict_get (fold_left (fun acc kv => dict_set acc (fst kv) [(snd kv, "")])
                        video_content acc) k
    = Some [(u, "")].
Proof.
  revert acc. induction video_content as [|[k0 v0] vc IH]; intros acc Hk.
  - destruct Hk as [[v Hin] | Hacc]; [inversion Hin | exact Hacc].
  - simpl. apply IH.
    destruct (String.eqb_spec k0 k) as [-> | Hne].
    + right. exists v0. apply dict_get_set_eq.
    + destruct Hk as [[v Hin] | [u Hacc]].
      * apply elem_of_cons in Hin as [[= <- _] | Hin]; [congruence | ].
        left. exists v. exact Hin.
      * right. exists u. rewrite dict_get_set_ne by exact Hne. exact Hacc.
Qed.

Lemma nonempty_false {A} (l : list A) : nonempty l = false -> l = [].
Proof. destruct l; [reflexivity | discriminate]. Qed.

Lemma parse_tree_lectures (Q : lecture_entry -> Prop) sl vr :
  (forall lecture lectures w lectures' w',
      Forall Q lectures ->
      parse_lecture sl vr lecture lectures w = (Ok lectures', w') ->
      Forall Q lectures') ->
  forall page reverse intact w tree w',
    parse_on_demand_syllabus page reverse intact sl vr w = (Ok tree, w') ->
    forall m s l, m ∈ tree -> s ∈ snd m -> l ∈ snd s -> Q l.
Proof.
  intros Hlecture page reverse intact w tree w' Hrun.
  assert (Htree : Forall (fun m : module_entry =>
                            Forall (fun s : section_entry =>
                                      Forall Q (snd s)) (snd m)) tree).
  { unfold parse_on_demand_syllabus in Hrun.
    apply bind_ok in Hrun as (dom & v1 & _ & Hrun).
    apply bind_ok in Hrun as (json_modules & v2 & _ & Hrun).
    apply bind_ok in Hrun as (modules & v3 & Hmodules & Hrun).
    returned Hrun.
    assert (Hall : Forall (fun m : module_entry =>
                             Forall (fun s : section_entry =>
                                       Forall Q (snd s)) (snd m)) modules).
    { eapply (for_each_invariant _ _ _ _ _ _ _ _ _ Hmodules). Unshelve.
      - intros module acc u acc' u' _ Hacc Hmod. unfold parse_module in Hmod.
        apply bind_ok in Hmod as (slug & u1 & _ & Hmod).
        apply bind_ok in Hmod as (json_sections & u2 & _ & Hmod).
        apply bind_ok in Hmod as (sections & u3 & Hsections & Hmod).
        assert (Hsecs : Forall (fun s : section_entry => Forall Q (snd s))
                               sections).
        { eapply (for_each_invariant _ _ _ _ _ _ _ _ _ Hsections). Unshelve.
          - intros section sacc x sacc' x' _ Hsacc Hsec.
            unfold parse_section in Hsec.
            apply bind_ok in Hsec as (sslug & x1 & _ & Hsec).
            apply bind_ok in Hsec as (json_lectures & x2 & _ & Hsec).
            apply bind_ok in Hsec as (lectures & x3 & Hlectures & Hsec).
            assert (Hlecs : Forall Q lectures).
            { eapply (for_each_invariant _ _ _ _ _ _ _ _ _ Hlectures).
              Unshelve.
              - intros lecture lacc y lacc' y' _. apply Hlecture.
              - constructor. }
            destruct (nonempty lectures); returned Hsec; [ | exact Hsacc].
            apply Forall_app. split; [exact Hsacc | ].
            constructor; [exact Hlecs | constructor].
          - constructor. }
        destruct (nonempty sections); returned Hmod; [ | exact Hacc].
        apply Forall_app. split; [exact Hacc | ].
        constructor; [exact Hsecs | constructor].
      - constructor. }
    destruct (nonempty modules && reverse); [apply Forall_rev | ];
      exact Hall. }
  intros m s l Hm Hs Hl.
  pose proof (proj1 (Forall_forall _ _) Htree m Hm) as Hsecs.
  pose proof (proj1 (Forall_forall _ _) Hsecs s Hs) as Hlecs.
  exact (proj1 (Forall_forall _ _) Hlecs l Hl).
Qed.

End Retained.

(** X10. An item of the syllabus is resolved and retained exactly when its
    type is "lecture": when the parser gets past an item of another type it
    has kept the list and the world as they were, without any request; when
    it gets past a lecture it has appended exactly one entry, under the
    item's slug, and that entry has a video under "mp4". *)
Theorem parse_lecture_retained `{Collaborators}
    (subtitle_language video_resolution : string) (lecture : json)
    (lectures : list lecture_entry) (w : world)
    (lectures' : list lecture_entry) (w' : world) :
  parse_lecture subtitle_language video_resolution lecture lectures w
  = (Ok lectures', w') ->
  exists slug tn,
    getitem lecture "slug" = Ok slug /\ type_name_of lecture = Ok tn /\
    if eq_str tn "lecture"
    then exists content url,
           lectures' = lectures ++ [(slug, content)] /\
           dict_get content "mp4" = Some [(url, "")]
    else lectures' = lectures /\ w' = w.
Proof.
  intros Hrun. unfold parse_lecture in Hrun.
  apply bind_ok in Hrun as (slug & v1 & Hslug & Hrun).
  apply bind_ok in Hrun as (tn & v2 & Htn & Hrun).
  apply lift_ok in Hslug as [Hslug ->], Htn as [Htn ->].
  exists slug, tn. split; [exact Hslug | ]. split; [exact Htn | ].
  destruct (eq_str tn "lecture").
  - apply bind_ok in Hrun as (video_id & v3 & _ & Hrun).
    apply bind_ok in Hrun as (video_content & v4 & Hloc & Hrun).
    destruct (get_on_demand_video_url_video _ _ _ _ _ _ Hloc) as [url Hmp4].
    destruct (lecture_content_has video_content [] "mp4") as [u Hu].
    { left. exists url. apply dict_get_in. exact Hmp4. }
    match type of Hrun with
    | (if ?b then _ else _) _ = _ => destruct b eqn:Hne
    end; returned Hrun.
    + eexists _, u. split; [reflexivity | exact Hu].
    + exfalso. apply nonempty_false in Hne.
      pose proof (eq_trans (eq_sym (f_equal (fun c => dict_get c "mp4") Hne))
                    Hu) as Habs.
      discriminate Habs.
  - returned Hrun. split; reflexivity.
Qed.

Lemma parse_lecture_retained_witness :
  exists slug tn,
    getitem (Demo.item "intro" "lecture" "v1") "slug" = Ok slug /\
    type_name_of (Demo.item "intro" "lecture" "v1") = Ok tn /\
    if eq_str tn "lecture"
    then exists content url,
           value_or [] (fst MoreCases.parsed_intro) = [] ++ [(slug, content)] /\
           dict_get content "mp4" = Some [(url, "")]
    else value_or [] (fst MoreCases.parsed_intro) = [] /\
         snd MoreCases.parsed_intro = Demo.start.
Proof.
  apply (@parse_lecture_retained Cases.online "en" "540p"
           (Demo.item "intro" "lecture" "v1") [] Demo.start).
  vm_compute. reflexivity.
Defined.

(** ** Parsed lectures and their files *)

Section ParsedFiles.
Context `{Collaborators}.

Lemma dict_set_nodup {V} (d : dict V) k v :
  NoDup (map fst d) -> NoDup (map fst (dict_set d k v)).
Proof.
  induction d as [|[k0 v0] d IH]; simpl; intros Hnodup.
  - apply NoDup_singleton.
  - apply NoDup_cons in Hnodup as [Hfresh Hnodup].
    destruct (String.eqb_spec k0 k) as [-> | Hne]; simpl.
    + apply NoDup_cons. split; assumption.
    + apply NoDup_cons. split; [ | exact (IH Hnodup)].
      intros Hin. apply dict_set_key in Hin as [-> | Hin];
        [exact (Hne eq_refl) | exact (Hfresh Hin)].
Qed.

Lemma lecture_content_nodup (video_content : dict json)
    (acc : lecture_content) :
  NoDup (map fst acc) ->
  NoDup (map fst (fold_left
                    (fun acc kv => dict_set acc (fst kv) [(snd kv, "")])
                    video_content acc)).
Proof.
  revert acc. induction video_content as [|kv vc IH]; intros acc Hacc.
  - exact Hacc.
  - simpl. apply IH, dict_set_nodup, Hacc.
Qed.

Lemma parse_lecture_attached sl vr lecture lectures w lectures' w' :
  Forall attached lectures ->
  parse_lecture sl vr lecture lectures w = (Ok lectures', w') ->
  Forall attached lectures'.
Proof.
  intros Hacc Hrun. unfold parse_lecture in Hrun.
  apply bind_ok in Hrun as (slug & v1 & _ & Hrun).
  apply bind_ok in Hrun as (tn & v2 & _ & Hrun).
  destruct (eq_str tn "lecture"); [ | returned Hrun; exact Hacc].
  apply bind_ok in Hrun as (video_id & v3 & _ & Hrun).
  apply bind_ok in Hrun as (video_content & v4 & Hloc & Hrun).
  match type of Hrun with
  | (if ?b then _ else _) _ = _ => destruct b
  end; returned Hrun; [ | exact Hacc].
  apply Forall_app. split; [exact Hacc | ].
  constructor; [ | constructor]. split; [ | split]; simpl.
  - apply lecture_content_nodup. constructor.
  - apply lecture_video_content_values. intros k rs Hin. inversion Hin.
  - destruct (get_on_demand_video_url_video _ _ _ _ _ _ Hloc) as [url Hmp4].
    apply lecture_content_has. left. exists url. apply dict_get_in.
    exact Hmp4.
Qed.

Lemma lecfn_of_untitled_inj o sec secnum lecnum lecname fmt1 fmt2 :
  lecfn_of o sec secnum lecnum lecname "" fmt1
  = lecfn_of o sec secnum lecnum lecname "" fmt2 ->
  fmt1 = fmt2.
Proof.
  destruct (lecfn_of_name o sec secnum lecnum lecname "" fmt1)
    as (prefix & Hsep & _ & Hname).
  rewrite !Hname. intros Heq.
  apply join2_inj in Heq; [ | apply Hsep | apply Hsep].
  apply append_inv_head in Heq. apply append_inv_head in Heq.
  exact (append_inv_head _ _ _ Heq).
Qed.

(** On untitled one-resource keys the selector returns at most one target
    per key, under that key. *)
Lemma selected_untitled F rf ign (content : lecture_content) fmt url title :
  (forall k rs, (k, rs) ∈ content -> exists u : json, rs = [(u, "")]) ->
  (fmt, url, title) ∈ flat_map (selected_of F rf ign) content ->
  title = "" /\ fmt ∈ map fst content.
Proof.
  intros Hshape Hin.
  apply list_elem_of_In, in_flat_map in Hin as ([k rs] & Hitem & Hsel).
  apply list_elem_of_In in Hitem.
  destruct (Hshape k rs Hitem) as [u ->].
  unfold selected_of in Hsel. simpl in Hsel.
  destruct (bool_decide _); [destruct Hsel | ].
  destruct (_ || _); [ | destruct Hsel].
  simpl in Hsel. rewrite filtered_out_untitled in Hsel.
  destruct Hsel as [[= <- <- <-] | []].
  split; [reflexivity | ].
  apply list_elem_of_In, in_map_iff. exists (k, [(u, "")]).
  split; [reflexivity | apply list_elem_of_In; exact Hitem].
Qed.

Lemma lecture_files_nodup o sec secnum lecnum (l : lecture_entry) :
  attached l -> NoDup (lecture_files o sec secnum lecnum l).
Proof.
  intros (Hnodup & Hshape & _). unfold lecture_files.
  rewrite find_resources_to_get_flat.
  generalize (default [] (ignored_formats o)). intros ign.
  destruct l as [lecname content]. simpl in *.
  induction content as [|[k rs] content IH]; [constructor | ].
  simpl in Hnodup. apply NoDup_cons in Hnodup as [Hfresh Hnodup].
  assert (Hrest : forall k' rs', (k', rs') ∈ content ->
                                 exists u : json, rs' = [(u, "")]).
  { intros k' rs' Hin. apply (Hshape k' rs'). right. exact Hin. }
  specialize (IH Hnodup Hrest).
  destruct (Hshape k rs) as [u ->]; [left | ].
  cbn [flat_map]. rewrite map_app. unfold selected_of at 1. simpl.
  destruct (bool_decide _); [exact IH | ].
  destruct (_ || _); [ | exact IH].
  simpl. rewrite filtered_out_untitled. simpl.
  apply NoDup_cons. split; [ | exact IH].
  intros Hin. apply list_elem_of_In, in_map_iff in Hin
    as ([[fmt url] title] & Heq & Hin).
  apply list_elem_of_In in Hin.
  destruct (selected_untitled _ _ _ _ _ _ _ Hrest Hin) as [-> Hkey].
  apply lecfn_of_untitled_inj in Heq as ->. exact (Hfresh Hkey).
Qed.

End ParsedFiles.

(** X11. In every tree the parser returns, each lecture has a video under
    "mp4" and its targets go to pairwise distinct files, whatever the
    naming scheme, the accepted and ignored formats and the title filter:
    within a run no target of a lecture overwrites another target of that
    lecture. *)
Theorem parsed_lecture_files_distinct `{Collaborators}
    (page : string) (reverse intact_fnames : bool)
    (subtitle_language video_resolution : string) (w : world)
    (tree : list module_entry) (w' : world) :
  parse_on_demand_syllabus page reverse intact_fnames subtitle_language
    video_resolution w = (Ok tree, w') ->
  forall m s l, m ∈ tree -> s ∈ snd m -> l ∈ snd s ->
    (exists url : json, dict_get (snd l) "mp4" = Some [(url, "")]) /\
    forall o sec secnum lecnum,
      NoDup (lecture_files o sec secnum lecnum l).
Proof.
  intros Hrun m s l Hm Hs Hl.
  assert (Hattached : attached l).
  { eapply (parse_tree_lectures attached); try eassumption.
    intros lecture lectures v lectures' v'. apply parse_lecture_attached. }
  split; [exact (proj2 (proj2 Hattached)) | ].
  intros o sec secnum lecnum. apply lecture_files_nodup. exact Hattached.
Qed.

Lemma parsed_lecture_files_distinct_witness :
  exists tree w',
    @parse_on_demand_syllabus Cases.online "course/c" false false "all"
      "540p" Demo.start = (Ok tree, w') /\
    forall m s l, m ∈ tree -> s ∈ snd m -> l ∈ snd s ->
      (exists url : json, dict_get (snd l) "mp4" = Some [(url, "")]) /\
      forall o sec secnum lecnum,
        NoDup (@lecture_files Cases.online o sec secnum lecnum l).
Proof.
  eexists _, _. split; [vm_compute; reflexivity | ].
  eapply (@parsed_lecture_files_distinct Cases.online "course/c" false false
            "all" "540p" Demo.start).
  vm_compute. reflexivity.
Defined.

(** ** Download orchestrator: a run with nothing to do *)

Section NothingToDo.
Context `{Collaborators}.
Variable o : options.
Hypothesis Hoverwrite : overwrite o = false.
Hypothesis Hresume : resume o = false.

Lemma write_resource_present sec secnum lecnum lecname fmt url title
    last_update w n :
  fs w !! lecfn_of o sec secnum lecnum lecname title fmt = Some n ->
  write_resource o sec secnum lecnum lecname (fmt, url, title) last_update w
  = (Ok (Z.max last_update (mtime n)), w).
Proof.
  intros Hfile. unfold write_resource.
  rewrite (bind_step _ _ _ _ _ (must_write_value o _ w)).
  rewrite Hoverwrite, Hresume, Hfile.
  rewrite bool_decide_eq_true_2 by eauto. simpl.
  unfold bind, getmtime, ret. rewrite Hfile. reflexivity.
Qed.

Lemma targets_loop_present sec secnum lecnum lecname
    (targets : list (string * json * string)) last_update w :
  (forall p, p ∈ map (fun target : string * json * string =>
                        let '(fmt, _, title) := target in
                        lecfn_of o sec secnum lecnum lecname title fmt)
                     targets ->
             is_Some (fs w !! p)) ->
  for_each targets (write_resource o sec secnum lecnum lecname) last_update w
  = (Ok (fold_left Z.max
           (mtimes w (map (fun target : string * json * string =>
                             let '(fmt, _, title) := target in
                             lecfn_of o sec secnum lecnum lecname title fmt)
                          targets))
           last_update), w).
Proof.
  revert last_update.
  induction targets as [|[[fmt url] title] targets IH]; intros last_update Hall.
  - reflexivity.
  - destruct (Hall (lecfn_of o sec secnum lecnum lecname title fmt))
      as [n Hn]; [left | ].
    cbn [for_each].
    rewrite (bind_step _ _ _ _ _
               (write_resource_present _ _ _ _ _ url _ last_update _ _ Hn)).
    rewrite IH by (intros p Hp; apply Hall; right; exact Hp).
    unfold mtimes. cbn [map fold_left]. rewrite Hn. reflexivity.
Qed.

Lemma lecture_present sec secnum (item : nat * lecture_entry) last_update w :
  is_ok (fails_filter (lecture_filter o) (fst (snd item))) = true ->
  (survives (lecture_filter o) (fst (snd item)) -> is_Some (fs w !! sec)) ->
  (forall p, p ∈ lecture_targets o sec secnum item -> is_Some (fs w !! p)) ->
  download_lecture o sec secnum item last_update w
  = (Ok (fold_left Z.max (mtimes w (lecture_targets o sec secnum item))
           last_update), w).
Proof.
  destruct item as [lecnum [lecname lecture]]. cbn [fst snd].
  intros Hok Hsec Hfiles. unfold download_lecture, lecture_targets in *.
  cbn [fst snd] in *.
  destruct (fails_filter (lecture_filter o) lecname) as [[|]|e] eqn:Hfilter;
    [reflexivity | | discriminate Hok].
  rewrite (bind_step _ _ w false w) by reflexivity.
  unfold path_exists. rewrite (bind_step _ _ w true w).
  - rewrite (bind_step _ _ w tt w) by reflexivity.
    unfold lecture_files in *. cbn [fst snd] in *.
    apply targets_loop_present. exact Hfiles.
  - rewrite bool_decide_eq_true_2 by (apply Hsec; exact Hfilter). reflexivity.
Qed.

Lemma lectures_loop_present sec secnum (lectures : list lecture_entry) k
    last_update w :
  (forall lecture, lecture ∈ lectures ->
     is_ok (fails_filter (lecture_filter o) (fst lecture)) = true) ->
  (has_surviving_lecture o lectures -> is_Some (fs w !! sec)) ->
  (forall p, p ∈ flat_map (lecture_targets o sec secnum)
                          (enumerate_from k lectures) ->
             is_Some (fs w !! p)) ->
  for_each (enumerate_from k lectures) (download_lecture o sec secnum)
           last_update w
  = (Ok (fold_left Z.max
           (mtimes w (flat_map (lecture_targets o sec secnum)
                               (enumerate_from k lectures)))
           last_update), w).
Proof.
  revert k last_update.
  induction lectures as [|lecture lectures IH]; intros k last_update
    Hok Hsec Hfiles.
  - reflexivity.
  - cbn [enumerate_from for_each flat_map].
    assert (Hhead : download_lecture o sec secnum (k, lecture) last_update w
                    = (Ok (fold_left Z.max
                             (mtimes w (lecture_targets o sec secnum
                                          (k, lecture)))
                             last_update), w)).
    { apply lecture_present.
      - apply Hok. left.
      - intros Hs. apply Hsec. exists lecture. split; [left | exact Hs].
      - intros p Hp. apply Hfiles. cbn [enumerate_from flat_map].
        apply elem_of_app. left. exact Hp. }
    rewrite (bind_step _ _ _ _ _ Hhead). rewrite IH.
    + unfold mtimes. rewrite map_app, fold_left_app. reflexivity.
    + intros l Hl. apply Hok. right. exact Hl.
    + intros (l & Hl & Hs). apply Hsec. exists l.
      split; [right; exact Hl | exact Hs].
    + intros p Hp. apply Hfiles. cbn [enumerate_from flat_map].
      apply elem_of_app. right. exact Hp.
Qed.

End NothingToDo.

Section NothingToDoRun.
Context `{Collaborators}.
Variable o : options.
Hypothesis Hoverwrite : overwrite o = false.
Hypothesis Hresume : resume o = false.
Hypothesis Hplaylist : playlist o = false.
Hypothesis Hhooks : hooks o = [].

Lemma section_present class_name (item : nat * section_entry) last_update w :
  is_ok (fails_filter (section_filter o) (fst (snd item))) = true ->
  (forall lecture, lecture ∈ snd (snd item) ->
     is_ok (fails_filter (lecture_filter o) (fst lecture)) = true) ->
  (survives (section_filter o) (fst (snd item)) ->
   has_surviving_lecture o (snd (snd item)) ->
   is_Some (fs w !! section_dir o class_name (fst item) (fst (snd item)))) ->
  (forall p, p ∈ section_targets o class_name item -> is_Some (fs w !! p)) ->
  download_section o class_name item last_update w
  = (Ok (fold_left Z.max (mtimes w (section_targets o class_name item))
           last_update), w).
Proof.
  destruct item as [secnum [section lectures]]. cbn [fst snd].
  intros Hok Hlectures Hdir Hfiles.
  unfold download_section, section_targets in *. cbn [fst snd] in *.
  destruct (fails_filter (section_filter o) section) as [[|]|e] eqn:Hfilter;
    [reflexivity | | discriminate Hok].
  rewrite (bind_step _ _ w false w) by reflexivity.
  rewrite (bind_step _ _ _ _ _
             (lectures_loop_present o Hoverwrite Hresume _ secnum lectures 0
                last_update w Hlectures (Hdir Hfilter) Hfiles)).
  rewrite Hplaylist, Hhooks. reflexivity.
Qed.

Lemma sections_loop_present class_name (sections : list section_entry) k
    last_update w :
  filters_apply o sections ->
  (forall secnum section lectures,
      (secnum, (section, lectures)) ∈ enumerate_from k sections ->
      survives (section_filter o) section ->
      has_surviving_lecture o lectures ->
      is_Some (fs w !! section_dir o class_name secnum section)) ->
  (forall p, p ∈ flat_map (section_targets o class_name)
                          (enumerate_from k sections) ->
             is_Some (fs w !! p)) ->
  for_each (enumerate_from k sections) (download_section o class_name)
           last_update w
  = (Ok (fold_left Z.max
           (mtimes w (flat_map (section_targets o class_name)
                               (enumerate_from k sections)))
           last_update), w).
Proof.
  revert k last_update.
  induction sections as [|section sections IH]; intros k last_update
    Hok Hdirs Hfiles.
  - reflexivity.
  - cbn [enumerate_from for_each flat_map].
    assert (Hhead : download_section o class_name (k, section) last_update w
                    = (Ok (fold_left Z.max
                             (mtimes w (section_targets o class_name
                                          (k, section)))
                             last_update), w)).
    { apply section_present; cbn [fst snd].
      - apply (Hok section). left.
      - apply (Hok section). left.
      - intros Hs Hl. destruct section as [slug lectures].
        apply (Hdirs k slug lectures); [left | exact Hs | exact Hl].
      - intros p Hp. apply Hfiles. cbn [enumerate_from flat_map].
        apply elem_of_app. left. exact Hp. }
    rewrite (bind_step _ _ _ _ _ Hhead). rewrite IH.
    + unfold mtimes. rewrite map_app, fold_left_app. reflexivity.
    + intros s Hs. apply Hok. right. exact Hs.
    + intros secnum s lectures Hin. apply Hdirs. right. exact Hin.
    + intros p Hp. apply Hfiles. cbn [enumerate_from flat_map].
      apply elem_of_app. right. exact Hp.
Qed.

End NothingToDoRun.

(** X12. Without overwrite, resume, playlists and hooks, a call of
    [download_lectures] that finds in place the directory of every section
    it enters and the file of every target leaves the world exactly as it
    was: no download, no placeholder, no directory, no clock reading before
    the estimate. The latest activity it computes is the largest
    modification time among the targets, or -1 when there is no target. *)
Theorem nothing_to_do `{Collaborators} (o : options) (class_name : string)
    (sections : list section_entry) (w : world) :
  overwrite o = false -> resume o = false ->
  playlist o = false -> hooks o = [] ->
  filters_apply o sections ->
  directories_present o class_name sections w ->
  (forall p, p ∈ run_targets o class_name sections -> is_Some (fs w !! p)) ->
  latest_activity o class_name sections w
  = (Ok (fold_left Z.max (mtimes w (run_targets o class_name sections)) (-1)),
     w).
Proof.
  intros Hoverwrite Hresume Hplaylist Hhooks Hok Hdirs Hfiles.
  unfold latest_activity, run_targets, enumerate.
  apply sections_loop_present; assumption.
Qed.

Lemma nothing_to_do_witness :
  @latest_activity Cases.later MoreCases.week1_options "01_m1"
    MoreCases.week1 Cases.downloaded
  = (Ok (fold_left Z.max
           (mtimes Cases.downloaded
              (@run_targets Cases.later MoreCases.week1_options "01_m1"
                 MoreCases.week1))
           (-1)),
     Cases.downloaded).
Proof.
  apply (@nothing_to_do Cases.later MoreCases.week1_options "01_m1"
           MoreCases.week1 Cases.downloaded).
  - reflexivity.
  - reflexivity.
  - reflexivity.
  - reflexivity.
  - intros section Hsection. apply list_elem_of_singleton in Hsection as ->.
    split; [reflexivity | ]. intros lecture Hlecture.
    apply list_elem_of_singleton in Hlecture as ->. reflexivity.
  - intros secnum section lectures Hin _ _.
    apply list_elem_of_singleton in Hin. injection Hin as -> -> ->.
    eexists. vm_compute. reflexivity.
  - intros p Hp. vm_compute in Hp.
    apply list_elem_of_singleton in Hp as ->.
    eexists. vm_compute. reflexivity.
Defined.

(** ** The course loop of [main] *)

Section MainFacts.
Context `{Collaborators}.

Lemma for_each_app {A S} (body : A -> S -> M S) (l1 l2 : list A) acc w :
  for_each (l1 ++ l2) body acc w
  = bind (for_each l1 body acc) (for_each l2 body) w.
Proof.
  revert acc w. induction l1 as [|x l1 IH]; intros acc w; simpl.
  - reflexivity.
  - unfold bind. destruct (body x acc w) as [[acc'|e] w1]; [ | reflexivity].
    rewrite IH. reflexivity.
Qed.



End MainFacts.



(** X14. When a class raises, the loop of [main] goes on with the remaining
    classes, from the world the failed class left, exactly if the exception
    is an HTTP error, ClassNotFound or AuthenticationFailed; on any other
    exception, such as the ValueError of a malformed document or a KeyError,
    the loop itself raises and no remaining class is attempted. *)
Theorem main_loop_exception `{Collaborators} (a : args)
    (before after : list string) (class_name : string) (w w1 w2 : world)
    (done : list string) (e : exn) :
  main_loop a before w = (Ok done, w1) ->
  download_class a class_name w1 = (Raise e, w2) ->
  main_loop a (before ++ class_name :: after) w
  = if handled e then for_each after (try_class a) done w2
    else (Raise e, w2).
Proof.
  intros Hbefore Hclass. unfold main_loop in *.
  rewrite for_each_app, (bind_step _ _ _ _ _ Hbefore).
  cbn [for_each]. unfold bind, try_class at 1. rewrite Hclass.
  destruct (handled e); reflexivity.
Qed.

Lemma main_loop_exception_witness :
  @main_loop Cases.broken Demo.default_args ([] ++ "c" :: ["d"]) Demo.start
  = if handled ValueError
    then for_each ["d"] (@try_class Cases.broken Demo.default_args) []
           Demo.start
    else (Raise ValueError, Demo.start).
Proof.
  apply (@main_loop_exception Cases.broken Demo.default_args [] ["d"] "c"
           Demo.start Demo.start Demo.start [] ValueError).
  - reflexivity.
  - vm_compute. reflexivity.
Defined.

(** ** Download orchestrator: what a run writes *)

Section Writes.
Context `{Collaborators}.
Variable o : options.

Lemma write_allowed_mono files files' e :
  (forall p, p ∈ files -> p ∈ files') ->
  write_allowed o files e -> write_allowed o files' e.
Proof.
  intros Hsub. destruct e; simpl; try (intros; exact I).
  - intros (Hskip & Hr & Hp). repeat split; auto.
  - intros (Hskip & Hp). split; auto.
Qed.

Lemma write_resource_allowed sec secnum lecnum lecname fmt url title
    last_update :
  emits (write_allowed o [lecfn_of o sec secnum lecnum lecname title fmt])
        (write_resource o sec secnum lecnum lecname (fmt, url, title)
                        last_update).
Proof.
  unfold write_resource. apply emits_bind.
  - unfold must_write. destruct (overwrite o); [apply emits_ret | ].
    apply emits_bind; [apply emits_path_exists | ].
    intros present. destruct (negb present); apply emits_ret.
  - intros [|].
    + apply emits_bind; [ | intros _; apply emits_time].
      destruct (skip_download o) eqn:Hskip; simpl.
      * unfold touch. apply emits_bind.
        -- apply emits_emit. simpl. split; [exact Hskip | left].
        -- intros _ w r w' Hrun. exists [].
           split; [ | constructor]. rewrite app_nil_r.
           destruct (fs w !! _) as [[[|] t]|]; injection Hrun as <- <-;
             reflexivity.
      * unfold downloader_download. apply emits_bind.
        -- apply emits_emit. simpl.
           split; [exact Hskip | split; [reflexivity | left]].
        -- intros _. apply emits_external.
    + apply emits_bind; [ | intros m; apply emits_ret].
      intros w r w' Hrun. unfold getmtime in Hrun. exists [].
      split; [ | constructor]. rewrite app_nil_r.
      destruct (fs w !! _); injection Hrun as <- <-; reflexivity.
Qed.

Lemma download_lecture_allowed sec secnum item last_update :
  emits (write_allowed o (lecture_targets o sec secnum item))
        (download_lecture o sec secnum item last_update).
Proof.
  destruct item as [lecnum [lecname lecture]].
  unfold download_lecture, lecture_targets. cbn [fst snd].
  apply emits_bind_lift. intros [|] Hfilter; [apply emits_ret | ].
  rewrite Hfilter.
  apply emits_bind; [apply emits_path_exists | ]. intros present.
  apply emits_bind.
  - destruct (negb present); [ | apply emits_ret].
    unfold mkdir_p. apply emits_bind; [apply emits_emit; exact I | ].
    intros _ w r w' Hrun. exists []. split; [ | constructor].
    rewrite app_nil_r.
    destruct (fs w !! sec); injection Hrun as <- <-; reflexivity.
  - intros _. apply emits_for_each. intros [[fmt url] title] acc Htarget.
    eapply emits_weaken; [ | apply write_resource_allowed].
    intros e. apply write_allowed_mono. intros p Hp.
    apply list_elem_of_singleton in Hp as ->.
    unfold lecture_files. cbn [fst snd].
    apply list_elem_of_In, in_map_iff. exists (fmt, url, title).
    split; [reflexivity | apply list_elem_of_In; exact Htarget].
Qed.

Lemma download_section_allowed class_name item last_update :
  emits (write_allowed o (section_targets o class_name item))
        (download_section o class_name item last_update).
Proof.
  destruct item as [secnum [section lectures]].
  unfold download_section, section_targets. cbn [fst snd].
  apply emits_bind_lift. intros [|] Hfilter; [apply emits_ret | ].
  rewrite Hfilter. apply emits_bind.
  - apply emits_for_each. intros item acc Hitem.
    eapply emits_weaken; [ | apply download_lecture_allowed].
    intros e. apply write_allowed_mono. intros p Hp.
    apply list_elem_of_In, in_flat_map. exists item.
    split; apply list_elem_of_In; assumption.
  - intros lu. apply emits_bind.
    + destruct (playlist o); [ | apply emits_ret].
      apply emits_bind; [ | intros _; apply emits_external].
      apply emits_emit. exact I.
    + intros _. apply emits_bind; [ | intros _; apply emits_ret].
      destruct (nonempty (hooks o)); [ | apply emits_ret].
      apply emits_for_each. intros hook [] _.
      apply emits_bind; [ | intros _; apply emits_external].
      apply emits_emit. exact I.
Qed.

End Writes.

(** X15. Whatever a call of [download_lectures] does, returning or raising,
    every download it starts and every placeholder it creates is on the
    file of one of its targets (a resource the selector returned for a
    lecture and a section the filters let through); it starts downloads
    only without skip_download, always with the resume flag it was given,
    and creates placeholders only with skip_download. *)
Theorem writes_are_targets `{Collaborators} (o : options)
    (class_name : string) (sections : list section_entry) (w : world)
    (r : result bool) (w' : world) :
  download_lectures o class_name sections w = (r, w') ->
  exists evs,
    log w' = log w ++ evs /\
    Forall (write_allowed o (run_targets o class_name sections)) evs.
Proof.
  revert w r w'.
  change (emits (write_allowed o (run_targets o class_name sections))
            (download_lectures o class_name sections)).
  unfold download_lectures. apply emits_bind.
  - unfold latest_activity. apply emits_for_each. intros item acc Hitem.
    eapply emits_weaken; [ | apply download_section_allowed].
    intros e. apply write_allowed_mono. intros p Hp.
    apply list_elem_of_In, in_flat_map. exists item.
    split; apply list_elem_of_In; assumption.
  - intros last_update. apply is_course_complete_emits.
Qed.

Lemma writes_are_targets_witness :
  exists evs,
    log (snd (@download_lectures Cases.offline Cases.placeholder_options "c"
                [(JStr "week1", [(JStr "intro", Cases.intro_lecture)])]
                Demo.start))
    = log Demo.start ++ evs /\
    Forall (write_allowed Cases.placeholder_options
              (@run_targets Cases.offline Cases.placeholder_options "c"
                 [(JStr "week1", [(JStr "intro", Cases.intro_lecture)])]))
           evs.
Proof.
  eapply (@writes_are_targets Cases.offline Cases.placeholder_options "c"
            [(JStr "week1", [(JStr "intro", Cases.intro_lecture)])]
            Demo.start).
  apply surjective_pairing.
Defined.

(** ** Resource selector: order *)

Section SelectorOrder.
Context `{Collaborators}.

Lemma selected_of_sublist F rf ign (item : string * list resource) :
  sublist (selected_of F rf ign item)
          (map (fun r : resource => (fst item, fst r, snd r)) (snd item)).
Proof.
  unfold selected_of. destruct (bool_decide _); [apply sublist_nil_l | ].
  destruct (_ || _); [ | apply sublist_nil_l].
  induction (snd item) as [|r rs IH]; simpl; [constructor | ].
  destruct (filtered_out rf (snd r)); simpl.
  - apply sublist_cons. exact IH.
  - apply sublist_skip. exact IH.
Qed.

Lemma selected_of_all (item : string * list resource) F :
  "all" ∈ F ->
  selected_of F None [] item
  = map (fun r : resource => (fst item, fst r, snd r)) (snd item).
Proof.
  intros Hall. unfold selected_of.
  rewrite bool_decide_eq_false_2 by (intros Hin; inversion Hin).
  rewrite (bool_decide_eq_true_2 _ Hall), orb_true_r.
  induction (snd item) as [|r rs IH]; simpl; [reflexivity | ].
  f_equal; try exact IH.
Qed.

End SelectorOrder.

(** X16. The selector never reorders and never invents: its output is a
    subsequence of the resources of the lecture, each under its own key and
    keys in iteration order. When "all" is among the accepted formats,
    nothing is ignored and there is no title filter, it returns every
    resource. *)
Theorem find_resources_to_get_order `{Collaborators}
    (lecture : lecture_content) (F : list string) (rf : option string)
    (ign : option (list string)) :
  sublist (find_resources_to_get lecture F rf ign) (all_resources lecture) /\
  ("all" ∈ F -> default [] ign = [] ->
   find_resources_to_get lecture F None ign = all_resources lecture).
Proof.
  rewrite !find_resources_to_get_flat. unfold all_resources. split.
  - induction lecture as [|item lecture IH]; simpl; [constructor | ].
    apply sublist_app; [apply selected_of_sublist | exact IH].
  - intros Hall ->.
    induction lecture as [|item lecture IH]; simpl; [reflexivity | ].
    rewrite IH, (selected_of_all _ _ Hall). reflexivity.
Qed.

Lemma find_resources_to_get_order_witness :
  @find_resources_to_get Cases.offline
    [("mp4", [(JStr "http://x/a.mp4", "")]);
     ("en.srt", [(JStr "http://x/a.srt", "")])] ["all"] None None
  = all_resources [("mp4", [(JStr "http://x/a.mp4", "")]);
                   ("en.srt", [(JStr "http://x/a.srt", "")])].
Proof.
  apply (proj2 (@find_resources_to_get_order Cases.offline
                  [("mp4", [(JStr "http://x/a.mp4", "")]);
                   ("en.srt", [(JStr "http://x/a.srt", "")])]
                  ["all"] None None)).
  - constructor.
  - reflexivity.
Defined.

(** ** Syllabus parser: reversal *)

(** X17. Asking for the reverse order reverses the list of modules and
    nothing else: the parser does the same requests, logs the same
    warnings, raises in the same cases, and every module keeps its sections
    and lectures in syllabus order. *)
Theorem parse_on_demand_syllabus_reverse `{Collaborators} (page : string)
    (intact_fnames : bool) (subtitle_language video_resolution : string)
    (w : world) :
  parse_on_demand_syllabus page true intact_fnames subtitle_language
    video_resolution w
  = match parse_on_demand_syllabus page false intact_fnames
            subtitle_language video_resolution w with
    | (Ok tree, w') => (Ok (rev tree), w')
    | (Raise e, w') => (Raise e, w')
    end.
Proof.
  unfold parse_on_demand_syllabus, bind, lift, ret.
  destruct (json_loads page) as [dom|e]; [ | reflexivity].
  destruct (Res.bind _ _) as [json_modules|e]; [ | reflexivity].
  destruct (for_each json_modules _ [] w) as [[modules|e] w1];
    [ | reflexivity].
  rewrite andb_true_r, andb_false_r.
  destruct modules; reflexivity.
Qed.

(** ** Download orchestrator: overwrite and resume *)

Section Rewrites.
Context `{Collaborators}.

Lemma written_app evs1 evs2 : written (evs1 ++ evs2) = written evs1 ++ written evs2.
Proof. unfold written. apply flat_map_app. Qed.

Lemma flat_map_singletons {A B} (f : A -> B) (l : list A) :
  flat_map (fun x => [f x]) l = map f l.
Proof. induction l as [|x l IH]; simpl; [ | rewrite IH]; reflexivity. Qed.

Lemma writes_nothing {A} (m : M A) :
  (forall w r w', m w = (r, w') -> log w' = log w) -> writes_exactly [] m.
Proof.
  intros Hm w a w' Hrun. exists []. rewrite app_nil_r.
  split; [exact (Hm _ _ _ Hrun) | reflexivity].
Qed.

Lemma writes_ret {A} (a : A) : writes_exactly [] (ret a).
Proof. apply writes_nothing. intros w r w' [= _ <-]. reflexivity. Qed.

Lemma writes_bind {A B} files1 files2 (m : M A) (k : A -> M B) :
  writes_exactly files1 m ->
  (forall a, writes_exactly files2 (k a)) ->
  writes_exactly (files1 ++ files2) (bind m k).
Proof.
  intros Hm Hk w b w' Hrun. apply bind_ok in Hrun as (a & w1 & Hfirst & Hrun).
  destruct (Hm _ _ _ Hfirst) as (evs1 & Hlog1 & Hw1).
  destruct (Hk a _ _ _ Hrun) as (evs2 & Hlog2 & Hw2).
  exists (evs1 ++ evs2). rewrite Hlog2, Hlog1, app_assoc, written_app, Hw1, Hw2.
  split; reflexivity.
Qed.

Lemma writes_bind_lift {A B} files (x : result A) (k : A -> M B) :
  (forall a, x = Ok a -> writes_exactly files (k a)) ->
  writes_exactly files (bind (lift x) k).
Proof.
  intros Hk w b w' Hrun. apply bind_ok in Hrun as (a & w1 & Hfirst & Hrun).
  apply lift_ok in Hfirst as [-> ->]. exact (Hk a eq_refl _ _ _ Hrun).
Qed.

Lemma writes_for_each {A S} (files_of : A -> list string)
    (body : A -> S -> M S) (l : list A) :
  (forall x acc, writes_exactly (files_of x) (body x acc)) ->
  forall acc, writes_exactly (flat_map files_of l) (for_each l body acc).
Proof.
  intros Hbody. induction l as [|x l IH]; intros acc; simpl.
  - apply writes_ret.
  - apply writes_bind; [apply Hbody | exact IH].
Qed.

Variable o : options.
Hypothesis Hforce : overwrite o || resume o = true.

Lemma write_resource_writes sec secnum lecnum lecname fmt url title
    last_update :
  writes_exactly [lecfn_of o sec secnum lecnum lecname title fmt]
    (write_resource o sec secnum lecnum lecname (fmt, url, title)
                    last_update).
Proof.
  intros w a w' Hrun. unfold write_resource in Hrun.
  rewrite (bind_step _ _ _ _ _ (must_write_value o _ w)) in Hrun.
  replace (overwrite o || negb (bool_decide (is_Some (fs w !! _)))
           || resume o) with true in Hrun.
  2:{ symmetry. destruct (overwrite o); [reflexivity | ].
      simpl in Hforce. rewrite Hforce. apply orb_true_r. }
  apply bind_ok in Hrun as ([] & w1 & Hwrite & Hrun).
  unfold time_time in Hrun. injection Hrun as _ <-. simpl.
  destruct (negb (skip_download o)).
  - unfold downloader_download, bind, emit, external in Hwrite.
    simpl in Hwrite.
    destruct (download _ _ _ _ _) as [[[]|e] files]; [ | discriminate].
    injection Hwrite as <-. eexists. split; reflexivity.
  - unfold touch, bind, emit in Hwrite. simpl in Hwrite.
    destruct (fs w !! _) as [[[|] t]|]; try discriminate;
      injection Hwrite as <-; eexists; split; reflexivity.
Qed.

Lemma download_lecture_writes sec secnum item last_update :
  writes_exactly (lecture_targets o sec secnum item)
                 (download_lecture o sec secnum item last_update).
Proof.
  destruct item as [lecnum [lecname lecture]].
  unfold download_lecture, lecture_targets. cbn [fst snd].
  apply writes_bind_lift. intros [|] Hfilter; rewrite Hfilter;
    [apply writes_ret | ].
  change (lecture_files o sec secnum lecnum (lecname, lecture))
    with ([] ++ [] ++ lecture_files o sec secnum lecnum (lecname, lecture)).
  apply writes_bind.
  { apply writes_nothing. intros w r w' [= _ <-]. reflexivity. }
  intros present. apply writes_bind.
  { destruct (negb present); [ | apply writes_ret].
    intros w a w' Hrun. unfold mkdir_p, bind, emit in Hrun. simpl in Hrun.
    exists [Mkdir sec]. split; [ | reflexivity].
    destruct (fs w !! sec) as [[[|] t]|]; try discriminate;
      inversion Hrun; reflexivity. }
  intros _. unfold lecture_files. cbn [fst snd].
  rewrite <- flat_map_singletons.
  apply writes_for_each. intros [[fmt url] title] acc.
  apply write_resource_writes.
Qed.

End Rewrites.

Section RewritesRun.
Context `{Collaborators}.
Variable o : options.
Hypothesis Hforce : overwrite o || resume o = true.

Lemma external_writes a : writes_exactly [] (external a).
Proof.
  apply writes_nothing. intros w r w'. unfold external.
  destruct (a (now w) (fs w)) as [x files]. intros [= _ <-]. reflexivity.
Qed.

Lemma after_lectures_writes sec (last_update : Z) :
  writes_exactly []
    ((if playlist o
      then emit (Playlist sec) ;;; external (write_playlists sec)
      else ret tt) ;;;
     (if nonempty (hooks o)
      then for_each (hooks o)
             (fun hook _ => emit (Hook hook sec) ;;;
                            external (call_hook hook sec)) tt
      else ret tt) ;;;
     ret last_update).
Proof.
  change (@nil string) with (@nil string ++ [] ++ []).
  apply writes_bind; [ | intros _; apply writes_bind;
                                     [ | intros _; apply writes_ret]].
  - destruct (playlist o); [ | apply writes_ret].
    change (@nil string) with (@nil string ++ []).
    apply writes_bind; [ | intros _; apply external_writes].
    intros w a w' [= _ <-]. exists [Playlist sec]. split; reflexivity.
  - destruct (nonempty (hooks o)); [ | apply writes_ret].
    replace (@nil string)
      with (flat_map (fun _ : string => @nil string) (hooks o))
      by (induction (hooks o) as [|h hs IH]; [reflexivity | exact IH]).
    apply writes_for_each. intros hook [].
    change (@nil string) with (@nil string ++ []).
    apply writes_bind; [ | intros _; apply external_writes].
    intros w a w' [= _ <-]. exists [Hook hook sec]. split; reflexivity.
Qed.

Lemma download_section_writes class_name item last_update :
  writes_exactly (section_targets o class_name item)
                 (download_section o class_name item last_update).
Proof.
  destruct item as [secnum [section lectures]].
  unfold download_section, section_targets. cbn [fst snd].
  apply writes_bind_lift. intros [|] Hfilter; rewrite Hfilter;
    [apply writes_ret | ].
  rewrite <- (app_nil_r (flat_map _ _)).
  apply writes_bind.
  - apply writes_for_each. intros item acc.
    apply download_lecture_writes. exact Hforce.
  - intros lu. apply after_lectures_writes.
Qed.

End RewritesRun.

(** X18. With overwrite or resume set, a call of [download_lectures] that
    returns has written every one of its targets, once each and in the order
    of the tree, existing files included: the files of its downloads and
    placeholders, read off the log, are exactly its targets. *)
Theorem forced_run_writes_all `{Collaborators} (o : options)
    (class_name : string) (sections : list section_entry) (w : world)
    (completed : bool) (w' : world) :
  overwrite o || resume o = true ->
  download_lectures o class_name sections w = (Ok completed, w') ->
  exists evs,
    log w' = log w ++ evs /\
    written evs = run_targets o class_name sections.
Proof.
  intros Hforce. revert w completed w'.
  change (writes_exactly (run_targets o class_name sections)
            (download_lectures o class_name sections)).
  unfold download_lectures, run_targets.
  rewrite <- (app_nil_r (flat_map _ _)).
  apply writes_bind.
  - unfold latest_activity. apply writes_for_each. intros item acc.
    apply download_section_writes. exact Hforce.
  - intros last_update. apply writes_nothing. intros w r w' Hrun.
    rewrite is_course_complete_value in Hrun. injection Hrun as _ <-.
    destruct (0 <=? last_update); reflexivity.
Qed.

Lemma forced_run_writes_all_witness :
  exists evs,
    log (snd (@download_lectures Cases.later
                (MoreCases.options_of_resume MoreCases.week1_options) "01_m1"
                MoreCases.week1 Cases.downloaded))
    = log Cases.downloaded ++ evs /\
    written evs
    = @run_targets Cases.later (MoreCases.options_of_resume MoreCases.week1_options)
        "01_m1" MoreCases.week1.
Proof.
  eapply (@forced_run_writes_all Cases.later
            (MoreCases.options_of_resume MoreCases.week1_options) "01_m1"
            MoreCases.week1 Cases.downloaded false).
  - reflexivity.
  - vm_compute. reflexivity.
Defined.

(** ** Resource locator: no subtitles *)

Lemma gather_subtitles_absent `{Collaborators} (dom video_id : json)
    (n e d : string) (vars : dict json * string) (w : world) :
  py_get dom (JStr n) = Ok JNull ->
  gather_subtitles dom video_id (n, e, d) vars w = (Ok vars, w).
Proof.
  intros Hget. destruct vars as [vc sl]. unfold gather_subtitles.
  unfold bind at 1. unfold lift. rewrite Hget. reflexivity.
Qed.

(** X19. Missing subtitle and transcript data is not an error: when the
    metadata document has neither entry, or has them null, and the locator
    returns, the video is its only resource, whatever the language
    selector, and the only warning it can have logged is the one about the
    resolution. *)
Theorem no_subtitles `{Collaborators} (video_id : json)
    (subtitle_language resolution : string) (w : world)
    (video_content : dict json) (w' : world) (page : string) (dom : json) :
  get_on_demand_video_url video_id subtitle_language resolution w
  = (Ok video_content, w') ->
  session_get (OPENCOURSE_VIDEO_URL video_id) = Ok page ->
  json_loads page = Ok dom ->
  py_get dom (JStr "subtitles") = Ok JNull ->
  py_get dom (JStr "subtitlesTxt") = Ok JNull ->
  (exists url, video_content = [("mp4", url)]) /\
  exists evs,
    log w' = log w ++ evs /\
    Forall (fun e => e = Warn_resolution resolution video_id) evs.
Proof.
  intros Hrun Hpage' Hdom' Hsrt Htxt.
  unfold get_on_demand_video_url, get_page in Hrun.
  apply bind_ok in Hrun as (page0 & v1 & Hpage & Hrun).
  apply bind_ok in Hrun as (dom0 & v2 & Hdom & Hrun).
  apply bind_ok in Hrun as (sources & v3 & Hsources & Hrun).
  apply bind_ok in Hrun as (sorted & v4 & Hsorted & Hrun).
  apply bind_ok in Hrun as (filtered & v5 & Hfiltered & Hrun).
  apply bind_ok in Hrun as (chosen & v6 & Hchosen & Hrun).
  apply bind_ok in Hrun as (video_url & v7 & Hurl & Hrun).
  apply bind_ok in Hrun as (vars & v8 & Hloop & Hrun).
  returned Hrun. lifted. subst.
  rewrite Hpage' in Hpage. injection Hpage as <-.
  rewrite Hdom' in Hdom. injection Hdom as <-.
  unfold subtitle_nodes in Hloop. cbn [for_each] in Hloop.
  rewrite (bind_step _ _ v6 (dict_set [] "mp4" video_url, subtitle_language)
             v6) in Hloop by (apply gather_subtitles_absent; exact Hsrt).
  rewrite (bind_step _ _ v6 (dict_set [] "mp4" video_url, subtitle_language)
             v6) in Hloop by (apply gather_subtitles_absent; exact Htxt).
  unfold ret in Hloop. injection Hloop as <- <-.
  split; [exists video_url; reflexivity | ].
  destruct (length filtered =? 0)%nat.
  - unfold bind, emit, ret in Hchosen. simpl in Hchosen.
    injection Hchosen as _ <-. eexists. split; [reflexivity | ].
    constructor; [reflexivity | constructor].
  - unfold ret in Hchosen. injection Hchosen as _ <-. exists [].
    split; [symmetry; apply app_nil_r | constructor].
Qed.

Lemma no_subtitles_witness :
  (exists url, [("mp4", JStr "http://x/v.mp4")] = [("mp4", url)]) /\
  exists evs,
    log (snd (@get_on_demand_video_url MoreCases.silent (JStr "v1") "fr"
                "540p" Demo.start))
    = log Demo.start ++ evs /\
    Forall (fun e => e = Warn_resolution "540p" (JStr "v1")) evs.
Proof.
  apply (@no_subtitles MoreCases.silent (JStr "v1") "fr" "540p" Demo.start
           [("mp4", JStr "http://x/v.mp4")]
           (snd (@get_on_demand_video_url MoreCases.silent (JStr "v1") "fr"
                   "540p" Demo.start))
           "video/v1" MoreCases.bare_video).
  - vm_compute. reflexivity.
  - reflexivity.
  - reflexivity.
  - reflexivity.
  - reflexivity.
Defined.

(** ** Class run: nothing is written before the syllabus is resolved *)

Lemma parse_on_demand_syllabus_leaves `{Collaborators} (page : string)
    (reverse intact_fnames : bool) (sl vr : string) :
  quiet (fun e => is_warning e = true)
        (parse_on_demand_syllabus page reverse intact_fnames sl vr).
Proof.
  unfold parse_on_demand_syllabus.
  apply quiet_bind; [apply quiet_lift | intros dom].
  apply quiet_bind; [apply quiet_lift | intros json_modules].
  apply quiet_bind; [ | intros modules; apply quiet_ret].
  apply quiet_for_each. intros module modules. apply parse_module_quiet.
Qed.

(** X20. A class run is all or nothing up to the first download: either it
    raised while logging in, fetching the syllabus or resolving some
    lecture, and then the file system and the clock are as they were; or
    the login succeeded, the syllabus was served and parsed in full, and
    the outcome is that of the loop over the parsed modules. *)
Theorem class_run_staged `{Collaborators} (a : args) (class_name : string)
    (w : world) (r : result bool) (w' : world) :
  download_class a class_name w = (r, w') ->
  (is_ok r = false /\ fs w' = fs w /\ ticks w' = ticks w) \/
  (exists page modules w1,
      login (args_username a) (args_password a) = Ok tt /\
      session_get (OPENCOURSE_CONTENT_URL class_name) = Ok page /\
      parse_on_demand_syllabus page (args_reverse a) (args_intact_fnames a)
        (args_subtitle_language a) (args_video_resolution a) w
      = (Ok modules, w1) /\
      download_modules a class_name modules w1 = (r, w')).
Proof.
  intros Hrun.
  unfold download_class, download_on_demand_class, get_on_demand_syllabus,
    get_page in Hrun.
  unfold bind at 1 in Hrun. unfold lift at 1 in Hrun.
  destruct (login (args_username a) (args_password a)) as [[]|e] eqn:Hlogin.
  - unfold bind at 1 in Hrun. unfold lift at 1 in Hrun.
    destruct (session_get (OPENCOURSE_CONTENT_URL class_name))
      as [page|e] eqn:Hpage.
    + unfold bind at 1 in Hrun.
      destruct (parse_on_demand_syllabus page (args_reverse a)
                  (args_intact_fnames a) (args_subtitle_language a)
                  (args_video_resolution a) w) as [[modules|e] w1] eqn:Hparse.
      * right. exists page, modules, w1. repeat split; assumption.
      * left. injection Hrun as <- <-.
        destruct (parse_on_demand_syllabus_leaves _ _ _ _ _ _ _ _ Hparse)
          as (Hfs & Hticks & _).
        repeat split; assumption.
    + left. injection Hrun as <- <-. repeat split.
  - left. injection Hrun as <- <-. repeat split.
Qed.

Lemma class_run_staged_witness :
  (is_ok (fst (@download_class Cases.broken Demo.default_args "c"
                 Demo.start)) = false /\
   fs (snd (@download_class Cases.broken Demo.default_args "c" Demo.start))
   = fs Demo.start /\
   ticks (snd (@download_class Cases.broken Demo.default_args "c"
                 Demo.start))
   = ticks Demo.start) \/
  (exists page modules w1,
      @login Cases.broken (args_username Demo.default_args)
        (args_password Demo.default_args) = Ok tt /\
      @session_get Cases.broken (@OPENCOURSE_CONTENT_URL Cases.broken "c")
      = Ok page /\
      @parse_on_demand_syllabus Cases.broken page
        (args_reverse Demo.default_args)
        (args_intact_fnames Demo.default_args)
        (args_subtitle_language Demo.default_args)
        (args_video_resolution Demo.default_args) Demo.start
      = (Ok modules, w1) /\
      @download_modules Cases.broken Demo.default_args "c" modules w1
      = (fst (@download_class Cases.broken Demo.default_args "c" Demo.start),
         snd (@download_class Cases.broken Demo.default_args "c"
                Demo.start))).
Proof.
  apply (@class_run_staged Cases.broken Demo.default_args "c" Demo.start).
  symmetry. apply surjective_pairing.
Defined.

(** ** Playlists and hooks run once per retained section *)

Section Closing.
Context `{Collaborators}.







Variable o : options.



End Closing.


